(** * Carrivo Assistant: retrieval-and-grounding pipeline

    A shallow embedding of the Python services under [backend/app]
    (language detector, grounding validator, embedding / roadmap / FAQ
    search, LLM wrapper and chat orchestrator) together with the properties
    the specification states about them.

    Conventions of the embedding
    - a Python [str] is a list of Unicode code points ([N]);
    - a Python [dict] with string keys is an association list that keeps
      insertion order;
    - embeddings and the cosine similarity computed from them are
      IEEE binary64 floats (Rocq's primitive floats), since rounding,
      overflow and NaN decide what the vector search returns; the scores
      of the text tiers (quotients of counts, difflib ratios) are
      idealised as real numbers, confidences of the detector and of the
      orchestrator (float literals and small quotients) as rationals, so
      that a comparison with a threshold is the exact one;
    - a call that may raise returns an [option] ([None] = an exception
      reached the enclosing [try]);
    - the parts of the Python runtime that the repository only calls
      (Unicode tables, difflib, hash order of sets, the accumulation
      order of [np.dot]) are the fields of the class [PyRuntime]. *)

From Stdlib Require Import Floats.
From Stdlib Require Import String Ascii.
From Stdlib Require Import NArith ZArith QArith Reals Lra Lia Bool Arith.
From Stdlib Require Import List Permutation Sorted Relations.
From Stdlib Require Lqa.
Import ListNotations.

Set Implicit Arguments.
Set Warnings "-inexact-float".
Close Scope Q_scope.
Close Scope R_scope.
Close Scope Z_scope.
Close Scope N_scope.

(* ================================================================== *)
(** * Python strings *)
(* ================================================================== *)

Definition char := N.
Definition str := list char.
Bind Scope N_scope with char.

(** String literals of the sources are written as UTF-8 text and decoded
    to code points. *)
Fixpoint utf8_decode (bs : list N) : str :=
  match bs with
  | [] => []
  | b0 :: r0 =>
    if (b0 <? 128)%N then b0 :: utf8_decode r0
    else if (b0 <? 224)%N then
      match r0 with
      | b1 :: r1 =>
        ((N.land b0 31) * 64 + N.land b1 63)%N :: utf8_decode r1
      | [] => [b0]
      end
    else if (b0 <? 240)%N then
      match r0 with
      | b1 :: b2 :: r2 =>
        ((N.land b0 15) * 4096 + (N.land b1 63) * 64 + N.land b2 63)%N
          :: utf8_decode r2
      | _ => [b0]
      end
    else
      match r0 with
      | b1 :: b2 :: b3 :: r3 =>
        ((N.land b0 7) * 262144 + (N.land b1 63) * 4096
         + (N.land b2 63) * 64 + N.land b3 63)%N :: utf8_decode r3
      | _ => [b0]
      end
  end.

Definition utf8 (s : string) : str :=
  utf8_decode (map N_of_ascii (list_ascii_of_string s)).
Arguments utf8 s%_string.

Fixpoint str_eqb (a b : str) : bool :=
  match a, b with
  | [], [] => true
  | x :: a', y :: b' => (x =? y)%N && str_eqb a' b'
  | _, _ => false
  end.

(** [x in l] for a list (or set) of strings. *)
Definition str_mem (x : str) (l : list str) : bool := existsb (str_eqb x) l.

(** [s.startswith(p)] *)
Fixpoint startswith (p s : str) : bool :=
  match p, s with
  | [], _ => true
  | x :: p', y :: s' => (x =? y)%N && startswith p' s'
  | _ :: _, [] => false
  end.

(** [needle in hay] *)
Fixpoint contains (needle hay : str) : bool :=
  startswith needle hay ||
  match hay with
  | [] => false
  | _ :: hay' => contains needle hay'
  end.

Fixpoint take_while (p : char -> bool) (s : str) : str :=
  match s with
  | [] => []
  | c :: s' => if p c then c :: take_while p s' else []
  end.

Fixpoint drop_while (p : char -> bool) (s : str) : str :=
  match s with
  | [] => []
  | c :: s' => if p c then drop_while p s' else s
  end.

(** [Py_UNICODE_ISSPACE]: what [str.strip], [str.split] and the regex
    class [\s] call white space. *)
Definition is_space (c : char) : bool :=
  ((9 <=? c) && (c <=? 13) || (28 <=? c) && (c <=? 32)
   || (c =? 133) || (c =? 160) || (c =? 5760)
   || (8192 <=? c) && (c <=? 8202)
   || (c =? 8232) || (c =? 8233) || (c =? 8239) || (c =? 8287)
   || (c =? 12288))%N.

(** [s.rstrip(chars)] and [s.strip()] *)
Definition rstrip_by (p : char -> bool) (s : str) : str :=
  rev (drop_while p (rev s)).

Definition rstrip_char (c : char) (s : str) : str :=
  rstrip_by (fun x => (x =? c)%N) s.

Definition strip (s : str) : str :=
  rstrip_by is_space (drop_while is_space s).

(** [s.split()]: the maximal runs of characters that are not white space. *)
Fixpoint split_ws_aux (cur : str) (s : str) : list str :=
  match s with
  | [] => match cur with [] => [] | _ => [rev cur] end
  | c :: s' =>
    if is_space c
    then match cur with
         | [] => split_ws_aux [] s'
         | _ => rev cur :: split_ws_aux [] s'
         end
    else split_ws_aux (c :: cur) s'
  end.

Definition split_ws (s : str) : list str := split_ws_aux [] s.

(** [s.replace(old, new)]: every occurrence, leftmost first, without
    overlap.  [skip] counts the characters of an occurrence still to be
    passed over. *)
Fixpoint replace_from (skip : nat) (old new s : str) : str :=
  match s with
  | [] => []
  | c :: s' =>
    match skip with
    | S k => replace_from k old new s'
    | O =>
      if startswith old s
      then new ++ replace_from (pred (length old)) old new s'
      else c :: replace_from 0 old new s'
    end
  end.

Definition replace (old new s : str) : str :=
  match old with
  | [] => new ++ flat_map (fun c => c :: new) s
  | _ :: _ => replace_from 0 old new s
  end.

(** [sep.join(parts)] *)
Fixpoint join (sep : str) (parts : list str) : str :=
  match parts with
  | [] => []
  | [p] => p
  | p :: ps => p ++ sep ++ join sep ps
  end.

(** Lower-casing of the ASCII letters. *)
Definition ascii_lower (c : char) : char :=
  if ((65 <=? c) && (c <=? 90))%N then (c + 32)%N else c.

Definition is_ascii (c : char) : bool := (c <? 128)%N.

(* ================================================================== *)
(** * Dictionaries (rows of the store, context items) *)
(* ================================================================== *)

(** [VNum]: a number idealised as a real (scores of the text tiers,
    numbers of the store); [VFloat]: a binary64 float (the cosine of the
    vector search); [VVec]: an embedding, a list of binary64 floats. *)
Inductive value : Type :=
| VStr (s : str)
| VNum (x : R)
| VFloat (x : float)
| VVec (v : list float)
| VBool (b : bool)
| VNone.

Definition Dict := list (string * value).

Fixpoint dict_get (k : string) (d : Dict) : option value :=
  match d with
  | [] => None
  | (k', v) :: d' => if String.eqb k k' then Some v else dict_get k d'
  end.

(** [{**d, k: v}]: an existing key keeps its place, a new one goes last. *)
Fixpoint dict_set (k : string) (v : value) (d : Dict) : Dict :=
  match d with
  | [] => [(k, v)]
  | (k', v') :: d' =>
    if String.eqb k k' then (k, v) :: d' else (k', v') :: dict_set k v d'
  end.

(* ================================================================== *)
(** * The Python runtime the services rely on *)
(* ================================================================== *)

(** Library behaviour that is not code of the repository. *)
Class PyRuntime : Type := {
  (** [str.lower] *)
  py_lower : str -> str;
  (** the regex class [\w] on [str] patterns *)
  py_isword : char -> bool;
  (** [difflib.SequenceMatcher(None, a, b).ratio()] *)
  seq_ratio : str -> str -> R;
  (** the order in which [list(set(l))] enumerates the distinct members *)
  set_order : list str -> list str;
  (** [str(v)] for a value that is not itself a string *)
  py_str : value -> str;
  (** [np.dot] of two float64 vectors of one length: the sum of the
      products, accumulated in the order of the BLAS kernel in use *)
  np_dot : list float -> list float -> float;
  (** [list.sort] when a key is NaN (the comparisons then order nothing):
      from the keys, the positions of the members in the result *)
  sort_nan_order : list float -> list nat
}.

(** What the documentation of those library functions guarantees. *)
Class PyRuntimeLaws (RT : PyRuntime) : Prop := {
  lower_ascii :
    forall s, forallb is_ascii s = true -> py_lower s = map ascii_lower s;
  lower_space :
    forall s, forallb is_space s = true -> py_lower s = s;
  ratio_range : forall a b, (0 <= seq_ratio a b <= 1)%R;
  set_order_perm :
    forall l, Permutation (set_order l) (nodup (list_eq_dec N.eq_dec) l)
}.


(** The products summed from left to right. *)
Fixpoint sequential_dot_from (acc : float) (a b : list float) : float :=
  match a, b with
  | x :: a', y :: b' => sequential_dot_from (acc + x * y)%float a' b'
  | _, _ => acc
  end.

Definition sequential_dot (a b : list float) : float :=
  sequential_dot_from 0%float a b.

(** A runtime restricted to ASCII case mapping, used to run the model. *)
Definition ascii_isword (c : char) : bool :=
  ((48 <=? c) && (c <=? 57) || (65 <=? c) && (c <=? 90)
   || (97 <=? c) && (c <=? 122) || (c =? 95))%N.

Definition ascii_runtime : PyRuntime := {|
  py_lower := map ascii_lower;
  py_isword := ascii_isword;
  seq_ratio := fun a b => if str_eqb a b then 1%R else 0%R;
  set_order := nodup (list_eq_dec N.eq_dec);
  py_str := fun v =>
    match v with
    | VStr s => s
    | VBool true => utf8 "True"
    | VBool false => utf8 "False"
    | VNone => utf8 "None"
    | VNum _ => utf8 "0.0"
    | VFloat _ => utf8 "0.0"
    | VVec _ => utf8 "[]"
    end;
  np_dot := sequential_dot;
  sort_nan_order := fun keys => seq 0 (length keys)
|}.

(* ================================================================== *)
(** * llm_service.py: the grounding validator *)
(* ================================================================== *)

Module LLMValidator.

(** The characters a URL body may hold: anything but white space, the
    two angle brackets and the double quote (code points 60, 62, 34). *)
Definition url_char (c : char) : bool :=
  negb (is_space c || (c =? 60) || (c =? 62) || (c =? 34))%N.

Definition strip_prefix (p s : str) : option str :=
  if startswith p s then Some (skipn (length p) s) else None.

(** [https?://]: the scheme matched at the head of [s], and the rest. *)
Definition url_scheme (s : str) : option (str * str) :=
  match strip_prefix (utf8 "https://") s with
  | Some r => Some (utf8 "https://", r)
  | None =>
    match strip_prefix (utf8 "http://") s with
    | Some r => Some (utf8 "http://", r)
    | None => None
    end
  end.

(** A match of the URL pattern (scheme, then one or more URL characters,
    as many as there are) anchored at the head of [s]: the matched text
    and what follows it. *)
Definition match_url (s : str) : option (str * str) :=
  match url_scheme s with
  | Some (scheme, r) =>
    match take_while url_char r with
    | [] => None
    | body => Some (scheme ++ body, drop_while url_char r)
    end
  | None => None
  end.

(** [re.findall] of the URL pattern: the matches from left to right,
    without overlap. *)
Fixpoint findall_from (skip : nat) (s : str) : list str :=
  match s with
  | [] => []
  | _ :: s' =>
    match skip with
    | S k => findall_from k s'
    | O =>
      match match_url s with
      | Some (u, _) => u :: findall_from (pred (length u)) s'
      | None => findall_from 0 s'
      end
    end
  end.

Definition findall_urls (s : str) : list str := findall_from 0 s.

(** [re.sub] of the URL pattern by a replacement text without escapes. *)
Fixpoint sub_from (skip : nat) (repl s : str) : str :=
  match s with
  | [] => []
  | c :: s' =>
    match skip with
    | S k => sub_from k repl s'
    | O =>
      match match_url s with
      | Some (u, _) => repl ++ sub_from (pred (length u)) repl s'
      | None => c :: sub_from 0 repl s'
      end
    end
  end.

Definition sub_urls (repl s : str) : str := sub_from 0 repl s.

Definition link_removed : str := utf8 "[Link removed - not in database]".
Definition link_not_available : str :=
  utf8 "[Link not available in database]".

(** The class [[.,;:!)]]. *)
Definition trailing_punct (c : char) : bool :=
  ((c =? 46) || (c =? 44) || (c =? 59) || (c =? 58) || (c =? 33)
   || (c =? 41))%N.

(** [re.sub(r'[.,;:!)]+$', '', u)]: [$] also matches just before a final
    newline. *)
Definition strip_trailing_punct (u : str) : str :=
  match rev u with
  | 10%N :: body => rev (drop_while trailing_punct body) ++ [10%N]
  | _ => rstrip_by trailing_punct u
  end.

Definition normalize_url `{PyRuntime} (u : str) : str :=
  py_lower (rstrip_char 47 (strip_trailing_punct u)).

(** The URLs of every string-valued field of every context item. *)
Definition context_urls (context : list Dict) : list str :=
  flat_map
    (fun item : Dict =>
       flat_map
         (fun kv : string * value =>
            match snd kv with
            | VStr s => findall_urls s
            | _ => []
            end)
         item)
    context.

Definition _validate_urls_against_context `{PyRuntime}
    (text : str) (context : list Dict) : str :=
  match context with
  | [] => sub_urls link_removed text
  | _ :: _ =>
    let valid_urls := context_urls context in
    let response_urls := findall_urls text in
    match response_urls with
    | [] => text
    | _ :: _ =>
      let normalized_valid_urls := map normalize_url valid_urls in
      fold_left
        (fun validated_text url =>
           if str_mem (normalize_url url) normalized_valid_urls
           then validated_text
           else replace url link_not_available validated_text)
        response_urls text
    end
  end.

(** [_extract_urls_from_context] (a set turned into a list). *)
Definition _extract_urls_from_context `{PyRuntime}
    (context : list Dict) : list str :=
  set_order (context_urls context).

End LLMValidator.

(* ================================================================== *)
(** * utils/language_detector.py *)
(* ================================================================== *)

Module LanguageDetector.

Inductive LanguageType : Type :=
| ARABIC_EGYPTIAN
| ARABIC_FUSHA
| ENGLISH
| MIXED
| UNKNOWN.

(** The [.value] of a member of the enumeration. *)
Definition language_value (l : LanguageType) : str :=
  match l with
  | ARABIC_EGYPTIAN => utf8 "ar_EG"
  | ARABIC_FUSHA => utf8 "ar"
  | ENGLISH => utf8 "en"
  | MIXED => utf8 "mixed"
  | UNKNOWN => utf8 "unknown"
  end.

(** [LanguageType(s)]; [None] stands for the [ValueError]. *)
Definition language_of_value (s : str) : option LanguageType :=
  if str_eqb s (utf8 "ar_EG") then Some ARABIC_EGYPTIAN
  else if str_eqb s (utf8 "ar") then Some ARABIC_FUSHA
  else if str_eqb s (utf8 "en") then Some ENGLISH
  else if str_eqb s (utf8 "mixed") then Some MIXED
  else if str_eqb s (utf8 "unknown") then Some UNKNOWN
  else None.

Definition language_eqb (a b : LanguageType) : bool :=
  match a, b with
  | ARABIC_EGYPTIAN, ARABIC_EGYPTIAN | ARABIC_FUSHA, ARABIC_FUSHA
  | ENGLISH, ENGLISH | MIXED, MIXED | UNKNOWN, UNKNOWN => true
  | _, _ => false
  end.

(** Each pattern is a group of alternatives between two word boundaries;
    the alternatives of the six patterns, in order. *)
Definition egyptian_patterns : list (list str) := [
    [utf8 "ازيك"; utf8 "إزيك"; utf8 "ازاى"; utf8 "إزاى"; utf8 "ايه"; utf8 "أيه"];
    [utf8 "عامل ايه"; utf8 "عاملين ايه"; utf8 "عامل ايه ياسطا"];
    [utf8 "تمام"; utf8 "ماشي"; utf8 "خلاص"; utf8 "بقا"; utf8 "يا عم"; utf8 "يا باشا"];
    [utf8 "معلش"; utf8 "يا ريت"; utf8 "يعني"; utf8 "اصل"; utf8 "برضه"; utf8 "علشان"];
    [utf8 "بص"; utf8 "اسمع"; utf8 "قول"; utf8 "روح"; utf8 "خش"; utf8 "جرب"; utf8 "شوف"];
    [utf8 "فين"; utf8 "امتى"; utf8 "ليه"; utf8 "ازاي"; utf8 "كام"; utf8 "قد ايه"]
  ].

Definition egyptian_education_terms : list str := [
    utf8 "كليه"; utf8 "جامعه"; utf8 "دكتور"; utf8 "مدرسه"; utf8 "معهد";
    utf8 "توجيهي"; utf8 "ثانويه"; utf8 "ابتدائي"; utf8 "اعدادي";
    utf8 "محاضره"; utf8 "امتحان"; utf8 "منهج"; utf8 "ماده"; utf8 "سكاشن"
  ].

Definition is_word_opt `{PyRuntime} (c : option char) : bool :=
  match c with
  | Some x => py_isword x
  | None => false
  end.

(** The regex assertion [\b] between two neighbouring positions ([None]
    is an end of the string). *)
Definition word_boundary `{PyRuntime} (prev next : option char) : bool :=
  xorb (is_word_opt prev) (is_word_opt next).

(** One alternative matched at the head of [s], with the closing [\b]. *)
Definition alternative_here `{PyRuntime} (alt s : str) : bool :=
  startswith alt s
  && word_boundary (last (map Some alt) None) (nth_error s (length alt)).

(** [pattern.search(s)] for a pattern [\b(alt|...|alt)\b]; [prev] is the
    character before the current position.  The letters of the patterns
    have no case, so [re.IGNORECASE] changes nothing. *)
Fixpoint pattern_search_from `{PyRuntime}
    (alts : list str) (prev : option char) (s : str) : bool :=
  (word_boundary prev (hd_error s) && existsb (fun alt => alternative_here alt s) alts)
  || match s with
     | [] => false
     | c :: s' => pattern_search_from alts (Some c) s'
     end.

Definition pattern_search `{PyRuntime} (alts : list str) (s : str) : bool :=
  pattern_search_from alts None s.

Definition Qnat (n : nat) : Q := inject_Z (Z.of_nat n).

(** [a > b] on confidences. *)
Definition Qgtb (a b : Q) : bool := negb (Qle_bool a b).

Definition _calculate_egyptian_score `{PyRuntime} (text : str) : Q :=
  match text with
  | [] => 0%Q
  | _ :: _ =>
    let pattern_matches :=
      length (filter (fun alts => pattern_search alts text) egyptian_patterns) in
    let pattern_score :=
      match egyptian_patterns with
      | [] => 0%Q
      | _ :: _ => (Qnat pattern_matches / Qnat (length egyptian_patterns))%Q
      end in
    let words := split_ws text in
    let egyptian_education_words :=
      length (filter (fun word => str_mem word egyptian_education_terms) words) in
    let education_score :=
      (Qnat egyptian_education_words / Qnat (Nat.max (length words) 1))%Q in
    (pattern_score * (7 # 10) + education_score * (3 # 10))%Q
  end.

(** The five Arabic blocks of the character count. *)
Definition is_arabic_char (c : char) : bool :=
  ((1536 <=? c) && (c <=? 1791) || (1872 <=? c) && (c <=? 1919)
   || (2208 <=? c) && (c <=? 2303) || (64336 <=? c) && (c <=? 65023)
   || (65136 <=? c) && (c <=? 65279))%N.

Definition is_english_char (c : char) : bool :=
  ((97 <=? c) && (c <=? 122) || (65 <=? c) && (c <=? 90))%N.

(** The class of characters that are neither [\w] nor [\s]. *)
Definition is_other_char `{PyRuntime} (c : char) : bool :=
  negb (py_isword c || is_space c).

Definition count_chars (p : char -> bool) (s : str) : nat :=
  length (filter p s).

Definition short_english_words : list str :=
  [utf8 "hi"; utf8 "ok"; utf8 "yes"; utf8 "no"; utf8 "hey"; utf8 "hello"].

Definition detect_with_confidence `{PyRuntime} (text : str)
    : LanguageType * Q :=
  match text with
  | [] => (UNKNOWN, 0%Q)
  | _ :: _ =>
    let text_lower := strip (py_lower text) in
    if str_mem text_lower short_english_words then (ENGLISH, 1%Q)
    else
      let egyptian_score := _calculate_egyptian_score text_lower in
      if Qgtb egyptian_score (6 # 10) then (ARABIC_EGYPTIAN, egyptian_score)
      else
        let arabic_chars := count_chars is_arabic_char text in
        let english_chars := count_chars is_english_char text in
        let other_chars := count_chars is_other_char text in
        let total_chars :=
          Nat.max (arabic_chars + english_chars + other_chars) 1 in
        let arabic_ratio := (Qnat arabic_chars / Qnat total_chars)%Q in
        let english_ratio := (Qnat english_chars / Qnat total_chars)%Q in
        if Qgtb arabic_ratio (1 # 2) then
          if Qgtb egyptian_score (3 # 10)
          then (ARABIC_EGYPTIAN, ((arabic_ratio + egyptian_score) / 2)%Q)
          else (ARABIC_FUSHA, arabic_ratio)
        else if Qgtb english_ratio (1 # 2) then (ENGLISH, english_ratio)
        else if Qgtb arabic_ratio (2 # 10) && Qgtb english_ratio (2 # 10)
        then (MIXED, ((arabic_ratio + english_ratio) / 2)%Q)
        else if (arabic_chars <? english_chars)%nat then (ENGLISH, (4 # 10)%Q)
        else if (english_chars <? arabic_chars)%nat
        then (ARABIC_EGYPTIAN, (4 # 10)%Q)
        else (UNKNOWN, (5 # 10)%Q)
  end.

End LanguageDetector.

(* ================================================================== *)
(** * services/embedding_service.py *)
(* ================================================================== *)

Module EmbeddingService.

Definition vec := list float.

(** [np.linalg.norm] of a float64 vector: [sqrt(x.dot(x))]. *)
Definition norm `{PyRuntime} (a : vec) : float := PrimFloat.sqrt (np_dot a a).

(** In binary64, as numpy computes it.  [None]: [np.dot] raises on
    vectors of different lengths. *)
Definition _calculate_cosine_similarity `{PyRuntime} (vec1 vec2 : vec)
    : option float :=
  let norm1 := norm vec1 in
  let norm2 := norm vec2 in
  if (norm1 =? 0)%float || (norm2 =? 0)%float then Some 0%float
  else if (length vec1 =? length vec2)%nat
       then Some (np_dot vec1 vec2 / (norm1 * norm2))%float
       else None.

(** The embedding collaborator: whether the local model was loaded, and
    [self._model.encode(text).tolist()] ([None] when it raises). *)
Record EmbeddingModel : Type := {
  _available : bool;
  encode : str -> option vec
}.

Definition embedding_dim : nat := 384.

Definition is_available (m : EmbeddingModel) : bool := _available m.

Definition generate_embedding (m : EmbeddingModel) (text : str)
    : option vec :=
  match text, strip text with
  | [], _ | _, [] => None
  | _ :: _, stripped =>
    if negb (_available m) then None
    else
      match encode m stripped with
      | None => None
      | Some embedding =>
        if negb (length embedding =? embedding_dim)%nat then None
        else Some embedding
      end
  end.

(** Truth value of a Python object. *)
Definition truthy (v : value) : bool :=
  match v with
  | VStr [] => false
  | VStr (_ :: _) => true
  | VNum x => if Req_dec_T x 0 then false else true
  | VFloat x => negb (x =? 0)%float
  | VVec [] => false
  | VVec (_ :: _) => true
  | VBool b => b
  | VNone => false
  end.

(** [{**item, 'similarity': score, 'similarity_score': score}] *)
Definition with_similarity (item : Dict) (score : R) : Dict :=
  dict_set "similarity_score" (VNum score)
    (dict_set "similarity" (VNum score) item).

(** The same record around a cosine. *)
Definition with_cosine (item : Dict) (score : float) : Dict :=
  dict_set "similarity_score" (VFloat score)
    (dict_set "similarity" (VFloat score) item).

(** [x[k]] read as a number. *)
Definition number_of (k : string) (d : Dict) : R :=
  match dict_get k d with
  | Some (VNum x) => x
  | _ => 0%R
  end.

(** [x[k]] read as a binary64 float. *)
Definition float_of (k : string) (d : Dict) : float :=
  match dict_get k d with
  | Some (VFloat x) => x
  | _ => 0%float
  end.

(** [l.sort(key=key, reverse=True)]: descending, and stable (members
    with equal keys keep the order they had). *)
Fixpoint insert_desc (key : Dict -> R) (x : Dict) (l : list Dict)
    : list Dict :=
  match l with
  | [] => [x]
  | y :: l' =>
    if Rlt_dec (key x) (key y) then y :: insert_desc key x l'
    else x :: y :: l'
  end.

Definition sort_desc (key : Dict -> R) (l : list Dict) : list Dict :=
  fold_right (insert_desc key) [] l.

(** The same sort on float keys.  When no key is NaN, [<] orders the
    keys and the result is the stable descending sort; when a key is NaN
    the members come in the positions the sort of the runtime leaves
    them at. *)
Fixpoint insert_desc_float (key : Dict -> float) (x : Dict) (l : list Dict)
    : list Dict :=
  match l with
  | [] => [x]
  | y :: l' =>
    if (key x <? key y)%float then y :: insert_desc_float key x l'
    else x :: y :: l'
  end.

Definition reorder (l : list Dict) (order : list nat) : list Dict :=
  flat_map
    (fun i => match nth_error l i with Some d => [d] | None => [] end)
    order.

Definition sort_desc_float `{PyRuntime} (key : Dict -> float)
    (l : list Dict) : list Dict :=
  if existsb (fun d => is_nan (key d)) l
  then reorder l (sort_nan_order (map key l))
  else fold_right (insert_desc_float key) [] l.

(** The scoring loop of the vector search; [None] if a comparison
    raised. *)
Fixpoint score_roadmaps `{PyRuntime} (query_vec : vec) (roadmaps : list Dict)
    : option (list Dict) :=
  match roadmaps with
  | [] => Some []
  | roadmap :: rest =>
    match dict_get "embedding" roadmap with
    | Some (VVec (x :: v)) =>
      let doc_vec := x :: v in
      if negb (length query_vec =? length doc_vec)%nat
      then score_roadmaps query_vec rest
      else
        match _calculate_cosine_similarity query_vec doc_vec with
        | None => None
        | Some score =>
          match score_roadmaps query_vec rest with
          | None => None
          | Some scored => Some (with_cosine roadmap score :: scored)
          end
        end
    | _ =>
      (* no embedding, an empty one, or a value that is not a vector
         (falsy, or of shape [()]): skipped *)
      score_roadmaps query_vec rest
    end
  end.

Definition text_fields : list string :=
  ["title"; "description"; "category"; "question_ar"; "question_en";
   "answer_ar"; "answer_en"]%string.

(** [item.get(k, '')] *)
Definition item_get (k : string) (item : Dict) : value :=
  match dict_get k item with
  | Some v => v
  | None => VStr []
  end.

(** [item.get(k)] *)
Definition dict_get_or_none (k : string) (item : Dict) : value :=
  match dict_get k item with
  | Some v => v
  | None => VNone
  end.

Definition str_of_value `{PyRuntime} (v : value) : str :=
  match v with
  | VStr s => s
  | _ => py_str v
  end.

Definition str_eq_dec : forall a b : str, {a = b} + {a <> b} :=
  list_eq_dec N.eq_dec.

Definition keyword_score `{PyRuntime} (query_parts : list str) (item : Dict)
    : R :=
  let text_parts := map (fun k => item_get k item) text_fields in
  let item_text :=
    py_lower (join (utf8 " ") (map str_of_value (filter truthy text_parts))) in
  let item_words := split_ws item_text in
  match item_words, query_parts with
  | [], _ | _, [] => 0%R
  | _ :: _, _ :: _ =>
    (INR (length (filter (fun w => str_mem w item_words) query_parts))
     / INR (length query_parts))%R
  end.

(** [query_parts] is a set: the distinct words of the query. *)
Definition _keyword_search_fallback `{PyRuntime}
    (query_text : str) (items : list Dict) (limit : nat) : list Dict :=
  let query_parts := nodup str_eq_dec (split_ws (py_lower query_text)) in
  let scored_items :=
    flat_map
      (fun item =>
         let score := keyword_score query_parts item in
         if Rlt_dec 0 score then [with_similarity item score] else [])
      items in
  firstn limit (sort_desc (number_of "similarity") scored_items).

(** What the [try] block of [search_similar_roadmaps] did before the
    fallback. *)
Inductive vector_outcome : Type :=
| Raised
| NoResult
| Found (results : list Dict).

Definition client_vector_search `{PyRuntime} (m : EmbeddingModel)
    (query_text : str) (roadmaps : list Dict) (limit : nat)
    : vector_outcome :=
  if _available m then
    match generate_embedding m query_text with
    | Some (q :: qs) =>
      let query_vec := q :: qs in
      match score_roadmaps query_vec roadmaps with
      | None => Raised
      | Some [] => NoResult
      | Some (r :: rs) =>
        Found (firstn limit
                 (sort_desc_float (float_of "similarity") (r :: rs)))
      end
    | _ => NoResult
    end
  else NoResult.

Definition search_similar_roadmaps `{PyRuntime} (m : EmbeddingModel)
    (query_text : str) (roadmaps : list Dict) (limit : nat)
    (allow_fallback : bool) : list Dict :=
  match roadmaps with
  | [] => []
  | _ :: _ =>
    match client_vector_search m query_text roadmaps limit with
    | Found results => results
    | NoResult | Raised =>
      if allow_fallback
      then _keyword_search_fallback query_text roadmaps limit
      else []
    end
  end.

End EmbeddingService.

(* ================================================================== *)
(** * The document store *)
(* ================================================================== *)

(** The reads the search services issue; [None] when the call raises. *)
Record Store : Type := {
  (** [table("roadmaps").select("*")] *)
  roadmaps_all : option (list Dict);
  (** [table("faq").select("*").eq("is_active", True)] *)
  faqs_active : option (list Dict);
  (** [rpc('match_roadmaps', ...)]: embedding, count, threshold *)
  match_roadmaps : list float -> nat -> R -> option (list Dict);
  (** [rpc('match_faqs', ...)] *)
  match_faqs : list float -> nat -> R -> option (list Dict)
}.

(* ================================================================== *)
(** * services/roadmap_service.py *)
(* ================================================================== *)

Module RoadmapService.
Import EmbeddingService.

Definition SYNONYMS : list (str * list str) := [
    (utf8 "ذكاء",
     [utf8 "ai"; utf8 "artificial intelligence"; utf8 "machine learning"; utf8 "data scientist"; utf8 "mlops"]);
    (utf8 "اصطناعي",
     [utf8 "ai"; utf8 "artificial intelligence"; utf8 "machine learning"; utf8 "data scientist"]);
    (utf8 "ذكاء اصطناعي",
     [utf8 "ai"; utf8 "artificial intelligence"; utf8 "machine learning"; utf8 "data scientist"; utf8 "mlops"]);
    (utf8 "ai",
     [utf8 "artificial intelligence"; utf8 "machine learning"; utf8 "data scientist"; utf8 "mlops"; utf8 "data science"]);
    (utf8 "artificial intelligence",
     [utf8 "ai"; utf8 "machine learning"; utf8 "data scientist"; utf8 "mlops"]);
    (utf8 "machine learning",
     [utf8 "ai"; utf8 "data scientist"; utf8 "mlops"; utf8 "ml"]);
    (utf8 "ml",
     [utf8 "machine learning"; utf8 "ai"; utf8 "mlops"; utf8 "data scientist"]);
    (utf8 "data science",
     [utf8 "ai"; utf8 "data scientist"; utf8 "machine learning"]);
    (utf8 "بيانات",
     [utf8 "data"; utf8 "data scientist"; utf8 "ai"]);
    (utf8 "ويب",
     [utf8 "web"; utf8 "frontend"; utf8 "backend"; utf8 "full stack"]);
    (utf8 "web",
     [utf8 "frontend"; utf8 "backend"; utf8 "full stack"]);
    (utf8 "فرونت",
     [utf8 "frontend"; utf8 "react"; utf8 "javascript"]);
    (utf8 "فرونت اند",
     [utf8 "frontend"; utf8 "react"; utf8 "javascript"; utf8 "web"]);
    (utf8 "فرونت إند",
     [utf8 "frontend"; utf8 "react"; utf8 "javascript"; utf8 "web"]);
    (utf8 "الفرونت",
     [utf8 "frontend"; utf8 "react"; utf8 "javascript"]);
    (utf8 "frontend",
     [utf8 "react"; utf8 "javascript"; utf8 "web"]);
    (utf8 "باك",
     [utf8 "backend"; utf8 "node"; utf8 "python"; utf8 "java"]);
    (utf8 "باك اند",
     [utf8 "backend"; utf8 "node"; utf8 "python"; utf8 "java"; utf8 "web"]);
    (utf8 "باك إند",
     [utf8 "backend"; utf8 "node"; utf8 "python"; utf8 "java"; utf8 "web"]);
    (utf8 "الباك",
     [utf8 "backend"; utf8 "node"; utf8 "python"; utf8 "java"]);
    (utf8 "backend",
     [utf8 "node"; utf8 "python"; utf8 "java"; utf8 "web"]);
    (utf8 "full stack",
     [utf8 "frontend"; utf8 "backend"; utf8 "web"]);
    (utf8 "فول ستاك",
     [utf8 "full stack"; utf8 "frontend"; utf8 "backend"]);
    (utf8 "موبايل",
     [utf8 "mobile"; utf8 "android"; utf8 "flutter"; utf8 "react native"]);
    (utf8 "mobile",
     [utf8 "android"; utf8 "flutter"; utf8 "react native"]);
    (utf8 "اندرويد",
     [utf8 "android"; utf8 "mobile"]);
    (utf8 "android",
     [utf8 "mobile"]);
    (utf8 "flutter",
     [utf8 "mobile"]);
    (utf8 "ديف اوبس",
     [utf8 "devops"; utf8 "docker"; utf8 "kubernetes"]);
    (utf8 "devops",
     [utf8 "docker"; utf8 "kubernetes"]);
    (utf8 "docker",
     [utf8 "devops"; utf8 "kubernetes"]);
    (utf8 "kubernetes",
     [utf8 "devops"; utf8 "docker"]);
    (utf8 "امن",
     [utf8 "security"; utf8 "cyber security"; utf8 "cyber"]);
    (utf8 "امان",
     [utf8 "security"; utf8 "cyber security"]);
    (utf8 "security",
     [utf8 "cyber security"; utf8 "cyber"]);
    (utf8 "cyber",
     [utf8 "security"; utf8 "cyber security"]);
    (utf8 "قواعد بيانات",
     [utf8 "database"; utf8 "sql"; utf8 "mongodb"; utf8 "postgresql"]);
    (utf8 "database",
     [utf8 "sql"; utf8 "mongodb"; utf8 "postgresql"]);
    (utf8 "sql",
     [utf8 "database"; utf8 "postgresql"]);
    (utf8 "mongodb",
     [utf8 "database"]);
    (utf8 "postgresql",
     [utf8 "database"; utf8 "sql"]);
    (utf8 "تصميم",
     [utf8 "design"; utf8 "ux"]);
    (utf8 "design",
     [utf8 "ux"]);
    (utf8 "ux",
     [utf8 "design"]);
    (utf8 "بلوكتشين",
     [utf8 "blockchain"]);
    (utf8 "blockchain",
     [utf8 "web3"]);
    (utf8 "web3",
     [utf8 "blockchain"]);
    (utf8 "python",
     [utf8 "backend"; utf8 "ai"; utf8 "data scientist"]);
    (utf8 "java",
     [utf8 "backend"]);
    (utf8 "javascript",
     [utf8 "frontend"; utf8 "backend"; utf8 "node"]);
    (utf8 "react",
     [utf8 "frontend"]);
    (utf8 "node",
     [utf8 "backend"]);
    (utf8 "go",
     [utf8 "backend"]);
    (utf8 "golang",
     [utf8 "go"; utf8 "backend"])
  ].

Definition _calculate_similarity `{PyRuntime} (str1 str2 : str) : R :=
  seq_ratio (py_lower str1) (py_lower str2).

(** What one entry of the table adds to the expansion. *)
Definition expand_entry (query_lower : str) (entry : str * list str)
    : list str :=
  let (key, synonyms) := entry in
  (if contains key query_lower then synonyms else [])
  ++ flat_map
       (fun synonym =>
          if contains synonym query_lower then key :: synonyms else [])
       synonyms.

(** The list built before duplicates are removed. *)
Definition expanded_list `{PyRuntime} (query : str) : list str :=
  let query_lower := py_lower query in
  query_lower :: flat_map (expand_entry query_lower) SYNONYMS.

Definition _expand_query `{PyRuntime} (query : str) : list str :=
  set_order (expanded_list query).

Definition ampersand : str := utf8 "&".
Definition hyphen : str := utf8 "-".
Definition slash : str := utf8 "/".
Definition space : str := utf8 " ".

(** [.replace('&', 'and').replace('-', ' ')] *)
Definition clean_and_hyphen (s : str) : str :=
  replace hyphen space (replace ampersand (utf8 "and") s).

(** [.replace('/', ' ').replace('-', ' ')] *)
Definition clean_slash_hyphen (s : str) : str :=
  replace hyphen space (replace slash space s).

(** The three cleaned fields of a roadmap; [None] when reading one
    raises ([KeyError] on a missing title, [AttributeError] on a value
    without [.lower]). *)
Definition cleaned_fields `{PyRuntime} (roadmap : Dict)
    : option (str * str * str) :=
  match dict_get "title" roadmap with
  | Some (VStr title) =>
    match item_get "description" roadmap, item_get "category" roadmap with
    | VStr description, VStr category =>
      Some (clean_and_hyphen (py_lower title),
            clean_and_hyphen (py_lower description),
            clean_slash_hyphen (py_lower category))
    | _, _ => None
    end
  | _ => None
  end.

(** The loop over the query variants, with its [break] on a direct
    match. *)
Fixpoint max_score_loop `{PyRuntime} (title_clean desc_clean cat_clean : str)
    (searchable_text : str) (max_score : R) (expanded_queries : list str)
    : R :=
  match expanded_queries with
  | [] => max_score
  | exp_query :: rest =>
    let exp_query_clean := clean_and_hyphen exp_query in
    if contains exp_query_clean searchable_text
    then Rmax max_score 1
    else
      let title_score := _calculate_similarity exp_query_clean title_clean in
      let desc_score := _calculate_similarity exp_query_clean desc_clean in
      let cat_score := _calculate_similarity exp_query_clean cat_clean in
      max_score_loop title_clean desc_clean cat_clean searchable_text
        (Rmax (Rmax (Rmax max_score title_score) desc_score) cat_score)
        rest
  end.

Definition roadmap_score `{PyRuntime} (expanded_queries : list str)
    (fields : str * str * str) : R :=
  let '(title_clean, desc_clean, cat_clean) := fields in
  let searchable_text :=
    title_clean ++ space ++ desc_clean ++ space ++ cat_clean in
  max_score_loop title_clean desc_clean cat_clean searchable_text 0
    expanded_queries.

(** [{**roadmap, 'similarity_score': s, 'similarity': s}] *)
Definition with_score (roadmap : Dict) (score : R) : Dict :=
  dict_set "similarity" (VNum score)
    (dict_set "similarity_score" (VNum score) roadmap).

Fixpoint score_all `{PyRuntime} (expanded_queries : list str)
    (all_roadmaps : list Dict) : option (list Dict) :=
  match all_roadmaps with
  | [] => Some []
  | roadmap :: rest =>
    match cleaned_fields roadmap with
    | None => None
    | Some fields =>
      let max_score := roadmap_score expanded_queries fields in
      match score_all expanded_queries rest with
      | None => None
      | Some scored =>
        if Rlt_dec (15 / 100) max_score
        then Some (with_score roadmap max_score :: scored)
        else Some scored
      end
    end
  end.

(** The text-matching block of [_fuzzy_search] (synonym expansion, direct
    and partial matches, threshold, sort, cut); [None] when it raises. *)
Definition text_matching `{PyRuntime} (query : str)
    (all_roadmaps : list Dict) (limit : nat) : option (list Dict) :=
  let expanded_queries := _expand_query query in
  match score_all expanded_queries all_roadmaps with
  | None => None
  | Some scored_roadmaps =>
    Some (firstn limit
            (sort_desc (number_of "similarity_score") scored_roadmaps))
  end.

Definition _vector_search (m : EmbeddingModel) (db : Store)
    (query : str) (limit : nat) : list Dict :=
  if negb (is_available m) then []
  else
    match generate_embedding m query with
    | Some (q :: qs) =>
      match match_roadmaps db (q :: qs) limit (5 / 10)%R with
      | Some data => data
      | None => []
      end
    | _ => []
    end.

Definition _fuzzy_search `{PyRuntime} (m : EmbeddingModel) (db : Store)
    (query : str) (limit : nat) : list Dict :=
  match roadmaps_all db with
  | None => []
  | Some [] => []
  | Some all_roadmaps =>
    let client_side :=
      if existsb (fun r => truthy (dict_get_or_none "embedding" r))
           all_roadmaps
         && is_available m
      then search_similar_roadmaps m query all_roadmaps limit false
      else [] in
    match client_side with
    | _ :: _ => client_side
    | [] =>
      match text_matching query all_roadmaps limit with
      | Some results => results
      | None => []
      end
    end
  end.

(** [top.get('similarity', 0) > 0.6].  A value that cannot be compared
    with a float raises, and the handler of [search_roadmaps] then runs
    the same fuzzy search as the unconfident case. *)
Definition top_is_confident (top : Dict) : bool :=
  match dict_get "similarity" top with
  | Some (VNum x) => if Rlt_dec (6 / 10) x then true else false
  | Some (VFloat x) => (0.6 <? x)%float
  | Some (VBool b) => b
  | _ => false
  end.

Definition search_roadmaps `{PyRuntime} (m : EmbeddingModel) (db : Store)
    (query : str) (limit : nat) (use_embeddings : bool) : list Dict :=
  let vector_results :=
    if use_embeddings then _vector_search m db query limit else [] in
  match vector_results with
  | top :: _ =>
    if top_is_confident top then vector_results
    else _fuzzy_search m db query limit
  | [] => _fuzzy_search m db query limit
  end.

End RoadmapService.

(* ================================================================== *)
(** * services/rag_service.py *)
(* ================================================================== *)

Module RAGService.
Import EmbeddingService.

(** The [language] argument is not used by the search. *)
Definition search_faqs `{PyRuntime} (m : EmbeddingModel) (db : Store)
    (query : str) (language : str) : list Dict :=
  let rpc_results :=
    match generate_embedding m query with
    | Some (q :: qs) =>
      match match_faqs db (q :: qs) 5 (5 / 10)%R with
      | Some (r :: rs) => Some (r :: rs)
      | _ => None
      end
    | _ => None
    end in
  match rpc_results with
  | Some data => data
  | None =>
    match faqs_active db with
    | None => []
    | Some [] => []
    | Some all_faqs => search_similar_roadmaps m query all_faqs 5 true
    end
  end.

End RAGService.

(* ================================================================== *)
(** * Tier 3 as the specification words it (sections 4.2 and 4.3) *)
(* ================================================================== *)

(** Written from the text of the specification, not from the code.  Where
    the text is silent the reading is the plain one: texts are compared
    in lower case (4.2 lowers the query), the fields of a candidate are
    joined by single blanks, and a scored document is the candidate with
    its score under [similarity] and its alias [similarity_score]. *)
Module TierThreeSpec.
Import EmbeddingService RoadmapService.

(** The corpus-specific field mapping: which fields play the parts of
    title, description and category. *)
Record field_mapping : Type := {
  title_field : string;
  description_field : string;
  category_field : string
}.

Definition roadmap_fields : field_mapping :=
  {| title_field := "title"; description_field := "description";
     category_field := "category" |}.

(** The question and the answer in the language of the request. *)
Definition faq_fields (language : str) : field_mapping :=
  if str_eqb language (utf8 "en")
  then {| title_field := "question_en"; description_field := "answer_en";
          category_field := "category" |}
  else {| title_field := "question_ar"; description_field := "answer_ar";
          category_field := "category" |}.

Definition field_text (k : string) (d : Dict) : str :=
  match dict_get k d with
  | Some (VStr s) => s
  | _ => []
  end.

(** 4.2: the lowered query; for every key found in it, the synonyms of
    the key; for every synonym found in it, its key and all the synonyms
    of that key.  The variants are a set: the list may repeat them. *)
Definition variants `{PyRuntime} (query : str) : list str :=
  let q := py_lower query in
  q :: flat_map
         (fun entry : str * list str =>
            let (key, synonyms) := entry in
            (if contains key q then synonyms else [])
            ++ (if existsb (fun synonym => contains synonym q) synonyms
                then key :: synonyms else []))
         SYNONYMS.

(** 4.3: ampersands to [and], hyphens and slashes to blanks. *)
Definition normalize_punctuation (s : str) : str :=
  replace (utf8 "/") (utf8 " ")
    (replace (utf8 "-") (utf8 " ") (replace (utf8 "&") (utf8 "and") s)).

(** The three text fields of a candidate, normalized. *)
Definition spec_fields `{PyRuntime} (fm : field_mapping) (d : Dict)
    : str * str * str :=
  (normalize_punctuation (py_lower (field_text (title_field fm) d)),
   normalize_punctuation (py_lower (field_text (description_field fm) d)),
   normalize_punctuation (py_lower (field_text (category_field fm) d))).

Definition searchable_text (fields : str * str * str) : str :=
  let '(title, description, category) := fields in
  title ++ utf8 " " ++ description ++ utf8 " " ++ category.

(** The character-level sequence-similarity ratio. *)
Definition similarity_ratio `{PyRuntime} (a b : str) : R :=
  seq_ratio (py_lower a) (py_lower b).

(** The best ratio of one variant over the three fields. *)
Definition variant_ratio `{PyRuntime} (fields : str * str * str) (v : str)
    : R :=
  let '(title, description, category) := fields in
  Rmax (Rmax (similarity_ratio v title) (similarity_ratio v description))
       (similarity_ratio v category).

(** A variant that is a substring of the searchable text is a perfect
    match; otherwise the score is the maximum over all variants and
    fields. *)
Definition score `{PyRuntime} (fields : str * str * str)
    (vs : list str) : R :=
  if existsb
       (fun v => contains (normalize_punctuation v) (searchable_text fields))
       vs
  then 1%R
  else fold_left
         (fun best v =>
            Rmax best (variant_ratio fields (normalize_punctuation v)))
         vs 0%R.

(** The synonym-expanded fuzzy match: score every candidate, discard the
    scores at or below 0.15, sort descending, truncate to [limit]. *)
Definition tier3 `{PyRuntime} (fm : field_mapping) (query : str)
    (corpus : list Dict) (limit : nat) : list Dict :=
  let vs := variants query in
  let scored :=
    flat_map
      (fun d =>
         let s := score (spec_fields fm d) vs in
         if Rlt_dec (15 / 100) s then [with_score d s] else [])
      corpus in
  firstn limit (sort_desc (number_of "similarity") scored).

End TierThreeSpec.

(* ================================================================== *)
(** * services/llm_service.py: generation *)
(* ================================================================== *)

Module LLMService.
Import LanguageDetector LLMValidator.

(** How a call to the completion collaborator can fail. *)
Inductive api_error : Type :=
| RateLimitError
| APIConnectionError
| APITimeoutError
| OtherError.

(** The completion collaborator, [client.chat.completions.create]: what
    the call made after [n] earlier calls answers ([inl]: it raises, or
    its answer holds no usable text, which raises right after).  The
    request sent (system prompt, last two turns, context, notice on
    the available URLs) is built without raising and is left out. *)
Definition Completion : Type := nat -> api_error + str.

Record LLMReply : Type := {
  text : str;
  confidence : Q
}.

(** The five blocks removed character by character (CJK ideographs,
    Hiragana, Katakana, Hangul syllables, Cyrillic). *)
Definition forbidden_char (c : char) : bool :=
  ((19968 <=? c) && (c <=? 40959) || (12352 <=? c) && (c <=? 12447)
   || (12448 <=? c) && (c <=? 12543) || (44032 <=? c) && (c <=? 55215)
   || (1024 <=? c) && (c <=? 1279))%N.

Definition forbidden_words : list str := [
    utf8 "然而"; utf8 "实际"; utf8 "时间"; utf8 "讨论"; utf8 "的"; utf8 "了";
    utf8 "실제"; utf8 "시간";
    utf8 "の"; utf8 "は";
    utf8 "или"; utf8 "и"
  ].

Definition replacements : list (str * str) := [
    (utf8 "coverage", []);
    (utf8 "however", utf8 "لكن");
    (utf8 "moreover", [])
  ].

(** [re.sub(r'\s+', ' ', s)] *)
Fixpoint collapse_ws (in_run : bool) (s : str) : str :=
  match s with
  | [] => []
  | c :: s' =>
    if is_space c
    then if in_run then collapse_ws true s' else 32%N :: collapse_ws true s'
    else c :: collapse_ws false s'
  end.

(** The last substitution of the source needs three newlines in the
    text; none is left once white space has been collapsed to single
    blanks, so it changes nothing. *)
Definition _clean_foreign_characters (text : str) : str :=
  let cleaned := filter (fun c => negb (forbidden_char c)) text in
  let cleaned :=
    fold_left (fun acc word => replace word [] acc) forbidden_words cleaned in
  let cleaned :=
    fold_left (fun acc p => replace (fst p) (snd p) acc) replacements cleaned in
  strip (collapse_ws false cleaned).

Definition error_messages (user_language : LanguageType) : str :=
  match user_language with
  | ARABIC_FUSHA => utf8 "عذراً، حدث خطأ."
  | ENGLISH => utf8 "Sorry, an error occurred."
  | _ => utf8 "معلش، فيه مشكلة. حاول تاني."
  end.

(** The body of [generate_response]: one call to the collaborator inside
    a [try] whose handler catches every exception and returns the error
    reply.  [calls] counts the calls to the collaborator. *)
Definition generate_response_body `{PyRuntime} (complete : Completion)
    (context : list Dict) (user_language : LanguageType) (calls : nat)
    : (api_error + LLMReply) * nat :=
  match complete calls with
  | inr raw_text =>
    let cleaned_text := _clean_foreign_characters raw_text in
    let validated_text :=
      _validate_urls_against_context cleaned_text context in
    (inr {| text := validated_text; confidence := 9 # 10 |}, S calls)
  | inl _ =>
    (inr {| text := error_messages user_language; confidence := 3 # 10 |},
     S calls)
  end.

(** [retry_if_exception_type((RateLimitError, APIConnectionError,
    APITimeoutError))] *)
Definition is_transient (e : api_error) : bool :=
  match e with
  | OtherError => false
  | _ => true
  end.

(** The [tenacity] decorator with [stop_after_attempt(n)]: the wrapped
    function is called again while it raises a listed exception and
    attempts are left; the exponential wait between two attempts only
    takes time. *)
Fixpoint retrying {A : Type} (attempts_left : nat)
    (fn : nat -> (api_error + A) * nat) (calls : nat)
    : (api_error + A) * nat :=
  match attempts_left with
  | O => (inl OtherError, calls)
  | S k =>
    let (result, calls') := fn calls in
    match result with
    | inr v => (inr v, calls')
    | inl e =>
      if is_transient e
      then match k with
           | O => (inl e, calls')
           | S _ => retrying k fn calls'
           end
      else (inl e, calls')
    end
  end.

Definition generate_response `{PyRuntime} (complete : Completion)
    (context : list Dict) (user_language : LanguageType) (calls : nat)
    : (api_error + LLMReply) * nat :=
  retrying 3 (generate_response_body complete context user_language) calls.

(** A row of the history: the columns [role] and [content]. *)
Record HistoryRow : Type := {
  role : str;
  content : str
}.

Definition double_quote : str := [34%N].
Definition single_quote : str := [39%N].

Definition contextualize_query (complete : Completion) (message : str)
    (history : list HistoryRow) (calls : nat) : str * nat :=
  match history with
  | [] => (message, calls)
  | _ :: _ =>
    match complete calls with
    | inr answer =>
      (replace single_quote [] (replace double_quote [] (strip answer)),
       S calls)
    | inl _ => (message, S calls)
    end
  end.

End LLMService.

(* ================================================================== *)
(** * services/chat_service.py: the orchestrator *)
(* ================================================================== *)

Module ChatService.
Import LanguageDetector EmbeddingService LLMService.

(** A row of the table [conversations] (the time stamp is left out; the
    list of rows is kept in the order of insertion). *)
Record Turn : Type := {
  turn_session : str;
  turn_role : str;
  turn_content : str;
  turn_language : str
}.

(** What a request can change: the stored turns, and the number of calls
    made to the completion collaborator. *)
Record World : Type := {
  conversations : list Turn;
  llm_calls : nat
}.

Record Collaborators : Type := {
  model : EmbeddingModel;
  db : Store;
  complete : Completion;
  (** the read of the history succeeds *)
  select_ok : bool;
  (** the insertion of this row succeeds *)
  insert_ok : Turn -> bool;
  (** [str(uuid.uuid4())] *)
  new_session_id : str
}.

Record ChatResponse : Type := {
  response : str;
  session_id : str;
  user_language : str;
  detected_language : option str;
  language_confidence : option Q;
  response_language : str;
  is_egyptian : bool;
  chat_confidence : Q
}.

Definition _determine_response_language (detected : LanguageType)
    (preferred : str) : LanguageType :=
  let by_detection :=
    match detected with
    | ARABIC_EGYPTIAN | ARABIC_FUSHA | ENGLISH => detected
    | _ => ARABIC_EGYPTIAN
    end in
  if negb (str_eqb preferred (utf8 "auto")) then
    match language_of_value preferred with
    | Some l => l
    | None => by_detection
    end
  else by_detection.

Definition fallback_messages (user_language : LanguageType) : str :=
  match user_language with
  | ARABIC_FUSHA => utf8 "عذراً، لا يوجد رودماب متاح لهذا المجال حالياً."
  | ENGLISH => utf8 "Sorry, no roadmap available for this field right now."
  | _ => utf8 "معلش يا باشا، مفيش رود ماب متاح للمجال ده دلوقتي."
  end.

Definition _generate_fallback_response (user_language : LanguageType)
    (session_id : str) (detected_lang : str) : ChatResponse :=
  {| response := fallback_messages user_language;
     session_id := session_id;
     user_language := language_value user_language;
     detected_language := Some detected_lang;
     language_confidence := None;
     response_language := language_value user_language;
     is_egyptian := language_eqb user_language ARABIC_EGYPTIAN;
     chat_confidence := 8 # 10 |}.

Definition chat_error_messages (target_lang : str) : str :=
  if str_eqb target_lang (utf8 "ar") then utf8 "حدث خطأ. حاول مرة أخرى."
  else if str_eqb target_lang (utf8 "en")
  then utf8 "An error occurred. Try again."
  else utf8 "فيه مشكلة دلوقتي. حاول تاني.".

Definition _generate_error_response (preferred_language : str)
    (session_id : str) : ChatResponse :=
  let target_lang :=
    if str_eqb preferred_language (utf8 "auto") then utf8 "ar_EG"
    else preferred_language in
  {| response := chat_error_messages target_lang;
     session_id := session_id;
     user_language := preferred_language;
     detected_language := None;
     language_confidence := None;
     response_language := preferred_language;
     is_egyptian := str_eqb preferred_language (utf8 "ar_EG");
     chat_confidence := 0 |}.

(** The last [limit] turns of the session, oldest first; nothing when
    the read raises. *)
Definition _get_conversation_history (env : Collaborators) (w : World)
    (session_id : str) (limit : nat) : list HistoryRow :=
  if select_ok env then
    let rows :=
      filter (fun t => str_eqb (turn_session t) session_id)
        (conversations w) in
    map (fun t => {| role := turn_role t; content := turn_content t |})
      (skipn (length rows - limit) rows)
  else [].

(** The pieces of a trigger phrase: literal text, [\s*], [\s+]. *)
Inductive piece : Type :=
| Lit (s : str)
| Ws0
| Ws1.

(** A phrase matched at the head of [s].  White space is always followed
    by a literal that starts with another character, so only the longest
    run of white space can lead to a match. *)
Fixpoint match_pieces (ps : list piece) (s : str) : bool :=
  match ps with
  | [] => true
  | Lit l :: ps' => startswith l s && match_pieces ps' (skipn (length l) s)
  | Ws0 :: ps' => match_pieces ps' (drop_while is_space s)
  | Ws1 :: ps' =>
    match s with
    | c :: _ => is_space c && match_pieces ps' (drop_while is_space s)
    | [] => false
    end
  end.

(** [re.search] of an alternation of phrases. *)
Fixpoint search_phrases (alts : list (list piece)) (s : str) : bool :=
  existsb (fun ps => match_pieces ps s) alts
  || match s with
     | [] => false
     | _ :: s' => search_phrases alts s'
     end.

Definition roadmap_keywords : list (list (list piece)) := [
    [ [Lit (utf8 "مسار")]; [Lit (utf8 "رود"); Ws0; Lit (utf8 "ماب")];
      [Lit (utf8 "خريطة")]; [Lit (utf8 "طريق")] ];
    [ [Lit (utf8 "ازاي"); Ws1; Lit (utf8 "اتعلم")];
      [Lit (utf8 "كيف"); Ws1; Lit (utf8 "اتعلم")];
      [Lit (utf8 "عايز"); Ws1; Lit (utf8 "اتعلم")] ];
    [ [Lit (utf8 "roadmap")]; [Lit (utf8 "road"); Ws0; Lit (utf8 "map")];
      [Lit (utf8 "path")]; [Lit (utf8 "guide")] ];
    [ [Lit (utf8 "how"); Ws1; Lit (utf8 "to"); Ws1; Lit (utf8 "learn")];
      [Lit (utf8 "learning"); Ws1; Lit (utf8 "path")] ]
  ].

Definition _detect_roadmap_request `{PyRuntime} (message : str)
    : option str :=
  let message_lower := py_lower message in
  if existsb (fun alts => search_phrases alts message_lower) roadmap_keywords
  then Some message_lower
  else None.

Definition newlines : str := [10%N; 10%N].

(** [None]: a roadmap lacks one of the three keys ([KeyError]). *)
Fixpoint _format_roadmap_context `{PyRuntime} (roadmaps : list Dict)
    : option (list Dict) :=
  match roadmaps with
  | [] => Some []
  | roadmap :: rest =>
    match dict_get "title" roadmap, dict_get "description" roadmap,
          dict_get "url" roadmap with
    | Some title, Some description, Some url =>
      let title := str_of_value title in
      let description := str_of_value description in
      let url := str_of_value url in
      match _format_roadmap_context rest with
      | None => None
      | Some formatted =>
        Some
          ([ ("question_ar"%string,
              VStr (utf8 "ما هو مسار " ++ title ++ utf8 "؟"));
             ("answer_ar"%string,
              VStr (description ++ newlines ++ utf8 "الرابط: " ++ url));
             ("question_en"%string,
              VStr (utf8 "What is the " ++ title ++ utf8 " roadmap?"));
             ("answer_en"%string,
              VStr (description ++ newlines ++ utf8 "Link: " ++ url)) ]
           :: formatted)
      end
    | _, _, _ => None
    end
  end.

Definition add_turn (t : Turn) (w : World) : World :=
  {| conversations := conversations w ++ [t]; llm_calls := llm_calls w |}.

(** Two insertions under one [try]: if the first raises the second is
    not made. *)
Definition _save_conversation (env : Collaborators) (w : World)
    (session_id user_message bot_response language : str) : World :=
  let user_turn :=
    {| turn_session := session_id; turn_role := utf8 "user";
       turn_content := user_message; turn_language := language |} in
  let bot_turn :=
    {| turn_session := session_id; turn_role := utf8 "assistant";
       turn_content := bot_response; turn_language := language |} in
  if insert_ok env user_turn then
    let w1 := add_turn user_turn w in
    if insert_ok env bot_turn then add_turn bot_turn w1 else w1
  else w.

(** Steps 7 and 8: generation, then persistence.  An exception that
    leaves [generate_response] reaches the handler of [process_message]. *)
Definition generate_and_save `{PyRuntime} (env : Collaborators) (w : World)
    (message session_id preferred_language : str)
    (detected_lang : LanguageType) (confidence : Q)
    (user_language : LanguageType) (context : list Dict)
    : ChatResponse * World :=
  let (result, calls) :=
    generate_response (complete env) context user_language (llm_calls w) in
  let w1 := {| conversations := conversations w; llm_calls := calls |} in
  match result with
  | inl _ => (_generate_error_response preferred_language session_id, w1)
  | inr reply =>
    let w2 :=
      _save_conversation env w1 session_id message (text reply)
        (language_value user_language) in
    ({| response := text reply;
        session_id := session_id;
        user_language := language_value user_language;
        detected_language := Some (language_value detected_lang);
        language_confidence := Some confidence;
        response_language := language_value user_language;
        is_egyptian := language_eqb user_language ARABIC_EGYPTIAN;
        chat_confidence := LLMService.confidence reply |}, w2)
  end.

(** The session of the request, and steps 3 and 4: history, then the
    contextualized query with the world after the call it may make. *)
Definition resolve_session (env : Collaborators) (session_id : option str)
    : str :=
  match session_id with
  | Some (c :: s) => c :: s
  | _ => new_session_id env
  end.

Definition refine_message (env : Collaborators) (w : World)
    (message session_id : str) : str * World :=
  let conversation_history :=
    _get_conversation_history env w session_id 8 in
  match conversation_history with
  | [] => (message, w)
  | _ :: _ =>
    let (refined, calls) :=
      contextualize_query (complete env) message conversation_history
        (llm_calls w) in
    (refined, {| conversations := conversations w; llm_calls := calls |})
  end.

Definition process_message `{PyRuntime} (env : Collaborators) (w : World)
    (message : str) (session_id : option str) (preferred_language : str)
    : ChatResponse * World :=
  let session_id := resolve_session env session_id in
  let (detected_lang, confidence) := detect_with_confidence message in
  let user_language :=
    _determine_response_language detected_lang preferred_language in
  let (refined_message, w1) := refine_message env w message session_id in
  match _detect_roadmap_request refined_message with
  | Some _ =>
    match RoadmapService.search_roadmaps (model env) (db env)
            refined_message 3 true with
    | [] =>
      (_generate_fallback_response user_language session_id
         (language_value detected_lang), w1)
    | roadmaps =>
      match _format_roadmap_context roadmaps with
      | None => (_generate_error_response preferred_language session_id, w1)
      | Some context =>
        generate_and_save env w1 message session_id preferred_language
          detected_lang confidence user_language context
      end
    end
  | None =>
    let context :=
      RAGService.search_faqs (model env) (db env) refined_message
        (language_value user_language) in
    generate_and_save env w1 message session_id preferred_language
      detected_lang confidence user_language context
  end.

End ChatService.

(* ================================================================== *)
(** * Predicates used to state the properties *)
(* ================================================================== *)

Module ValidatorSpec.
Import LLMValidator.

Definition https_scheme : str := [104; 116; 116; 112; 115; 58; 47; 47]%N.
Definition http_scheme : str := [104; 116; 116; 112; 58; 47; 47]%N.

(** A string the URL pattern matches as a whole. *)
Definition url_shaped (u : str) : Prop :=
  exists scheme body,
    (scheme = https_scheme \/ scheme = http_scheme) /\
    u = scheme ++ body /\ body <> [] /\ forallb url_char body = true.

(** The text holds a URL-shaped substring. *)
Definition has_url (s : str) : Prop :=
  exists a u b, s = a ++ u ++ b /\ url_shaped u.

(** [url_redaction P t t']: [t'] is [t] with some URL-shaped substrings,
    disjoint from one another, each replaced by [P]; every other
    character is kept in place. *)
Inductive url_redaction (P : str) : str -> str -> Prop :=
| red_nil : url_redaction P [] []
| red_keep c t t' :
    url_redaction P t t' -> url_redaction P (c :: t) (c :: t')
| red_url u t t' :
    url_shaped u -> url_redaction P t t' ->
    url_redaction P (u ++ t) (P ++ t').

(** One step of the loop over the URLs of the response. *)
Definition validation_step `{PyRuntime} (allowed : list str)
    (validated_text url : str) : str :=
  if str_mem (normalize_url url) allowed then validated_text
  else replace url link_not_available validated_text.

Definition bracket : char := 91%N.

(** The normal form as the claim words it: trailing punctuation stripped,
    one trailing slash stripped, lower case. *)
Definition strip_one_slash (s : str) : str :=
  match rev s with
  | 47%N :: body => rev body
  | _ => s
  end.

Definition claimed_normalize_url `{PyRuntime} (u : str) : str :=
  py_lower (strip_one_slash (strip_trailing_punct u)).

End ValidatorSpec.

(* ================================================================== *)
(** * Data of the worked examples *)
(* ================================================================== *)

Definition frontend_context : list Dict :=
  [[("answer"%string, VStr (utf8 "See https://roadmap.sh/frontend"))]].

Definition frontend_text : str := utf8 "Try https://roadmap.sh/frontend/ now".

Definition plain_text : str := utf8 "Start with HTML, then CSS.".

(** A response URL with two trailing slashes, for a context URL with
    none. *)
Definition double_slash_context : list Dict :=
  [[("answer"%string, VStr (utf8 "See https://a.com"))]].

Definition double_slash_text : str := utf8 "Try https://a.com// now".

(** A unit vector of the dimension of the embeddings, and its opposite. *)
Definition unit_vec : list float := 1%float :: repeat 0%float 383.
Definition opposite_vec : list float := (-1)%float :: repeat 0%float 383.

(** An embedding with three components 1. *)
Definition triple_vec : list float :=
  [1; 1; 1]%float ++ repeat 0%float 381.

(** An embedding whose square overflows. *)
Definition huge_vec : list float := 1e200%float :: repeat 0%float 383.

(** A model that embeds every text to [unit_vec]. *)
Definition unit_model : EmbeddingService.EmbeddingModel :=
  {| EmbeddingService._available := true;
     EmbeddingService.encode := fun _ => Some unit_vec |}.




(** A candidate whose embedding has two components only. *)
Definition short_roadmap : Dict :=
  [("title"%string, VStr (utf8 "Frontend"));
   ("embedding"%string, VVec [1%float; 0%float])].

(** A production deployment: no local embedding model. *)
Definition no_model : EmbeddingService.EmbeddingModel :=
  {| EmbeddingService._available := false;
     EmbeddingService.encode := fun _ => None |}.

Definition frontend_faq : Dict :=
  [("question_en"%string, VStr (utf8 "What is frontend development?"));
   ("answer_en"%string, VStr (utf8 "Building user interfaces."));
   ("is_active"%string, VBool true)].

(** A store with one active FAQ and no roadmap. *)
Definition faq_store : Store :=
  {| roadmaps_all := Some [];
     faqs_active := Some [frontend_faq];
     match_roadmaps := fun _ _ _ => Some [];
     match_faqs := fun _ _ _ => Some [] |}.

Definition react_query : str := utf8 "react".

(** A store whose tables are empty. *)
Definition empty_store : Store :=
  {| roadmaps_all := Some [];
     faqs_active := Some [];
     match_roadmaps := fun _ _ _ => Some [];
     match_faqs := fun _ _ _ => Some [] |}.

(** Collaborators whose completion model is rate-limited on every
    call. *)
Definition rate_limited_env : ChatService.Collaborators :=
  {| ChatService.model := no_model;
     ChatService.db := empty_store;
     ChatService.complete := fun _ => inl LLMService.RateLimitError;
     ChatService.select_ok := true;
     ChatService.insert_ok := fun _ => true;
     ChatService.new_session_id := utf8 "session-1" |}.

(** Collaborators whose completion model answers every call with the
    same query. *)
Definition answering_env : ChatService.Collaborators :=
  {| ChatService.model := no_model;
     ChatService.db := empty_store;
     ChatService.complete := fun _ => inr (utf8 "rust roadmap");
     ChatService.select_ok := true;
     ChatService.insert_ok := fun _ => true;
     ChatService.new_session_id := utf8 "session-1" |}.

Definition fresh_world : ChatService.World :=
  {| ChatService.conversations := []; ChatService.llm_calls := 0 |}.

(** A session with one earlier turn. *)
Definition one_turn_world : ChatService.World :=
  {| ChatService.conversations :=
       [ {| ChatService.turn_session := utf8 "session-1";
            ChatService.turn_role := utf8 "user";
            ChatService.turn_content := utf8 "I like rust";
            ChatService.turn_language := utf8 "en" |} ];
     ChatService.llm_calls := 0 |}.

(** A follow-up message in that session, which the completion model
    rewrites to a roadmap request. *)
Definition followup_outcome : ChatService.ChatResponse * ChatService.World :=
  ChatService.process_message (H := ascii_runtime) answering_env
    one_turn_world (utf8 "what about it") (Some (utf8 "session-1"))
    (utf8 "en").

(** A roadmap whose description names CI/CD with a slash; its title and
    its category share no character with the query [ci cd]. *)
Definition pipelines_roadmap : Dict :=
  [("title"%string, VStr (utf8 "Jobs"));
   ("description"%string,
    VStr (utf8 "How to set up automated CI/CD workflows that build, test and release software on every push"));
   ("category"%string, VStr (utf8 "ops"))].

Definition pipelines_store : Store :=
  {| roadmaps_all := Some [pipelines_roadmap];
     faqs_active := Some [];
     match_roadmaps := fun _ _ _ => Some [];
     match_faqs := fun _ _ _ => Some [] |}.

Definition pipelines_query : str := utf8 "ci cd".

(* ================================================================== *)
(** * Predicates on search results *)
(* ================================================================== *)

Module SearchSpec.
Import EmbeddingService.


(** Descending order of the keys. *)
Definition desc (key : Dict -> R) (a b : Dict) : Prop := (key b <= key a)%R.



(** The vector a candidate is compared by: its embedding, when this is a
    non-empty vector of the dimension of the query. *)
Definition comparable (query_vec : vec) (roadmap : Dict) : option vec :=
  match dict_get "embedding" roadmap with
  | Some (VVec (x :: v)) =>
    if (length query_vec =? length (x :: v))%nat then Some (x :: v) else None
  | _ => None
  end.

(** The candidate carries an embedding of another dimension than the
    query. *)
Definition dimension_mismatch (query_vec : vec) (roadmap : Dict) : Prop :=
  exists v, dict_get "embedding" roadmap = Some (VVec v)
            /\ length v <> length query_vec.

(** What the scoring loop of the vector search yields for one
    candidate. *)
Definition scored_entry `{PyRuntime} (query_vec : vec) (roadmap : Dict)
    : list Dict :=
  match comparable query_vec roadmap with
  | Some doc_vec =>
    match _calculate_cosine_similarity query_vec doc_vec with
    | Some score => [with_cosine roadmap score]
    | None => []
    end
  | None => []
  end.

End SearchSpec.

Module CascadeSpec.
Import EmbeddingService RoadmapService TierThreeSpec.

(** A roadmap row the text matching reads without raising: a title that
    is a string, a description and a category that are strings or
    absent. *)
Definition well_formed_roadmap (roadmap : Dict) : Prop :=
  (exists title, dict_get "title" roadmap = Some (VStr title))
  /\ (exists description, item_get "description" roadmap = VStr description)
  /\ (exists category, item_get "category" roadmap = VStr category).

(** The punctuation on which the code and the specification agree: no
    slash (code point 47) in the title and in the description, no
    ampersand (38) in the category. *)
Definition plain_punctuation `{PyRuntime} (roadmap : Dict) : Prop :=
  ~ In 47%N (py_lower (field_text "title" roadmap))
  /\ ~ In 47%N (py_lower (field_text "description" roadmap))
  /\ ~ In 38%N (py_lower (field_text "category" roadmap)).

(** The fields as the text matching of the code cleans them. *)
Definition matched_fields `{PyRuntime} (d : Dict) : str * str * str :=
  (clean_and_hyphen (py_lower (field_text "title" d)),
   clean_and_hyphen (py_lower (field_text "description" d)),
   clean_slash_hyphen (py_lower (field_text "category" d))).

(** What the scoring loop of the text matching yields for one row. *)
Definition matched_entry `{PyRuntime} (qs : list str) (d : Dict)
    : list Dict :=
  if Rlt_dec (15 / 100) (roadmap_score qs (matched_fields d))
  then [with_score d (roadmap_score qs (matched_fields d))]
  else [].

(** The score of the code, without its loop: 1 when a cleaned variant is
    found in the text, else the greatest ratio. *)
Definition loop_score `{PyRuntime} (norm : str -> str)
    (fields : str * str * str) (l : list str) : R :=
  if existsb (fun v => contains (norm v) (searchable_text fields)) l
  then 1%R
  else fold_left (fun best v => Rmax best (variant_ratio fields (norm v)))
         l 0%R.

End CascadeSpec.

(* ================================================================== *)
(** * Further functions of the sources *)
(* ================================================================== *)

Module LanguageDetectorMore.
Import LanguageDetector.

(** [AdvancedLanguageDetector.should_respond_in_egyptian] *)
Definition should_respond_in_egyptian (detected_lang : LanguageType)
    (user_preference : str) : bool :=
  if str_eqb user_preference (utf8 "ar_EG") then true
  else if language_eqb detected_lang ARABIC_EGYPTIAN
          && str_mem user_preference [utf8 "auto"; utf8 "ar_EG"]
  then true
  else false.

End LanguageDetectorMore.

(** [test_url_validation.py]: the reference validator of the test
    script. *)
Module UrlValidationTest.
Import LLMValidator.

(** [normalize_url]: lower case, trailing slashes stripped. *)
Definition normalize_url `{PyRuntime} (u : str) : str :=
  py_lower (rstrip_char 47 u).

(** [clean_url]: trailing punctuation removed. *)
Definition clean_url (u : str) : str := strip_trailing_punct u.

Definition context_valid_urls (context : list Dict) : list str :=
  flat_map
    (fun item : Dict =>
       flat_map
         (fun kv : string * value =>
            match snd kv with
            | VStr s => map clean_url (findall_urls s)
            | _ => []
            end)
         item)
    context.

Definition validate_urls `{PyRuntime} (text : str) (context : list Dict)
    : str :=
  let valid_urls := context_valid_urls context in
  let normalized_valid_urls := map normalize_url valid_urls in
  let response_urls := findall_urls text in
  fold_left
    (fun validated_text url =>
       let cleaned_url := clean_url url in
       let norm_url := normalize_url cleaned_url in
       if str_mem norm_url normalized_valid_urls then validated_text
       else replace url link_not_available validated_text)
    response_urls text.

End UrlValidationTest.

(** A roadmap row as the search returns it. *)
Definition game_roadmap : Dict :=
  [("title"%string, VStr (utf8 "Game Developer"));
   ("description"%string, VStr (utf8 "Learn to build games."));
   ("url"%string, VStr (utf8 "https://roadmap.sh/game-developer"))].

Definition game_text : str :=
  utf8 "Follow https://roadmap.sh/game-developer/.".

(** A store that holds this roadmap only. *)
Definition game_store : Store :=
  {| roadmaps_all := Some [game_roadmap];
     faqs_active := Some [];
     match_roadmaps := fun _ _ _ => Some [];
     match_faqs := fun _ _ _ => Some [] |}.

Definition game_query : str := utf8 "game".

(* ================================================================== *)
(** * The order of the binary64 comparisons *)
(* ================================================================== *)

Module FloatOrderSpec.
Local Open Scope Z_scope.




End FloatOrderSpec.

(* ================================================================== *)
(** * Properties: strings *)
(* ================================================================== *)

Unset Implicit Arguments.

Lemma str_eqb_eq (a b : str) : str_eqb a b = true <-> a = b.
Proof.
  revert b; induction a as [|x a IH]; intros [|y b]; simpl;
    split; intro E; try discriminate; try reflexivity.
  - apply andb_true_iff in E as [E1 E2].
    apply N.eqb_eq in E1. apply IH in E2. now subst.
  - injection E as -> ->. rewrite N.eqb_refl. simpl. now apply IH.
Qed.

Lemma str_eqb_refl (a : str) : str_eqb a a = true.
Proof. now apply str_eqb_eq. Qed.

Lemma str_mem_In (x : str) (l : list str) : str_mem x l = true <-> In x l.
Proof.
  unfold str_mem. rewrite existsb_exists. split.
  - intros (y & Hy & E). apply str_eqb_eq in E. now subst.
  - intro Hx. exists x. split; [assumption | apply str_eqb_refl].
Qed.

Lemma startswith_spec (p s : str) :
  startswith p s = true <-> exists r, s = p ++ r.
Proof.
  revert s; induction p as [|x p IH]; intros s; simpl.
  - split; [intros _; now exists s | reflexivity].
  - destruct s as [|y s].
    + split; [discriminate | intros (r & E); discriminate].
    + rewrite andb_true_iff, N.eqb_eq, IH. split.
      * intros (-> & r & ->). now exists r.
      * intros (r & E). injection E as -> ->. split; [reflexivity|now exists r].
Qed.

Lemma startswith_app (p r : str) : startswith p (p ++ r) = true.
Proof. apply startswith_spec. now exists r. Qed.

Lemma skipn_length_app (p r : str) : skipn (length p) (p ++ r) = r.
Proof. induction p; simpl; auto. Qed.

Lemma take_drop_while (p : char -> bool) (s : str) :
  take_while p s ++ drop_while p s = s.
Proof.
  induction s as [|c s IH]; simpl; [reflexivity|].
  destruct (p c); simpl; [now rewrite IH | reflexivity].
Qed.

Lemma take_while_all (p : char -> bool) (s : str) :
  forallb p (take_while p s) = true.
Proof.
  induction s as [|c s IH]; simpl; [reflexivity|].
  destruct (p c) eqn:E; simpl; [now rewrite E | reflexivity].
Qed.

Lemma drop_while_head (p : char -> bool) (s : str) c r :
  drop_while p s = c :: r -> p c = false.
Proof.
  induction s as [|x s IH]; simpl; [discriminate|].
  destruct (p x) eqn:E; [exact IH|]. intro H. injection H as <- _. exact E.
Qed.

Lemma take_while_app_all (p : char -> bool) (a b : str) :
  forallb p a = true -> take_while p (a ++ b) = a ++ take_while p b.
Proof.
  induction a as [|c a IH]; simpl; [reflexivity|].
  intro H. apply andb_true_iff in H as [-> H]. now rewrite IH.
Qed.

Lemma drop_while_all (p : char -> bool) (s : str) :
  forallb p s = true -> drop_while p s = [].
Proof.
  induction s as [|c s IH]; simpl; [reflexivity|].
  intro H. apply andb_true_iff in H as [-> H]. auto.
Qed.

Lemma strip_all_space (s : str) : forallb is_space s = true -> strip s = [].
Proof.
  intro H. unfold strip. now rewrite (drop_while_all _ _ H).
Qed.

(** Induction on the length of a string. *)
Lemma str_length_ind (P : str -> Prop) :
  (forall s, (forall t, length t < length s -> P t) -> P s) ->
  forall s, P s.
Proof.
  intros step s.
  assert (G : forall n t, length t < n -> P t).
  { induction n as [|n IH]; intros t Ht; [lia|].
    apply step. intros t' Ht'. apply IH. lia. }
  apply (G (S (length s))). lia.
Qed.

(** [replace] walks the string occurrence by occurrence. *)
Lemma replace_from_skip (old new w r : str) :
  replace_from (length w) old new (w ++ r) = replace_from 0 old new r.
Proof. induction w; simpl; auto. Qed.

Lemma replace_from_hit (old new r : str) :
  old <> [] ->
  replace_from 0 old new (old ++ r) = new ++ replace_from 0 old new r.
Proof.
  intros Hne. destruct old as [|c old']; [congruence|].
  change ((c :: old') ++ r) with (c :: (old' ++ r)).
  cbn [replace_from].
  change (c :: (old' ++ r)) with ((c :: old') ++ r).
  rewrite startswith_app. cbn [length pred].
  now rewrite replace_from_skip.
Qed.

Lemma replace_from_miss (old new : str) c s :
  startswith old (c :: s) = false ->
  replace_from 0 old new (c :: s) = c :: replace_from 0 old new s.
Proof. intro H. cbn [replace_from]. now rewrite H. Qed.

(* ================================================================== *)
(** * Properties: the URL pattern *)
(* ================================================================== *)

Module ValidatorFacts.
Import LLMValidator ValidatorSpec.

Lemma https_lit : utf8 "https://" = https_scheme.
Proof. vm_compute. reflexivity. Qed.

Lemma http_lit : utf8 "http://" = http_scheme.
Proof. vm_compute. reflexivity. Qed.

Lemma url_scheme_spec s sch r :
  url_scheme s = Some (sch, r) ->
  (sch = https_scheme \/ sch = http_scheme) /\ s = sch ++ r.
Proof.
  unfold url_scheme, strip_prefix. rewrite https_lit, http_lit.
  destruct (startswith https_scheme s) eqn:E1.
  - intro H. injection H as <- <-. split; [now left|].
    apply startswith_spec in E1 as (r & ->). reflexivity.
  - destruct (startswith http_scheme s) eqn:E2; [|discriminate].
    intro H. injection H as <- <-. split; [now right|].
    apply startswith_spec in E2 as (r & ->). reflexivity.
Qed.

Lemma url_scheme_complete sch r :
  sch = https_scheme \/ sch = http_scheme ->
  url_scheme (sch ++ r) = Some (sch, r).
Proof.
  unfold url_scheme, strip_prefix. rewrite https_lit, http_lit.
  intros [-> | ->].
  - rewrite startswith_app. reflexivity.
  - replace (startswith https_scheme (http_scheme ++ r)) with false
      by reflexivity.
    rewrite startswith_app. reflexivity.
Qed.

Lemma match_url_spec s u r :
  match_url s = Some (u, r) ->
  s = u ++ r /\ url_shaped u /\
  (forall c r', r = c :: r' -> url_char c = false).
Proof.
  unfold match_url. destruct (url_scheme s) as [[sch rest]|] eqn:E;
    [|discriminate].
  apply url_scheme_spec in E as [Hs ->].
  destruct (take_while url_char rest) as [|b body] eqn:T; [discriminate|].
  intro H. injection H as <- <-. repeat split.
  - rewrite <- app_assoc, <- T. now rewrite take_drop_while.
  - exists sch, (b :: body). repeat split; try assumption.
    + discriminate.
    + rewrite <- T. apply take_while_all.
  - intros c r'. apply drop_while_head.
Qed.

Lemma match_url_complete sch c rest :
  sch = https_scheme \/ sch = http_scheme ->
  url_char c = true ->
  match_url (sch ++ c :: rest) <> None.
Proof.
  intros Hs Hc. unfold match_url. rewrite (url_scheme_complete _ _ Hs).
  simpl. rewrite Hc. discriminate.
Qed.

Lemma url_shaped_nonempty u : url_shaped u -> exists t, u = 104%N :: t.
Proof.
  intros (sch & body & [-> | ->] & -> & _); eexists; reflexivity.
Qed.

Lemma url_shaped_match u b : url_shaped u -> match_url (u ++ b) <> None.
Proof.
  intros (sch & body & Hs & -> & Hne & _Hall).
  destruct body as [|c body]; [congruence|].
  simpl in _Hall. apply andb_true_iff in _Hall as [Hc _].
  rewrite <- app_assoc. simpl. now apply match_url_complete.
Qed.

Lemma match_url_nil : match_url [] = None.
Proof. reflexivity. Qed.

(** The scanner advances match by match, else character by character. *)
Lemma scan_ind (P : str -> Prop) :
  P [] ->
  (forall c s, match_url (c :: s) = None -> P s -> P (c :: s)) ->
  (forall u r, match_url (u ++ r) = Some (u, r) -> url_shaped u ->
               P r -> P (u ++ r)) ->
  forall s, P s.
Proof.
  intros Hnil Hmiss Hhit. apply str_length_ind. intros s IH.
  destruct s as [|c s]; [exact Hnil|].
  destruct (match_url (c :: s)) as [[u r]|] eqn:E.
  - destruct (match_url_spec _ _ _ E) as (Hs & Hu & _).
    rewrite Hs in *. apply Hhit; try assumption.
    apply IH. destruct (url_shaped_nonempty _ Hu) as (t & ->).
    rewrite length_app. simpl. lia.
  - apply Hmiss; [assumption|]. apply IH. simpl. lia.
Qed.

Lemma findall_from_skip w r :
  findall_from (length w) (w ++ r) = findall_from 0 r.
Proof. induction w; simpl; auto. Qed.

Lemma findall_urls_hit u r :
  match_url (u ++ r) = Some (u, r) ->
  findall_urls (u ++ r) = u :: findall_urls r.
Proof.
  intro E. destruct (match_url_spec _ _ _ E) as (_ & Hu & _).
  destruct (url_shaped_nonempty _ Hu) as (t & ->).
  unfold findall_urls. simpl app in *. cbn [findall_from]. rewrite E.
  simpl pred. simpl length. now rewrite findall_from_skip.
Qed.

Lemma findall_urls_miss c s :
  match_url (c :: s) = None -> findall_urls (c :: s) = findall_urls s.
Proof. intro E. unfold findall_urls. cbn [findall_from]. now rewrite E. Qed.

Lemma sub_from_skip repl w r :
  sub_from (length w) repl (w ++ r) = sub_from 0 repl r.
Proof. induction w; simpl; auto. Qed.

Lemma sub_urls_hit repl u r :
  match_url (u ++ r) = Some (u, r) ->
  sub_urls repl (u ++ r) = repl ++ sub_urls repl r.
Proof.
  intro E. destruct (match_url_spec _ _ _ E) as (_ & Hu & _).
  destruct (url_shaped_nonempty _ Hu) as (t & ->).
  unfold sub_urls. simpl app in *. cbn [sub_from]. rewrite E.
  simpl pred. simpl length. now rewrite sub_from_skip.
Qed.

Lemma sub_urls_miss repl c s :
  match_url (c :: s) = None ->
  sub_urls repl (c :: s) = c :: sub_urls repl s.
Proof. intro E. unfold sub_urls. cbn [sub_from]. now rewrite E. Qed.

(** Every match reported by [findall] is a URL-shaped substring. *)
Lemma findall_urls_sound s u :
  In u (findall_urls s) -> url_shaped u /\ exists a b, s = a ++ u ++ b.
Proof.
  revert u. pattern s. apply scan_ind; clear s.
  - intros u [].
  - intros c s E IH u. rewrite (findall_urls_miss _ _ E). intro Hin.
    destruct (IH _ Hin) as (Hu & a & b & ->). split; [assumption|].
    now exists (c :: a), b.
  - intros v r E Hv IH u. rewrite (findall_urls_hit _ _ E).
    intros [<- | Hin].
    + split; [assumption|]. now exists [], r.
    + destruct (IH _ Hin) as (Hu & a & b & ->). split; [assumption|].
      exists (v ++ a), b. now rewrite <- app_assoc.
Qed.

Lemma has_url_findall s : has_url s -> findall_urls s <> [].
Proof.
  intros (a & u & b & -> & Hu). induction a as [|c a IH].
  - simpl. pose proof (url_shaped_match _ b Hu) as M.
    destruct (match_url (u ++ b)) as [[v r]|] eqn:E; [|congruence].
    destruct (match_url_spec _ _ _ E) as (Hs & _). rewrite Hs in *.
    rewrite (findall_urls_hit _ _ E). discriminate.
  - simpl. destruct (match_url (c :: a ++ u ++ b)) as [[v r]|] eqn:E.
    + destruct (match_url_spec _ _ _ E) as (Hs & _). rewrite Hs in *.
      rewrite (findall_urls_hit _ _ E). discriminate.
    + now rewrite (findall_urls_miss _ _ E).
Qed.

(** [findall] finds nothing exactly when the text holds no URL-shaped
    substring. *)
Lemma findall_urls_nil_iff s : findall_urls s = [] <-> ~ has_url s.
Proof.
  split.
  - intros E H. now apply (has_url_findall _ H).
  - intro H. destruct (findall_urls s) as [|u l] eqn:E; [reflexivity|].
    exfalso. apply H.
    destruct (findall_urls_sound s u) as (Hu & a & b & ->).
    { rewrite E. now left. }
    now exists a, u, b.
Qed.

(** ** Redaction: URL-shaped substrings replaced by a placeholder *)

Lemma url_redaction_refl P t : url_redaction P t t.
Proof. induction t; constructor; assumption. Qed.


Lemma replace_redaction P u t :
  url_shaped u -> url_redaction P t (replace u P t).
Proof.
  intro Hu. destruct (url_shaped_nonempty _ Hu) as (u' & Eu).
  assert (Hne : u <> []) by (rewrite Eu; discriminate).
  assert (R : replace u P t = replace_from 0 u P t)
    by (rewrite Eu; reflexivity).
  rewrite R. clear R Eu u'. pattern t. apply str_length_ind. clear t.
  intros t IH. destruct t as [|c t]; [constructor|].
  destruct (startswith u (c :: t)) eqn:E.
  - apply startswith_spec in E as (r & E). rewrite E.
    rewrite (replace_from_hit _ _ _ Hne). apply red_url; [assumption|].
    apply IH. rewrite E, length_app.
    destruct u; [congruence|simpl; lia].
  - rewrite (replace_from_miss _ _ _ _ E). constructor. apply IH. simpl. lia.
Qed.

(** ** The output of [re.sub] holds no URL *)

Lemma link_removed_head : exists t, link_removed = bracket :: t.
Proof. exists (tl link_removed). vm_compute. reflexivity. Qed.

Lemma link_removed_no_h :
  forallb (fun c => negb (c =? 104)%N) link_removed = true.
Proof. vm_compute. reflexivity. Qed.

Lemma match_url_head_h s :
  match_url s <> None -> exists t, s = 104%N :: t.
Proof.
  destruct (match_url s) as [[u r]|] eqn:E; [|congruence]. intros _.
  destruct (match_url_spec _ _ _ E) as (-> & Hu & _).
  destruct (url_shaped_nonempty _ Hu) as (t & ->). now exists (t ++ r).
Qed.

(** A prefix of the output without an opening bracket was copied from
    the input, none of its positions starting a match. *)
Lemma sub_urls_copied_prefix w : forall s r,
  sub_urls link_removed s = w ++ r -> ~ In bracket w ->
  exists r', s = w ++ r' /\ sub_urls link_removed r' = r.
Proof.
  induction w as [|c w IH]; intros s r E Hw.
  - now exists s.
  - destruct s as [|x s]; [discriminate|].
    destruct (match_url (x :: s)) as [[u t]|] eqn:M.
    + destruct (match_url_spec _ _ _ M) as (Hs & _). rewrite Hs in *.
      rewrite (sub_urls_hit _ _ _ M) in E.
      destruct link_removed_head as (p & Ep). rewrite Ep in E.
      injection E as <- _. exfalso. apply Hw. now left.
    + rewrite (sub_urls_miss _ _ _ M) in E. injection E as <- E.
      destruct (IH _ _ E) as (r' & -> & Hr').
      { intro. apply Hw. now right. }
      now exists r'.
Qed.

Lemma scheme_no_bracket sch :
  sch = https_scheme \/ sch = http_scheme -> ~ In bracket sch.
Proof.
  intros [-> | ->] H; simpl in H; unfold bracket in H;
    repeat (destruct H as [H|H]; [discriminate|]); exact H.
Qed.

Lemma url_char_h : url_char 104%N = true.
Proof. reflexivity. Qed.

Lemma sub_urls_head_clean s : match_url (sub_urls link_removed s) = None.
Proof.
  destruct (match_url (sub_urls link_removed s)) as [[u r]|] eqn:M;
    [exfalso|reflexivity].
  destruct (match_url_spec _ _ _ M) as (Hs & (sch & body & Hsch & -> & Hne & Hb) & _).
  destruct body as [|c body]; [congruence|]. clear Hne.
  simpl in Hb. apply andb_true_iff in Hb as [Hc _].
  rewrite <- !app_assoc in Hs.
  destruct (sub_urls_copied_prefix _ _ _ Hs (scheme_no_bracket _ Hsch))
    as (r' & Es & Er').
  (* the input has the scheme, followed by a URL character *)
  assert (Hin : match_url s <> None).
  { rewrite Es. destruct r' as [|y r']; [discriminate|].
    destruct (match_url (y :: r')) as [[v t]|] eqn:My.
    - assert (Hy : match_url (y :: r') <> None) by congruence.
      destruct (match_url_head_h _ Hy) as (t' & Ey). injection Ey as -> _.
      now apply match_url_complete.
    - rewrite (sub_urls_miss _ _ _ My) in Er'. simpl in Er'.
      injection Er' as -> _. now apply match_url_complete. }
  destruct (match_url s) as [[v t]|] eqn:Ms; [|congruence].
  destruct (match_url_spec _ _ _ Ms) as (Ev & _). rewrite Ev in *.
  rewrite (sub_urls_hit _ _ _ Ms) in Hs.
  destruct link_removed_head as (p & Ep). rewrite Ep in Hs.
  destruct Hsch as [-> | ->]; discriminate.
Qed.

Lemma no_h_suffix_clean (p x : str) :
  forallb (fun c => negb (c =? 104)%N) p = true ->
  forall a t, p ++ x = a ++ t ->
  (exists a', x = a' ++ t) \/ match_url t = None.
Proof.
  induction p as [|c p IH]; intros Hp a t E.
  - left. now exists a.
  - simpl in Hp. apply andb_true_iff in Hp as [Hc Hp].
    destruct a as [|y a].
    + right. simpl in E. subst t.
      destruct (match_url (c :: p ++ x)) eqn:M; [|reflexivity].
      assert (Hm : match_url (c :: p ++ x) <> None) by congruence.
      destruct (match_url_head_h _ Hm) as (t' & Et). injection Et as -> _.
      vm_compute in Hc. discriminate Hc.
    + injection E as _ E. now apply (IH Hp a t).
Qed.

(** No suffix of the output starts a match of the URL pattern. *)
Lemma sub_urls_clean s : forall a t,
  sub_urls link_removed s = a ++ t -> match_url t = None.
Proof.
  pattern s. apply scan_ind; clear s.
  - intros a t E. destruct a; destruct t; try discriminate. reflexivity.
  - intros c s M IH a t E. destruct a as [|y a].
    + simpl in E. subst t. apply sub_urls_head_clean.
    + rewrite (sub_urls_miss _ _ _ M) in E. injection E as _ E.
      now apply (IH a t).
  - intros u r M Hu IH a t E. rewrite (sub_urls_hit _ _ _ M) in E.
    destruct (no_h_suffix_clean _ _ link_removed_no_h _ _ E)
      as [(a' & E') | Hnone]; [|assumption].
    now apply (IH a' t).
Qed.

Lemma sub_urls_no_url s : ~ has_url (sub_urls link_removed s).
Proof.
  intros (a & u & b & E & Hu).
  apply (url_shaped_match _ b Hu). now apply (sub_urls_clean s a).
Qed.

End ValidatorFacts.

(* ================================================================== *)
(** * Properties: the runtime used to run the model *)
(* ================================================================== *)

Lemma is_space_not_upper (c : char) :
  is_space c = true -> ascii_lower c = c.
Proof.
  unfold is_space, ascii_lower. intro H.
  destruct ((65 <=? c)%N && (c <=? 90)%N) eqn:E; [|reflexivity].
  apply andb_true_iff in E as [E1 E2].
  apply N.leb_le in E1, E2.
  repeat rewrite orb_true_iff in H. repeat rewrite andb_true_iff in H.
  repeat rewrite N.leb_le in H. repeat rewrite N.eqb_eq in H. lia.
Qed.

Lemma ascii_runtime_laws : PyRuntimeLaws ascii_runtime.
Proof.
  constructor.
  - reflexivity.
  - intros s Hs. simpl. induction s as [|c s IH]; [reflexivity|].
    simpl in *. apply andb_true_iff in Hs as [Hc Hs].
    now rewrite (is_space_not_upper _ Hc), IH.
  - intros a b. simpl. destruct (str_eqb a b); lra.
  - intro l. simpl. apply Permutation_refl.
Qed.

(* ================================================================== *)
(** * Properties: the grounding validator *)
(* ================================================================== *)

Section Validator.
Import LLMValidator ValidatorSpec ValidatorFacts.
Context {RT : PyRuntime}.

Lemma validate_nonempty_context text item context :
  _validate_urls_against_context text (item :: context) =
  match findall_urls text with
  | [] => text
  | urls =>
    fold_left
      (validation_step (map normalize_url (context_urls (item :: context))))
      urls text
  end.
Proof.
  unfold _validate_urls_against_context.
  destruct (findall_urls text); reflexivity.
Qed.

Lemma fold_validation_kept allowed urls : forall text,
  (forall u, In u urls -> str_mem (normalize_url u) allowed = true) ->
  fold_left (validation_step allowed) urls text = text.
Proof.
  induction urls as [|u urls IH]; intros text H; [reflexivity|].
  simpl. unfold validation_step at 2. rewrite (H u (or_introl eq_refl)).
  apply IH. intros v Hv. apply H. now right.
Qed.

Lemma fold_validation_redaction allowed urls : forall text,
  (forall u, In u urls -> url_shaped u) ->
  clos_refl_trans str (url_redaction link_not_available) text
    (fold_left (validation_step allowed) urls text).
Proof.
  induction urls as [|u urls IH]; intros text H; [apply rt_refl|].
  simpl. apply rt_trans with (y := validation_step allowed text u).
  - unfold validation_step.
    destruct (str_mem (normalize_url u) allowed); [apply rt_refl|].
    apply rt_step. apply replace_redaction. apply H. now left.
  - apply IH. intros v Hv. apply H. now right.
Qed.

(** URLs whose normal form is the normal form of a context URL are all
    kept. *)
Lemma validate_kept text context :
  context <> [] ->
  (forall u, In u (findall_urls text) ->
     exists v, In v (context_urls context) /\
               normalize_url v = normalize_url u) ->
  _validate_urls_against_context text context = text.
Proof.
  intros Hc H. destruct context as [|item context]; [congruence|].
  rewrite validate_nonempty_context.
  destruct (findall_urls text) as [|u0 urls] eqn:E; [reflexivity|].
  apply fold_validation_kept. intros u Hu.
  destruct (H u Hu) as (v & Hv & Hn).
  apply str_mem_In. rewrite <- Hn. now apply in_map.
Qed.

Lemma validate_unchanged_without_url text context :
  context <> [] -> ~ has_url text ->
  _validate_urls_against_context text context = text.
Proof.
  intros Hc Hn. destruct context as [|item context]; [congruence|].
  rewrite validate_nonempty_context.
  apply findall_urls_nil_iff in Hn. now rewrite Hn.
Qed.

Lemma validate_redaction text context :
  context <> [] ->
  clos_refl_trans str (url_redaction link_not_available) text
    (_validate_urls_against_context text context).
Proof.
  intros Hc. destruct context as [|item context]; [congruence|].
  rewrite validate_nonempty_context.
  destruct (findall_urls text) as [|u0 urls] eqn:E; [apply rt_refl|].
  apply fold_validation_redaction. intros u Hu.
  apply (findall_urls_sound text). now rewrite E.
Qed.

End Validator.

(* ================================================================== *)
(** * Properties: the language detector *)
(* ================================================================== *)

Section Detector.
Import LanguageDetector.
Context {RT : PyRuntime}.

Lemma filter_none {A : Type} (p : A -> bool) (l : list A) :
  (forall x, In x l -> p x = false) -> filter p l = [].
Proof.
  induction l as [|x l IH]; intro H; [reflexivity|].
  simpl. rewrite (H x (or_introl eq_refl)). apply IH.
  intros y Hy. apply H. now right.
Qed.

Lemma space_not_arabic c : is_space c = true -> is_arabic_char c = false.
Proof.
  unfold is_space, is_arabic_char. intro H.
  repeat rewrite orb_true_iff in H. repeat rewrite andb_true_iff in H.
  repeat rewrite N.leb_le in H. repeat rewrite N.eqb_eq in H.
  repeat rewrite orb_false_iff. repeat rewrite andb_false_iff.
  repeat rewrite N.leb_gt. lia.
Qed.

Lemma space_not_english c : is_space c = true -> is_english_char c = false.
Proof.
  unfold is_space, is_english_char. intro H.
  repeat rewrite orb_true_iff in H. repeat rewrite andb_true_iff in H.
  repeat rewrite N.leb_le in H. repeat rewrite N.eqb_eq in H.
  repeat rewrite orb_false_iff. repeat rewrite andb_false_iff.
  repeat rewrite N.leb_gt. lia.
Qed.

Lemma space_not_other c : is_space c = true -> is_other_char c = false.
Proof.
  unfold is_other_char. intros ->. now rewrite orb_true_r.
Qed.

Lemma count_chars_spaces (p : char -> bool) (s : str) :
  (forall c, is_space c = true -> p c = false) ->
  forallb is_space s = true -> count_chars p s = 0.
Proof.
  intros Hp Hs. unfold count_chars. rewrite filter_none; [reflexivity|].
  intros c Hc. apply Hp. rewrite forallb_forall in Hs. now apply Hs.
Qed.

(** On a text of white space only, nothing but the last branch of the
    classification applies. *)
Lemma detect_whitespace `{!PyRuntimeLaws RT} c s :
  forallb is_space (c :: s) = true ->
  detect_with_confidence (c :: s) = (UNKNOWN, (5 # 10)%Q).
Proof.
  intro Hs. unfold detect_with_confidence.
  rewrite (lower_space _ Hs), (strip_all_space _ Hs).
  cbn [str_mem existsb short_english_words].
  replace (str_mem [] short_english_words) with false
    by (vm_compute; reflexivity).
  cbn [_calculate_egyptian_score].
  replace (Qgtb 0 (6 # 10)) with false by (vm_compute; reflexivity).
  rewrite (count_chars_spaces is_arabic_char _ space_not_arabic Hs).
  rewrite (count_chars_spaces is_english_char _ space_not_english Hs).
  rewrite (count_chars_spaces is_other_char _ space_not_other Hs).
  reflexivity.
Qed.

End Detector.

(* ================================================================== *)
(** * Properties: binary64 comparisons, products and the cosine *)
(* ================================================================== *)

Section FloatOrder.
Import FloatOrderSpec.
Local Open Scope Z_scope.









End FloatOrder.

Section FloatComparisons.
Import FloatOrderSpec.











End FloatComparisons.

Section SequentialDot.




End SequentialDot.

Section Cosine.
Import EmbeddingService.
Context {RT : PyRuntime}.




Lemma cosine_defined (v1 v2 : vec) :
  length v1 = length v2 ->
  exists s, _calculate_cosine_similarity v1 v2 = Some s.
Proof.
  intro H. unfold _calculate_cosine_similarity. cbv zeta.
  destruct (_ || _); [now eexists|].
  rewrite H, Nat.eqb_refl. now eexists.
Qed.


End Cosine.

(* ================================================================== *)
(** * Properties: sorting and the scoring loops *)
(* ================================================================== *)

Section SearchFacts.
Import EmbeddingService SearchSpec.
Local Open Scope R_scope.
Context {RT : PyRuntime}.

Lemma insert_desc_perm key x l : Permutation (insert_desc key x l) (x :: l).
Proof.
  induction l as [|y l IH]; simpl; [apply Permutation_refl|].
  destruct (Rlt_dec (key x) (key y)); [|apply Permutation_refl].
  apply perm_trans with (y :: x :: l); [now apply perm_skip|apply perm_swap].
Qed.

Lemma sort_desc_perm key l : Permutation (sort_desc key l) l.
Proof.
  induction l as [|x l IH]; simpl; [apply perm_nil|].
  apply perm_trans with (x :: sort_desc key l);
    [apply insert_desc_perm | now apply perm_skip].
Qed.

Lemma sort_desc_In key l d : In d (sort_desc key l) <-> In d l.
Proof.
  split; apply Permutation_in;
    [apply sort_desc_perm | apply Permutation_sym, sort_desc_perm].
Qed.

Lemma insert_desc_sorted key x l :
  StronglySorted (desc key) l ->
  StronglySorted (desc key) (insert_desc key x l).
Proof.
  induction l as [|y l IH]; intro S; simpl.
  - constructor; constructor.
  - inversion S as [|? ? S' F]; subst.
    destruct (Rlt_dec (key x) (key y)) as [Lt|Ge].
    + constructor; [now apply IH|].
      apply Forall_forall. intros z Hz.
      apply (Permutation_in _ (insert_desc_perm key x l)) in Hz.
      destruct Hz as [<- | Hz]; [unfold desc; lra|].
      rewrite Forall_forall in F. now apply F.
    + constructor; [assumption|].
      constructor; [unfold desc; lra|].
      apply Forall_forall. intros z Hz. rewrite Forall_forall in F.
      specialize (F z Hz). unfold desc in *. lra.
Qed.

Lemma sort_desc_sorted key l : StronglySorted (desc key) (sort_desc key l).
Proof.
  induction l as [|x l IH]; simpl; [constructor|].
  now apply insert_desc_sorted.
Qed.



(** ** The sort on float keys *)

Lemma insert_desc_float_perm key x l :
  Permutation (insert_desc_float key x l) (x :: l).
Proof.
  induction l as [|y l IH]; simpl; [apply Permutation_refl|].
  destruct (key x <? key y)%float; [|apply Permutation_refl].
  apply perm_trans with (y :: x :: l); [now apply perm_skip|apply perm_swap].
Qed.

Lemma insertion_float_perm key l :
  Permutation (fold_right (insert_desc_float key) [] l) l.
Proof.
  induction l as [|x l IH]; simpl; [apply perm_nil|].
  apply perm_trans with (x :: fold_right (insert_desc_float key) [] l);
    [apply insert_desc_float_perm | now apply perm_skip].
Qed.

Lemma reorder_In l order d : In d (reorder l order) -> In d l.
Proof.
  unfold reorder. intro H. apply in_flat_map in H as (i & _ & H).
  destruct (nth_error l i) as [d'|] eqn:E; [|destruct H].
  destruct H as [<- | []]. now apply (nth_error_In l i).
Qed.

(** With or without NaN, the sort returns members of the list. *)
Lemma sort_desc_float_In key l d : In d (sort_desc_float key l) -> In d l.
Proof.
  unfold sort_desc_float. destruct (existsb _ l).
  - apply reorder_In.
  - apply Permutation_in, insertion_float_perm.
Qed.







Lemma In_firstn {A : Type} (n : nat) (l : list A) x :
  In x (firstn n l) -> In x l.
Proof.
  revert l; induction n as [|n IH]; intros [|y l]; simpl; try tauto.
  intros [-> | H]; auto.
Qed.

(** ** Reading a scored row *)

Lemma dict_get_set_same k v d : dict_get k (dict_set k v d) = Some v.
Proof.
  induction d as [|[k' v'] d IH]; simpl.
  - now rewrite String.eqb_refl.
  - destruct (String.eqb k k') eqn:E; simpl.
    + now rewrite String.eqb_refl.
    + rewrite E. exact IH.
Qed.

Lemma dict_get_set_other k k' v d :
  k <> k' -> dict_get k' (dict_set k v d) = dict_get k' d.
Proof.
  intro Hne. induction d as [|[k0 v0] d IH]; simpl.
  - destruct (String.eqb k' k) eqn:E; [|reflexivity].
    apply String.eqb_eq in E. congruence.
  - destruct (String.eqb k k0) eqn:E; simpl.
    + apply String.eqb_eq in E. subst k0.
      destruct (String.eqb k' k) eqn:E'; [|reflexivity].
      apply String.eqb_eq in E'. congruence.
    + destruct (String.eqb k' k0); auto.
Qed.

Lemma with_similarity_score item s :
  number_of "similarity" (with_similarity item s) = s.
Proof.
  unfold number_of, with_similarity.
  rewrite dict_get_set_other by discriminate.
  now rewrite dict_get_set_same.
Qed.

Lemma with_similarity_embedding item s :
  dict_get "embedding" (with_similarity item s) = dict_get "embedding" item.
Proof.
  unfold with_similarity.
  now rewrite !dict_get_set_other by discriminate.
Qed.


Lemma with_cosine_embedding item s :
  dict_get "embedding" (with_cosine item s) = dict_get "embedding" item.
Proof.
  unfold with_cosine.
  now rewrite !dict_get_set_other by discriminate.
Qed.

(** ** The scoring loop of the vector search *)

Lemma score_roadmaps_total query_vec roadmaps :
  score_roadmaps query_vec roadmaps
  = Some (flat_map (scored_entry query_vec) roadmaps).
Proof.
  induction roadmaps as [|r rs IH]; [reflexivity|].
  cbn [score_roadmaps flat_map]. unfold scored_entry at 1, comparable.
  destruct (dict_get "embedding" r) as [[| | |[|x v]| |]|]; try exact IH.
  destruct (length query_vec =? length (x :: v))%nat eqn:E; cbn [negb];
    [|exact IH].
  apply Nat.eqb_eq in E. destruct (cosine_defined _ _ E) as (s & Hs).
  rewrite Hs, IH. reflexivity.
Qed.

Lemma scored_entry_inv query_vec roadmap d :
  In d (scored_entry query_vec roadmap) ->
  exists doc_vec s,
    comparable query_vec roadmap = Some doc_vec
    /\ _calculate_cosine_similarity query_vec doc_vec = Some s
    /\ d = with_cosine roadmap s.
Proof.
  unfold scored_entry.
  destruct (comparable query_vec roadmap) as [doc_vec|]; [|intros []].
  destruct (_calculate_cosine_similarity query_vec doc_vec) as [s|] eqn:E;
    [|intros []].
  intros [<- | []]. now exists doc_vec, s.
Qed.

Lemma comparable_length query_vec roadmap doc_vec :
  comparable query_vec roadmap = Some doc_vec ->
  dict_get "embedding" roadmap = Some (VVec doc_vec)
  /\ length doc_vec = length query_vec.
Proof.
  unfold comparable.
  destruct (dict_get "embedding" roadmap) as [[| | |[|x v]| |]|];
    try discriminate.
  destruct (length query_vec =? length (x :: v))%nat eqn:E; [|discriminate].
  intro H. injection H as <-. apply Nat.eqb_eq in E. auto.
Qed.

Lemma mismatch_not_scored query_vec roadmap :
  dimension_mismatch query_vec roadmap -> scored_entry query_vec roadmap = [].
Proof.
  intros (v & Hv & Hl). unfold scored_entry.
  destruct (comparable query_vec roadmap) as [doc_vec|] eqn:E;
    [|reflexivity].
  apply comparable_length in E as [E1 E2]. congruence.
Qed.

End SearchFacts.

(* ================================================================== *)
(** * Properties: the embedding collaborator and the fuzzy scores *)
(* ================================================================== *)

Section EmbeddingFacts.
Import EmbeddingService SearchSpec.
Context {RT : PyRuntime}.

Lemma generate_embedding_dim m text e :
  generate_embedding m text = Some e -> length e = embedding_dim.
Proof.
  unfold generate_embedding.
  destruct text as [|c t]; [discriminate|].
  destruct (strip (c :: t)) as [|c' t']; [discriminate|].
  destruct (negb (_available m)); [discriminate|].
  destruct (encode m (c' :: t')) as [emb|]; [|discriminate].
  destruct (length emb =? embedding_dim)%nat eqn:E; cbn [negb];
    [|discriminate].
  intro H. injection H as <-. now apply Nat.eqb_eq.
Qed.

Lemma generate_embedding_unavailable m text :
  _available m = false -> generate_embedding m text = None.
Proof.
  intro H. unfold generate_embedding.
  destruct text as [|c t]; [reflexivity|].
  destruct (strip (c :: t)) as [|c' t']; [reflexivity|].
  now rewrite H.
Qed.

Lemma generate_embedding_ok m text e :
  strip text <> [] -> _available m = true ->
  encode m (strip text) = Some e -> length e = embedding_dim ->
  generate_embedding m text = Some e.
Proof.
  intros Hs Ha He Hl. unfold generate_embedding.
  destruct text as [|c0 t0]; [exfalso; apply Hs; reflexivity|].
  destruct (strip (c0 :: t0)) as [|c s]; [congruence|].
  rewrite Ha, He. cbn [negb].
  apply Nat.eqb_eq in Hl. now rewrite Hl.
Qed.

(** Every candidate the vector search returns was compared with the
    query, on vectors of the same dimension. *)
Lemma client_vector_search_found m query_text roadmaps limit results :
  client_vector_search m query_text roadmaps limit = Found results ->
  exists query_vec,
    generate_embedding m query_text = Some query_vec
    /\ results = firstn limit
                   (sort_desc_float (float_of "similarity")
                      (flat_map (scored_entry query_vec) roadmaps)).
Proof.
  unfold client_vector_search.
  destruct (_available m); [|discriminate].
  destruct (generate_embedding m query_text) as [[|q qs]|] eqn:G;
    try discriminate.
  rewrite score_roadmaps_total.
  destruct (flat_map (scored_entry (q :: qs)) roadmaps) as [|r rs] eqn:F;
    [discriminate|].
  intro H. injection H as <-. exists (q :: qs). split; [reflexivity|].
  now rewrite F.
Qed.

Lemma client_vector_search_never_raises m query_text roadmaps limit :
  client_vector_search m query_text roadmaps limit <> Raised.
Proof.
  unfold client_vector_search.
  destruct (_available m); [|discriminate].
  destruct (generate_embedding m query_text) as [[|q qs]|];
    try discriminate.
  rewrite score_roadmaps_total.
  destruct (flat_map (scored_entry (q :: qs)) roadmaps); discriminate.
Qed.

Lemma In_scored_entries query_vec roadmaps d :
  In d (flat_map (scored_entry query_vec) roadmaps) ->
  exists roadmap doc_vec s,
    In roadmap roadmaps
    /\ comparable query_vec roadmap = Some doc_vec
    /\ _calculate_cosine_similarity query_vec doc_vec = Some s
    /\ d = with_cosine roadmap s.
Proof.
  intro H. apply in_flat_map in H as (r & Hr & Hd).
  destruct (scored_entry_inv _ _ _ Hd) as (doc_vec & s & H1 & H2 & H3).
  now exists r, doc_vec, s.
Qed.

(** ** The worked examples: an opposite candidate, an equal one *)

Lemma unit_vec_length : length unit_vec = embedding_dim.
Proof.
  unfold unit_vec, embedding_dim. cbn [length]. now rewrite repeat_length.
Qed.

Lemma cosine_unit_opposite :
  _calculate_cosine_similarity (H := ascii_runtime) unit_vec opposite_vec
  = Some (-1)%float.
Proof. vm_compute. reflexivity. Qed.

Lemma cosine_triple_self :
  _calculate_cosine_similarity (H := ascii_runtime) triple_vec triple_vec
  = Some 0x1.0000000000001p+0%float.
Proof. vm_compute. reflexivity. Qed.

Lemma cosine_huge_self :
  _calculate_cosine_similarity (H := ascii_runtime) huge_vec huge_vec
  = Some nan.
Proof. vm_compute. reflexivity. Qed.



End EmbeddingFacts.

Section FuzzyFacts.
Import EmbeddingService RoadmapService SearchSpec.
Context {RT : PyRuntime} {L : PyRuntimeLaws RT}.
Local Open Scope R_scope.

Lemma similarity_range a b : 0 <= _calculate_similarity a b <= 1.
Proof. unfold _calculate_similarity. apply ratio_range. Qed.

Lemma Rmax_range a b : 0 <= a <= 1 -> 0 <= b <= 1 -> 0 <= Rmax a b <= 1.
Proof. intros Ha Hb. unfold Rmax. destruct (Rle_dec a b); lra. Qed.

Lemma max_score_loop_range t d c text qs : forall m,
  0 <= m <= 1 -> 0 <= max_score_loop t d c text m qs <= 1.
Proof.
  induction qs as [|q qs IH]; intros m Hm; cbn [max_score_loop];
    [exact Hm|].
  destruct (contains (clean_and_hyphen q) text).
  - apply Rmax_range; lra.
  - apply IH. repeat apply Rmax_range; try exact Hm;
      apply similarity_range.
Qed.

Lemma roadmap_score_range qs fields : 0 <= roadmap_score qs fields <= 1.
Proof.
  destruct fields as [[t d] c]. unfold roadmap_score.
  apply max_score_loop_range. lra.
Qed.

Lemma max_score_loop_ge t d c text qs : forall m,
  m <= max_score_loop t d c text m qs.
Proof.
  induction qs as [|q qs IH]; intros m; cbn [max_score_loop]; [lra|].
  destruct (contains (clean_and_hyphen q) text).
  - apply Rmax_l.
  - eapply Rle_trans; [|apply IH].
    eapply Rle_trans; [|apply Rmax_l].
    eapply Rle_trans; [|apply Rmax_l]. apply Rmax_l.
Qed.

(** A variant found as it is in the searchable text gives the score 1,
    wherever it comes in the list of variants. *)
Lemma max_score_loop_direct t d c text qs : forall m,
  (exists q, In q qs /\ contains (clean_and_hyphen q) text = true) ->
  1 <= max_score_loop t d c text m qs.
Proof.
  induction qs as [|q qs IH]; intros m (q0 & Hin & Hq); [destruct Hin|].
  cbn [max_score_loop].
  destruct (contains (clean_and_hyphen q) text) eqn:E; [apply Rmax_r|].
  apply IH. destruct Hin as [-> | Hin]; [congruence|]. now exists q0.
Qed.

Lemma with_score_similarity roadmap s :
  number_of "similarity" (with_score roadmap s) = s
  /\ number_of "similarity_score" (with_score roadmap s) = s.
Proof.
  unfold number_of, with_score. split.
  - now rewrite dict_get_set_same.
  - rewrite dict_get_set_other by discriminate.
    now rewrite dict_get_set_same.
Qed.


End FuzzyFacts.

(* ================================================================== *)
(** * Properties: the cascades without embeddings *)
(* ================================================================== *)

Section CascadeFacts.
Import EmbeddingService RoadmapService RAGService TierThreeSpec SearchSpec.
Import CascadeSpec.
Context {RT : PyRuntime}.
Local Open Scope R_scope.

Lemma vector_search_unavailable m db query limit :
  _available m = false -> _vector_search m db query limit = [].
Proof. intro H. unfold _vector_search, is_available. now rewrite H. Qed.

Lemma client_vector_search_unavailable m query roadmaps limit :
  _available m = false ->
  client_vector_search m query roadmaps limit = NoResult.
Proof. intro H. unfold client_vector_search. now rewrite H. Qed.

Lemma fuzzy_search_unavailable m db query limit :
  _available m = false ->
  _fuzzy_search m db query limit =
  match roadmaps_all db with
  | Some all_roadmaps =>
    match text_matching query all_roadmaps limit with
    | Some results => results
    | None => []
    end
  | None => []
  end.
Proof.
  intro H. unfold _fuzzy_search, is_available. rewrite H.
  destruct (roadmaps_all db) as [[|r rs]|]; try reflexivity.
  - unfold text_matching. cbn [score_all sort_desc fold_right].
    now rewrite firstn_nil.
  - now rewrite andb_false_r.
Qed.

Lemma search_roadmaps_unavailable m db query limit use_embeddings :
  _available m = false ->
  search_roadmaps m db query limit use_embeddings =
  match roadmaps_all db with
  | Some all_roadmaps =>
    match text_matching query all_roadmaps limit with
    | Some results => results
    | None => []
    end
  | None => []
  end.
Proof.
  intro H. unfold search_roadmaps.
  rewrite (vector_search_unavailable _ _ _ _ H).
  destruct use_embeddings; now apply fuzzy_search_unavailable.
Qed.

Lemma search_faqs_unavailable m db query language :
  _available m = false ->
  search_faqs m db query language =
  match faqs_active db with
  | Some all_faqs => _keyword_search_fallback query all_faqs 5
  | None => []
  end.
Proof.
  intro H. unfold search_faqs.
  rewrite (generate_embedding_unavailable _ _ H).
  destruct (faqs_active db) as [[|f fs]|]; try reflexivity.
  unfold search_similar_roadmaps.
  now rewrite (client_vector_search_unavailable _ _ _ _ H).
Qed.

(** ** The text matching of the code and Tier 3 of the specification *)

Lemma insert_desc_ext key1 key2 x l :
  key1 x = key2 x -> (forall d, In d l -> key1 d = key2 d) ->
  insert_desc key1 x l = insert_desc key2 x l.
Proof.
  intros Hx. induction l as [|y l IH]; intro H; [reflexivity|].
  cbn [insert_desc]. rewrite Hx, (H y (or_introl eq_refl)).
  destruct (Rlt_dec (key2 x) (key2 y)); [|reflexivity].
  rewrite IH; [reflexivity|]. intros d Hd. apply H. now right.
Qed.

Lemma sort_desc_ext key1 key2 l :
  (forall d, In d l -> key1 d = key2 d) ->
  sort_desc key1 l = sort_desc key2 l.
Proof.
  induction l as [|x l IH]; intro H; [reflexivity|].
  cbn [sort_desc fold_right]. fold (sort_desc key1 l) (sort_desc key2 l).
  rewrite IH by (intros d Hd; apply H; now right).
  apply insert_desc_ext; [apply H; now left|].
  intros d Hd. apply sort_desc_In in Hd. apply H. now right.
Qed.

Context {L : PyRuntimeLaws RT}.

Lemma set_order_In l x : In x (set_order l) <-> In x l.
Proof.
  rewrite <- (nodup_In (list_eq_dec N.eq_dec) l x).
  split; apply Permutation_in;
    [apply set_order_perm | apply Permutation_sym, set_order_perm].
Qed.

(** ** The worked example: the query [react] on one FAQ *)

Lemma react_lower : py_lower react_query = react_query.
Proof.
  rewrite lower_ascii by (vm_compute; reflexivity).
  vm_compute. reflexivity.
Qed.

Lemma react_keyword_score :
  keyword_score (nodup str_eq_dec (split_ws react_query)) frontend_faq = 0.
Proof.
  unfold keyword_score.
  set (joined :=
         join (utf8 " ")
           (map str_of_value
              (filter truthy
                 (map (fun k => item_get k frontend_faq) text_fields)))).
  assert (J : joined = utf8 "What is frontend development? Building user interfaces.")
    by (vm_compute; reflexivity).
  rewrite J. rewrite lower_ascii by (vm_compute; reflexivity).
  set (words := split_ws (map ascii_lower _)).
  assert (W : words = [utf8 "what"; utf8 "is"; utf8 "frontend";
                       utf8 "development?"; utf8 "building"; utf8 "user";
                       utf8 "interfaces."])
    by (vm_compute; reflexivity).
  rewrite W.
  assert (Q : nodup str_eq_dec (split_ws react_query) = [react_query])
    by (vm_compute; reflexivity).
  rewrite Q.
  assert (F : filter
                (fun w => str_mem w
                   [utf8 "what"; utf8 "is"; utf8 "frontend";
                    utf8 "development?"; utf8 "building"; utf8 "user";
                    utf8 "interfaces."])
                [react_query] = [])
    by (vm_compute; reflexivity).
  cbv beta iota. rewrite F. cbn [length INR]. unfold Rdiv. ring.
Qed.

Lemma react_keyword_fallback :
  _keyword_search_fallback react_query [frontend_faq] 5 = [].
Proof.
  unfold _keyword_search_fallback. rewrite react_lower.
  cbn [flat_map]. rewrite react_keyword_score.
  destruct (Rlt_dec 0 0) as [Bad|_]; [exfalso; lra|]. reflexivity.
Qed.

Lemma react_search_faqs :
  search_faqs no_model faq_store react_query (utf8 "en") = [].
Proof.
  rewrite search_faqs_unavailable by reflexivity.
  cbn [faqs_active faq_store]. apply react_keyword_fallback.
Qed.

End CascadeFacts.

(* ================================================================== *)
(** * Properties: generation and the orchestrator *)
(* ================================================================== *)

Section ChatFacts.
Import LanguageDetector EmbeddingService LLMService ChatService.
Context {RT : PyRuntime}.

(** The body catches every exception, so the decorator never sees one:
    the wrapped function runs once. *)
Lemma generate_response_once complete context user_language calls :
  generate_response complete context user_language calls
  = generate_response_body complete context user_language calls.
Proof.
  unfold generate_response, retrying, generate_response_body.
  destruct (complete calls); reflexivity.
Qed.

Lemma generate_response_failure complete context user_language calls e :
  complete calls = inl e ->
  generate_response complete context user_language calls
  = (inr {| text := error_messages user_language;
            confidence := (3 # 10)%Q |}, S calls).
Proof.
  intro H. rewrite generate_response_once.
  unfold generate_response_body. now rewrite H.
Qed.

Lemma refine_message_conversations env w message session :
  conversations (snd (refine_message env w message session))
  = conversations w.
Proof.
  unfold refine_message.
  destruct (_get_conversation_history env w session 8); [reflexivity|].
  destruct (contextualize_query _ _ _ _). reflexivity.
Qed.

Lemma refine_message_calls env w message session :
  llm_calls (snd (refine_message env w message session))
  = (llm_calls w
     + match _get_conversation_history env w session 8 with
       | [] => 0
       | _ :: _ => 1
       end)%nat.
Proof.
  unfold refine_message.
  destruct (_get_conversation_history env w session 8) as [|h hs];
    [cbn; lia|].
  unfold contextualize_query.
  destruct (complete env (llm_calls w)); cbn; lia.
Qed.

(** The short circuit of the roadmap branch. *)
Lemma process_message_no_roadmap env w message sid pref :
  _detect_roadmap_request
    (fst (refine_message env w message (resolve_session env sid))) <> None ->
  RoadmapService.search_roadmaps (model env) (db env)
    (fst (refine_message env w message (resolve_session env sid))) 3 true
  = [] ->
  process_message env w message sid pref
  = (_generate_fallback_response
       (_determine_response_language
          (fst (detect_with_confidence message)) pref)
       (resolve_session env sid)
       (language_value (fst (detect_with_confidence message))),
     snd (refine_message env w message (resolve_session env sid))).
Proof.
  intros Hreq Hnone. unfold process_message.
  destruct (detect_with_confidence message) as [dl conf].
  destruct (refine_message env w message (resolve_session env sid))
    as [rf wr].
  cbn [fst snd] in *.
  destruct (_detect_roadmap_request rf); [|congruence].
  now rewrite Hnone.
Qed.

End ChatFacts.

Section FollowupExample.
Import LanguageDetector EmbeddingService LLMService ChatService.

Lemma followup_refined :
  refine_message answering_env one_turn_world (utf8 "what about it")
    (resolve_session answering_env (Some (utf8 "session-1")))
  = (utf8 "rust roadmap",
     {| conversations := conversations one_turn_world; llm_calls := 1 |}).
Proof. vm_compute. reflexivity. Qed.

Lemma followup_is_roadmap_request :
  _detect_roadmap_request (H := ascii_runtime) (utf8 "rust roadmap") <> None.
Proof. vm_compute. discriminate. Qed.

Lemma followup_search_empty :
  RoadmapService.search_roadmaps (H := ascii_runtime) no_model empty_store
    (utf8 "rust roadmap") 3 true = [].
Proof.
  rewrite search_roadmaps_unavailable by reflexivity. reflexivity.
Qed.

Lemma followup_outcome_value :
  followup_outcome
  = (_generate_fallback_response ENGLISH (utf8 "session-1") (utf8 "en"),
     {| conversations := conversations one_turn_world; llm_calls := 1 |}).
Proof.
  unfold followup_outcome.
  rewrite process_message_no_roadmap.
  - rewrite followup_refined. cbn [snd].
    assert (D : fst (detect_with_confidence (H := ascii_runtime)
                       (utf8 "what about it")) = ENGLISH)
      by (vm_compute; reflexivity).
    rewrite D.
    assert (U : _determine_response_language ENGLISH (utf8 "en") = ENGLISH)
      by (vm_compute; reflexivity).
    assert (S : resolve_session answering_env (Some (utf8 "session-1"))
                = utf8 "session-1") by (vm_compute; reflexivity).
    assert (V : language_value ENGLISH = utf8 "en")
      by (vm_compute; reflexivity).
    rewrite U, S, V. reflexivity.
  - rewrite followup_refined. apply followup_is_roadmap_request.
  - rewrite followup_refined. apply followup_search_empty.
Qed.

End FollowupExample.

(* ================================================================== *)
(** * Further properties: the language detector *)
(* ================================================================== *)

Section DetectorRanges.
Import LanguageDetector.
Context {RT : PyRuntime}.
Local Open Scope Q_scope.





Lemma filter_length_le {A : Type} (p : A -> bool) (l : list A) :
  (length (filter p l) <= length l)%nat.
Proof.
  induction l as [|x l IH]; simpl; [lia|]. destruct (p x); simpl; lia.
Qed.




End DetectorRanges.

(* ================================================================== *)
(** * Further properties: the orchestrator *)
(* ================================================================== *)

Section OrchestratorFacts.
Import LanguageDetector EmbeddingService LLMService ChatService.
Context {RT : PyRuntime}.

Lemma save_conversation_calls env w sid um br lang :
  llm_calls (_save_conversation env w sid um br lang) = llm_calls w.
Proof.
  unfold _save_conversation, add_turn.
  repeat destruct (insert_ok env _); reflexivity.
Qed.

(** What the persistence step adds: nothing, the user turn, or the user
    turn followed by the assistant turn. *)
Lemma save_conversation_added env w sid um br lang :
  exists added,
    conversations (_save_conversation env w sid um br lang)
    = conversations w ++ added
    /\ (length added <= 2)%nat
    /\ Forall (fun t => turn_session t = sid) added.
Proof.
  unfold _save_conversation, add_turn. cbv zeta.
  set (ut := {| turn_session := sid; turn_role := utf8 "user";
                turn_content := um; turn_language := lang |}).
  set (bt := {| turn_session := sid; turn_role := utf8 "assistant";
                turn_content := br; turn_language := lang |}).
  destruct (insert_ok env ut).
  - destruct (insert_ok env bt); cbn [conversations].
    + exists [ut; bt]. rewrite <- app_assoc. split; [reflexivity|].
      split; [cbn; lia|]. repeat constructor.
    + exists [ut]. split; [reflexivity|]. split; [cbn; lia|].
      repeat constructor.
  - exists []. rewrite app_nil_r. split; [reflexivity|].
    split; [cbn; lia|constructor].
Qed.

(** The generation step answers with the reply of one call, successful
    (confidence 0.9) or not (0.3), and persists it. *)
Lemma generate_and_save_outcome env w message session pref dl conf ul
      context :
  exists reply,
    (confidence reply = (9 # 10)%Q \/ confidence reply = (3 # 10)%Q)
    /\ generate_and_save env w message session pref dl conf ul context
       = ({| response := text reply;
             session_id := session;
             user_language := language_value ul;
             detected_language := Some (language_value dl);
             language_confidence := Some conf;
             response_language := language_value ul;
             is_egyptian := language_eqb ul ARABIC_EGYPTIAN;
             chat_confidence := confidence reply |},
          _save_conversation env
            {| conversations := conversations w;
               llm_calls := S (llm_calls w) |}
            session message (text reply) (language_value ul)).
Proof.
  unfold generate_and_save. rewrite generate_response_once.
  unfold generate_response_body.
  destruct (complete env (llm_calls w)) as [e|raw]; eexists;
    (split; [|reflexivity]); cbn [confidence]; auto.
Qed.

(** The three ways a request ends. *)
Lemma process_message_cases env w message sid pref :
  let session := resolve_session env sid in
  let w1 := snd (refine_message env w message session) in
  let detected := fst (detect_with_confidence message) in
  let ul := _determine_response_language detected pref in
  process_message env w message sid pref
  = (_generate_fallback_response ul session (language_value detected), w1)
  \/ process_message env w message sid pref
     = (_generate_error_response pref session, w1)
  \/ exists context,
       process_message env w message sid pref
       = generate_and_save env w1 message session pref detected
           (snd (detect_with_confidence message)) ul context.
Proof.
  intros session w1 detected ul. unfold process_message.
  fold session. unfold w1, ul, detected.
  destruct (detect_with_confidence message) as [dl conf].
  destruct (refine_message env w message session) as [rf wr].
  cbn [fst snd].
  destruct (_detect_roadmap_request rf).
  - destruct (RoadmapService.search_roadmaps _ _ rf 3 true) as [|r rs];
      [now left|].
    destruct (_format_roadmap_context (r :: rs)) as [context|].
    + right. right. now exists context.
    + right. now left.
  - right. right. eexists. reflexivity.
Qed.

End OrchestratorFacts.

(* ================================================================== *)
(** * Further properties: strings, validator, cleaning *)
(* ================================================================== *)

Section StringExtras.

Lemma drop_while_app_all (p : char -> bool) (a b : str) :
  forallb p a = true -> drop_while p (a ++ b) = drop_while p b.
Proof.
  induction a as [|c a IH]; simpl; [reflexivity|].
  intro H. apply andb_true_iff in H as [-> H]. auto.
Qed.

Lemma forallb_rev (p : char -> bool) (s : str) :
  forallb p (rev s) = forallb p s.
Proof.
  induction s as [|c s IH]; [reflexivity|].
  simpl. rewrite forallb_app, IH. simpl. rewrite andb_true_r.
  apply andb_comm.
Qed.

(** Stripping on the right forgets a suffix of stripped characters. *)
Lemma rstrip_by_app_all (p : char -> bool) (u ps : str) :
  forallb p ps = true -> rstrip_by p (u ++ ps) = rstrip_by p u.
Proof.
  intro H. unfold rstrip_by. rewrite rev_app_distr.
  rewrite drop_while_app_all; [reflexivity|]. now rewrite forallb_rev.
Qed.

Lemma rstrip_by_keeps (p : char -> bool) (u : str) c :
  p c = false -> rstrip_by p (u ++ [c]) = u ++ [c].
Proof.
  intro H. unfold rstrip_by. rewrite rev_app_distr. simpl. rewrite H.
  simpl. now rewrite rev_involutive.
Qed.

(** What [rstrip] does: it removes the longest suffix of stripped
    characters, and what is left does not end with one. *)
Lemma rstrip_by_decompose (p : char -> bool) (s : str) :
  exists tail,
    s = rstrip_by p s ++ tail
    /\ forallb p tail = true
    /\ (forall r c, rstrip_by p s = r ++ [c] -> p c = false).
Proof.
  exists (rev (take_while p (rev s))). unfold rstrip_by. split; [|split].
  - rewrite <- rev_app_distr, take_drop_while. now rewrite rev_involutive.
  - rewrite forallb_rev. apply take_while_all.
  - intros r c E.
    assert (D : drop_while p (rev s) = c :: rev r).
    { rewrite <- (rev_involutive (drop_while p (rev s))), E.
      rewrite rev_app_distr. reflexivity. }
    now apply (drop_while_head p (rev s) c (rev r)).
Qed.

(** Replacing a one-character string works character by character. *)
Lemma replace_from_single c new s :
  replace_from 0 [c] new s
  = flat_map (fun x => if (c =? x)%N then new else [x]) s.
Proof.
  induction s as [|x s IH]; [reflexivity|].
  cbn [replace_from startswith flat_map length pred].
  destruct (c =? x)%N; cbn [andb]; rewrite IH.
  - destruct s; reflexivity.
  - reflexivity.
Qed.

Lemma replace_single_delete c s :
  replace [c] [] s = filter (fun x => negb (c =? x)%N) s.
Proof.
  unfold replace. rewrite replace_from_single.
  induction s as [|x s IH]; [reflexivity|].
  simpl. destruct (c =? x)%N; simpl; now rewrite IH.
Qed.

Lemma replace_from_Forall (P : char -> Prop) old new s : forall skip,
  Forall P new -> Forall P s -> Forall P (replace_from skip old new s).
Proof.
  induction s as [|x s IH]; intros skip Hn Hs; [constructor|].
  inversion Hs as [|? ? Hx Hs']; subst. cbn [replace_from].
  destruct skip as [|k]; [|now apply IH].
  destruct (startswith old (x :: s)).
  - apply Forall_app. split; [assumption|now apply IH].
  - constructor; [assumption|now apply IH].
Qed.

(** A replacement by text that has a property keeps the property of the
    characters. *)
Lemma replace_Forall (P : char -> Prop) old new s :
  Forall P new -> Forall P s -> Forall P (replace old new s).
Proof.
  intros Hn Hs. unfold replace. destruct old as [|c old].
  - apply Forall_app. split; [assumption|].
    induction Hs as [|x s Hx Hs IH]; [constructor|].
    simpl. constructor; [assumption|].
    apply Forall_app. split; assumption.
  - now apply replace_from_Forall.
Qed.

Lemma drop_while_Forall (P : char -> Prop) p s :
  Forall P s -> Forall P (drop_while p s).
Proof.
  induction 1 as [|x s Hx Hs IH]; simpl; [constructor|].
  destruct (p x); [assumption|now constructor].
Qed.

Lemma strip_Forall (P : char -> Prop) s : Forall P s -> Forall P (strip s).
Proof.
  intro H. unfold strip, rstrip_by.
  apply Forall_rev, drop_while_Forall, Forall_rev.
  now apply drop_while_Forall.
Qed.

Lemma drop_while_head_false (p : char -> bool) s :
  match drop_while p s with
  | [] => True
  | c :: _ => p c = false
  end.
Proof.
  destruct (drop_while p s) as [|c r] eqn:E; [exact I|].
  now apply (drop_while_head p s c r).
Qed.

(** A stripped text neither starts nor ends with white space. *)
Lemma strip_ends (s : str) :
  (forall c r, strip s = c :: r -> is_space c = false)
  /\ (forall r c, strip s = r ++ [c] -> is_space c = false).
Proof.
  unfold strip, rstrip_by.
  set (t := drop_while is_space s).
  assert (Ht : forall c r, t = c :: r -> is_space c = false)
    by (intros c r; apply drop_while_head).
  split.
  - intros c r E.
    destruct (rev t) as [|x xs] eqn:R.
    + simpl in E. discriminate.
    + (* the stripped text is a prefix of [t] *)
      assert (Pre : exists z, t = rev (drop_while is_space (rev t)) ++ z).
      { exists (rev (take_while is_space (rev t))).
        rewrite <- rev_app_distr, take_drop_while. now rewrite rev_involutive. }
      destruct Pre as (z & Pz). rewrite R in Pz. rewrite E in Pz.
      simpl in Pz. now apply (Ht c (r ++ z)).
  - intros r c E.
    assert (D : drop_while is_space (rev t) = c :: rev r).
    { rewrite <- (rev_involutive (drop_while is_space (rev t))), E.
      rewrite rev_app_distr. reflexivity. }
    now apply (drop_while_head is_space (rev t) c (rev r)).
Qed.

End StringExtras.

Section ValidatorExtras.
Import LLMValidator ValidatorSpec ValidatorFacts.

(** Where the pattern finds nothing, [re.sub] changes nothing. *)
Lemma sub_urls_without_url P s : findall_urls s = [] -> sub_urls P s = s.
Proof.
  pattern s. apply scan_ind; clear s.
  - reflexivity.
  - intros c s M IH H. rewrite (findall_urls_miss _ _ M) in H.
    rewrite (sub_urls_miss _ _ _ M). now rewrite IH.
  - intros u r M _ _ H. rewrite (findall_urls_hit _ _ M) in H. discriminate.
Qed.

Lemma not_newline_match (A : Type) (c : char) (body : str)
      (f : str -> A) (g : A) :
  c <> 10%N ->
  match c :: body with
  | 10%N :: b => f b
  | _ => g
  end = g.
Proof.
  intro H.
  destruct c as [|[[[[]|[]|]|[[]|[]|]|]|[[[]|[]|]|[[]|[]|]|]|]];
    try reflexivity.
  now contradiction H.
Qed.

Lemma strip_trailing_punct_no_newline (u : str) :
  ~ In 10%N u -> strip_trailing_punct u = rstrip_by trailing_punct u.
Proof.
  intro H. unfold strip_trailing_punct.
  destruct (rev u) as [|c body] eqn:R; [reflexivity|].
  apply not_newline_match. intros ->. apply H.
  apply (proj2 (in_rev u 10%N)). rewrite R. now left.
Qed.

(** A URL found by the pattern holds no newline. *)
Lemma found_url_no_newline (s u : str) :
  In u (findall_urls s) -> ~ In 10%N u.
Proof.
  intros Hu Hin. apply findall_urls_sound in Hu as [(sch & body & Hs & -> & _ & Hb) _].
  apply in_app_or in Hin as [Hin | Hin].
  - assert (F : forallb (fun c => negb (c =? 10)%N) sch = true)
      by (destruct Hs as [-> | ->]; reflexivity).
    rewrite forallb_forall in F. specialize (F _ Hin). discriminate F.
  - rewrite forallb_forall in Hb. specialize (Hb _ Hin).
    vm_compute in Hb. discriminate Hb.
Qed.

Lemma punct_not_newline ps :
  forallb trailing_punct ps = true -> ~ In 10%N ps.
Proof.
  intros H Hin. rewrite forallb_forall in H. specialize (H _ Hin).
  vm_compute in H. discriminate.
Qed.

End ValidatorExtras.

(* ================================================================== *)
(** * The text matching of the code and Tier 3 of the specification *)
(* ================================================================== *)

Section Punctuation.
Import RoadmapService TierThreeSpec.

Lemma slash_lit : utf8 "/" = [47%N].
Proof. vm_compute. reflexivity. Qed.

Lemma hyphen_lit : utf8 "-" = [45%N].
Proof. vm_compute. reflexivity. Qed.

Lemma ampersand_lit : utf8 "&" = [38%N].
Proof. vm_compute. reflexivity. Qed.

Lemma blank_lit : utf8 " " = [32%N].
Proof. vm_compute. reflexivity. Qed.

Lemma and_lit : utf8 "and" = [97%N; 110%N; 100%N].
Proof. vm_compute. reflexivity. Qed.

Lemma replace_char c new s :
  replace [c] new s = flat_map (fun x => if (c =? x)%N then new else [x]) s.
Proof. unfold replace. apply replace_from_single. Qed.

Lemma replace_char_absent c new s : ~ In c s -> replace [c] new s = s.
Proof.
  rewrite replace_char. induction s as [|x s IH]; intro H; [reflexivity|].
  cbn [flat_map]. destruct (N.eqb_spec c x) as [->|_].
  - exfalso. apply H. now left.
  - cbn [app]. f_equal. apply IH. intro Hin. apply H. now right.
Qed.

Lemma clean_and_hyphen_chars (P : char -> Prop) s :
  P 32%N -> P 97%N -> P 110%N -> P 100%N ->
  Forall P s -> Forall P (clean_and_hyphen s).
Proof.
  intros H32 Ha Hn Hd Hs. unfold clean_and_hyphen, hyphen, space, ampersand.
  rewrite hyphen_lit, blank_lit, ampersand_lit, and_lit.
  apply replace_Forall; [repeat constructor; assumption|].
  apply replace_Forall; [repeat constructor; assumption|exact Hs].
Qed.

(** Without a slash, the normalization of the specification is the
    cleaning the code applies to titles, descriptions and variants. *)
Lemma normalize_without_slash s :
  ~ In 47%N s -> normalize_punctuation s = clean_and_hyphen s.
Proof.
  intro H.
  assert (C : ~ In 47%N (clean_and_hyphen s)).
  { assert (F : Forall (fun c => c <> 47%N) (clean_and_hyphen s)).
    { apply clean_and_hyphen_chars; try discriminate.
      apply Forall_forall. intros c Hc ->. now apply H. }
    intro Hin. rewrite Forall_forall in F. now apply (F _ Hin). }
  unfold normalize_punctuation.
  change (replace (utf8 "-") (utf8 " ") (replace (utf8 "&") (utf8 "and") s))
    with (clean_and_hyphen s).
  rewrite slash_lit. now apply replace_char_absent.
Qed.

Lemma flat_map_flat_map {A B C : Type} (f : B -> list C) (g : A -> list B)
      (l : list A) :
  flat_map f (flat_map g l) = flat_map (fun x => flat_map f (g x)) l.
Proof.
  induction l as [|x l IH]; [reflexivity|].
  simpl. now rewrite flat_map_app, IH.
Qed.

Lemma replace_slash_hyphen_swap s :
  replace [47%N] [32%N] (replace [45%N] [32%N] s)
  = replace [45%N] [32%N] (replace [47%N] [32%N] s).
Proof.
  rewrite !replace_char, !flat_map_flat_map. apply flat_map_ext.
  intro x.
  destruct (45 =? x)%N eqn:E45, (47 =? x)%N eqn:E47; cbn [flat_map app];
    rewrite ?E45, ?E47; reflexivity.
Qed.

(** Without an ampersand, it is the cleaning the code applies to
    categories. *)
Lemma normalize_without_ampersand s :
  ~ In 38%N s -> normalize_punctuation s = clean_slash_hyphen s.
Proof.
  intro H. unfold normalize_punctuation, clean_slash_hyphen.
  unfold hyphen, space, slash.
  rewrite slash_lit, hyphen_lit, blank_lit, ampersand_lit.
  rewrite (replace_char_absent 38%N _ s H).
  apply replace_slash_hyphen_swap.
Qed.

Lemma synonyms_without_slash key synonyms x :
  In (key, synonyms) SYNONYMS -> x = key \/ In x synonyms ->
  ~ In 47%N x.
Proof.
  intros Hk Hx.
  assert (C : forallb
                (fun e : str * list str =>
                   forallb (fun c => negb (47 =? c)%N) (fst e)
                   && forallb (forallb (fun c => negb (47 =? c)%N)) (snd e))
                SYNONYMS = true) by (vm_compute; reflexivity).
  rewrite forallb_forall in C. specialize (C _ Hk).
  apply andb_true_iff in C as [C1 C2]. cbn [fst snd] in C1, C2.
  assert (G : forallb (fun c => negb (47 =? c)%N) x = true).
  { destruct Hx as [-> | Hx]; [exact C1|].
    rewrite forallb_forall in C2. now apply C2. }
  intro Hin. rewrite forallb_forall in G. specialize (G _ Hin).
  rewrite N.eqb_refl in G. discriminate.
Qed.

End Punctuation.

Section Variants.
Import RoadmapService TierThreeSpec.
Context {RT : PyRuntime}.

Lemma entry_members q key synonyms x :
  In x ((if contains key q then synonyms else [])
        ++ (if existsb (fun synonym => contains synonym q) synonyms
            then key :: synonyms else []))
  <-> In x (expand_entry q (key, synonyms)).
Proof.
  unfold expand_entry. rewrite !in_app_iff.
  assert (E : In x (if existsb (fun synonym => contains synonym q) synonyms
                    then key :: synonyms else [])
              <-> In x (flat_map
                          (fun synonym =>
                             if contains synonym q then key :: synonyms
                             else [])
                          synonyms)).
  { rewrite in_flat_map. split.
    - destruct (existsb _ synonyms) eqn:B; [|intros []].
      apply existsb_exists in B as (syn & Hs & Hc). intro Hx.
      exists syn. split; [exact Hs|]. now rewrite Hc.
    - intros (syn & Hs & Hx).
      destruct (contains syn q) eqn:Hc; [|destruct Hx].
      assert (B : existsb (fun synonym => contains synonym q) synonyms
                  = true)
        by (apply existsb_exists; now exists syn).
      now rewrite B. }
  tauto.
Qed.

(** The variants of the specification are the members of the list the
    code builds. *)
Lemma variants_expanded query x :
  In x (variants query) <-> In x (expanded_list query).
Proof.
  unfold variants, expanded_list. cbv zeta. cbn [In].
  rewrite !in_flat_map. split; (intros [H | ([key syns] & Hk & Hx)];
    [now left|right; exists (key, syns); split; [exact Hk|]]);
    now apply entry_members.
Qed.

Lemma variants_without_slash query v :
  ~ In 47%N (py_lower query) -> In v (variants query) -> ~ In 47%N v.
Proof.
  intros Hq Hv. unfold variants in Hv. cbv zeta in Hv.
  apply in_inv in Hv as [<- | Hv]; [exact Hq|].
  apply in_flat_map in Hv as ([key syns] & Hk & Hx).
  apply (synonyms_without_slash key syns v Hk).
  apply in_app_or in Hx as [Hx | Hx].
  - destruct (contains key (py_lower query)); [now right|destruct Hx].
  - destruct (existsb _ syns); [|destruct Hx].
    destruct Hx as [<- | Hx]; auto.
Qed.

End Variants.

Section Scores.
Import EmbeddingService RoadmapService TierThreeSpec CascadeSpec.
Context {RT : PyRuntime} {L : PyRuntimeLaws RT}.
Local Open Scope R_scope.

Lemma Rmax_three m a b c :
  Rmax (Rmax (Rmax m a) b) c = Rmax m (Rmax (Rmax a b) c).
Proof. unfold Rmax. repeat destruct (Rle_dec _ _); lra. Qed.

Lemma variant_ratio_range fields v : 0 <= variant_ratio fields v <= 1.
Proof.
  destruct fields as [[t d] c]. unfold variant_ratio, similarity_ratio.
  repeat apply Rmax_range; apply ratio_range.
Qed.

(** The loop of the code, with its [break], computes: 1 when a cleaned
    variant is found in the text, else the greatest ratio. *)
Lemma max_score_loop_spec t d c qs : forall m,
  0 <= m <= 1 ->
  max_score_loop t d c (searchable_text (t, d, c)) m qs
  = if existsb
         (fun v => contains (clean_and_hyphen v) (searchable_text (t, d, c)))
         qs
    then 1
    else fold_left
           (fun best v =>
              Rmax best (variant_ratio (t, d, c) (clean_and_hyphen v)))
           qs m.
Proof.
  induction qs as [|q qs IH]; intros m Hm; [reflexivity|].
  cbn [max_score_loop existsb fold_left]. cbv zeta.
  destruct (contains (clean_and_hyphen q) (searchable_text (t, d, c)));
    cbn [orb].
  - unfold Rmax. destruct (Rle_dec m 1); lra.
  - rewrite Rmax_three.
    change (Rmax (Rmax (_calculate_similarity (clean_and_hyphen q) t)
                       (_calculate_similarity (clean_and_hyphen q) d))
                 (_calculate_similarity (clean_and_hyphen q) c))
      with (variant_ratio (t, d, c) (clean_and_hyphen q)).
    apply IH. apply Rmax_range; [exact Hm|apply variant_ratio_range].
Qed.

Lemma roadmap_score_loop qs fields :
  roadmap_score qs fields = loop_score clean_and_hyphen fields qs.
Proof.
  destruct fields as [[t d] c]. unfold roadmap_score, loop_score.
  change (t ++ space ++ d ++ space ++ c) with (searchable_text (t, d, c)).
  apply max_score_loop_spec. lra.
Qed.

Lemma fold_max_ge_start (h : str -> R) l : forall m,
  m <= fold_left (fun best v => Rmax best (h v)) l m.
Proof.
  induction l as [|x l IH]; intro m; cbn [fold_left]; [lra|].
  eapply Rle_trans; [apply (Rmax_l m (h x))|apply IH].
Qed.

Lemma fold_max_ge_member (h : str -> R) l v : forall m,
  In v l -> h v <= fold_left (fun best v => Rmax best (h v)) l m.
Proof.
  induction l as [|x l IH]; intros m Hv; [destruct Hv|].
  cbn [fold_left]. destruct Hv as [-> | Hv]; [|now apply IH].
  eapply Rle_trans; [apply (Rmax_r m (h v))|apply fold_max_ge_start].
Qed.

Lemma fold_max_attained (h : str -> R) l : forall m,
  fold_left (fun best v => Rmax best (h v)) l m = m
  \/ exists v, In v l
               /\ fold_left (fun best v => Rmax best (h v)) l m = h v.
Proof.
  induction l as [|x l IH]; intro m; [now left|].
  cbn [fold_left]. destruct (IH (Rmax m (h x))) as [E | (v & Hv & E)].
  - rewrite E. unfold Rmax. destruct (Rle_dec m (h x)); [right|now left].
    exists x. split; [now left|reflexivity].
  - right. exists v. split; [now right|exact E].
Qed.

(** The greatest ratio depends on the members of the list only. *)
Lemma fold_max_members (h1 h2 : str -> R) l1 l2 m :
  (forall v, In v l1 <-> In v l2) ->
  (forall v, In v l1 -> h1 v = h2 v) ->
  fold_left (fun best v => Rmax best (h1 v)) l1 m
  = fold_left (fun best v => Rmax best (h2 v)) l2 m.
Proof.
  intros M E. apply Rle_antisym.
  - destruct (fold_max_attained h1 l1 m) as [-> | (v & Hv & ->)].
    + apply fold_max_ge_start.
    + rewrite (E v Hv). apply fold_max_ge_member. now apply M.
  - destruct (fold_max_attained h2 l2 m) as [-> | (v & Hv & ->)].
    + apply fold_max_ge_start.
    + apply M in Hv. rewrite <- (E v Hv). now apply fold_max_ge_member.
Qed.

Lemma existsb_members (f g : str -> bool) l1 l2 :
  (forall v, In v l1 <-> In v l2) ->
  (forall v, In v l1 -> f v = g v) ->
  existsb f l1 = existsb g l2.
Proof.
  intros M E. destruct (existsb g l2) eqn:B.
  - apply existsb_exists in B as (v & Hv & Hg). apply existsb_exists.
    apply M in Hv. exists v. split; [exact Hv|]. now rewrite (E v Hv).
  - destruct (existsb f l1) eqn:A; [|reflexivity].
    apply existsb_exists in A as (v & Hv & Hf).
    assert (T : existsb g l2 = true).
    { apply existsb_exists. exists v. split; [now apply M|].
      now rewrite <- (E v Hv). }
    congruence.
Qed.

Lemma loop_score_members (norm1 norm2 : str -> str) fields l1 l2 :
  (forall v, In v l1 <-> In v l2) ->
  (forall v, In v l1 -> norm1 v = norm2 v) ->
  loop_score norm1 fields l1 = loop_score norm2 fields l2.
Proof.
  intros M E. unfold loop_score.
  rewrite (existsb_members
             (fun v => contains (norm1 v) (searchable_text fields))
             (fun v => contains (norm2 v) (searchable_text fields))
             l1 l2 M)
    by (intros v Hv; now rewrite (E v Hv)).
  destruct (existsb _ l2); [reflexivity|].
  apply fold_max_members; [exact M|].
  intros v Hv. now rewrite (E v Hv).
Qed.

(** The score of the code is the score of the specification, for a
    query without slash. *)
Lemma roadmap_score_is_spec query fields :
  ~ In 47%N (py_lower query) ->
  roadmap_score (_expand_query query) fields
  = score fields (variants query).
Proof.
  intro Hq. rewrite roadmap_score_loop.
  change (score fields (variants query))
    with (loop_score normalize_punctuation fields (variants query)).
  assert (M : forall v, In v (_expand_query query) <-> In v (variants query)).
  { intro v. unfold _expand_query. rewrite set_order_In.
    symmetry. apply variants_expanded. }
  apply loop_score_members; [exact M|].
  intros v Hv. symmetry. apply normalize_without_slash.
  apply (variants_without_slash query v Hq). now apply M.
Qed.

Lemma cleaned_fields_well_formed roadmap :
  well_formed_roadmap roadmap ->
  cleaned_fields roadmap = Some (matched_fields roadmap).
Proof.
  intros ((t & Ht) & (d & Hd) & (c & Hc)).
  unfold cleaned_fields, matched_fields, field_text.
  rewrite Ht, Hd, Hc. unfold item_get in Hd, Hc.
  destruct (dict_get "description" roadmap) as [vd|];
    destruct (dict_get "category" roadmap) as [vc|];
    subst; try injection Hd as <-; try injection Hc as <-; reflexivity.
Qed.

Lemma score_all_well_formed qs roadmaps :
  Forall well_formed_roadmap roadmaps ->
  score_all qs roadmaps = Some (flat_map (matched_entry qs) roadmaps).
Proof.
  induction 1 as [|r rs Hr _ IH]; [reflexivity|].
  cbn [score_all flat_map].
  rewrite (cleaned_fields_well_formed _ Hr), IH.
  cbv zeta.
  change (matched_entry qs r)
    with (if Rlt_dec (15 / 100) (roadmap_score qs (matched_fields r))
          then [with_score r (roadmap_score qs (matched_fields r))]
          else []).
  destruct (Rlt_dec _ _); reflexivity.
Qed.

Lemma matched_entries_keys qs roadmaps d :
  In d (flat_map (matched_entry qs) roadmaps) ->
  number_of "similarity_score" d = number_of "similarity" d.
Proof.
  intro H. apply in_flat_map in H as (r & _ & Hd). unfold matched_entry in Hd.
  destruct (Rlt_dec _ _); [|destruct Hd]. destruct Hd as [<- | []].
  destruct (with_score_similarity r
              (roadmap_score qs (matched_fields r))) as [-> ->].
  reflexivity.
Qed.

Lemma matched_fields_spec roadmap :
  plain_punctuation roadmap ->
  matched_fields roadmap = spec_fields roadmap_fields roadmap.
Proof.
  intros (Ht & Hd & Hc). unfold matched_fields, spec_fields.
  cbn [title_field description_field category_field roadmap_fields].
  now rewrite (normalize_without_slash _ Ht),
              (normalize_without_slash _ Hd),
              (normalize_without_ampersand _ Hc).
Qed.

Lemma flat_map_agree {A B : Type} (f g : A -> list B) l :
  Forall (fun x => f x = g x) l -> flat_map f l = flat_map g l.
Proof.
  induction 1 as [|x l Hx _ IH]; [reflexivity|].
  cbn [flat_map]. now rewrite Hx, IH.
Qed.

(** On well-formed rows with plain punctuation, and for a query without
    slash, the text matching of the code returns what Tier 3 of the
    specification returns. *)
Lemma text_matching_is_tier3 query all_roadmaps limit :
  Forall well_formed_roadmap all_roadmaps ->
  Forall plain_punctuation all_roadmaps ->
  ~ In 47%N (py_lower query) ->
  text_matching query all_roadmaps limit
  = Some (tier3 roadmap_fields query all_roadmaps limit).
Proof.
  intros Hw Hp Hq. unfold text_matching, tier3. cbv zeta.
  rewrite (score_all_well_formed _ _ Hw). f_equal. f_equal.
  rewrite (sort_desc_ext (number_of "similarity_score")
             (number_of "similarity"))
    by apply matched_entries_keys.
  f_equal. apply flat_map_agree.
  apply Forall_forall. intros r Hr. rewrite Forall_forall in Hp.
  unfold matched_entry.
  rewrite (matched_fields_spec r (Hp r Hr)).
  now rewrite (roadmap_score_is_spec query _ Hq).
Qed.

End Scores.

Section TierThreeExamples.
Import EmbeddingService RoadmapService RAGService TierThreeSpec CascadeSpec.
Local Open Scope R_scope.

Ltac find_variant :=
  match goal with
  | |- context [existsb ?f ?l] =>
    let E := fresh "E" in
    assert (E : existsb f l = true) by (vm_compute; reflexivity);
    rewrite E; clear E
  end.

(** The query [react] on one FAQ about frontend development: Tier 3
    returns the FAQ, through the synonym [frontend]. *)
Lemma react_tier3_nonempty :
  tier3 (H := ascii_runtime) (faq_fields (utf8 "en")) react_query
    [frontend_faq] 5 <> [].
Proof.
  unfold tier3. cbv zeta. cbn [flat_map]. unfold score. find_variant.
  destruct (Rlt_dec (15 / 100) 1) as [_|Bad]; [|exfalso; lra].
  cbn [app sort_desc fold_right insert_desc firstn]. discriminate.
Qed.

(** The query [ci cd] on a roadmap whose description names CI/CD: the
    specification turns the slash into a blank and finds the query, the
    code keeps the slash in descriptions and finds nothing. *)
Lemma pipelines_tier3_nonempty :
  tier3 (H := ascii_runtime) roadmap_fields pipelines_query
    [pipelines_roadmap] 5 <> [].
Proof.
  unfold tier3. cbv zeta. cbn [flat_map]. unfold score. find_variant.
  destruct (Rlt_dec (15 / 100) 1) as [_|Bad]; [|exfalso; lra].
  cbn [app sort_desc fold_right insert_desc firstn]. discriminate.
Qed.

Ltac unequal_texts :=
  match goal with
  | |- context [str_eqb ?a ?b] =>
    let E := fresh "E" in
    assert (E : str_eqb a b = false) by (vm_compute; reflexivity);
    rewrite E; clear E
  end.

Lemma pipelines_code_score :
  roadmap_score (H := ascii_runtime)
    (_expand_query (H := ascii_runtime) pipelines_query)
    (matched_fields (H := ascii_runtime) pipelines_roadmap) = 0.
Proof.
  rewrite (roadmap_score_loop (L := ascii_runtime_laws)).
  assert (Q : _expand_query (H := ascii_runtime) pipelines_query
              = [utf8 "ci cd"]) by (vm_compute; reflexivity).
  rewrite Q. unfold loop_score.
  assert (E : existsb
                (fun v => contains (clean_and_hyphen v)
                            (searchable_text
                               (matched_fields (H := ascii_runtime)
                                  pipelines_roadmap)))
                [utf8 "ci cd"] = false) by (vm_compute; reflexivity).
  rewrite E. cbn [fold_left].
  unfold matched_fields, variant_ratio, similarity_ratio.
  cbn [seq_ratio ascii_runtime].
  repeat unequal_texts.
  unfold Rmax. repeat destruct (Rle_dec _ _); lra.
Qed.

Lemma pipelines_search_roadmaps :
  search_roadmaps (H := ascii_runtime) no_model pipelines_store
    pipelines_query 5 true = [].
Proof.
  rewrite search_roadmaps_unavailable by reflexivity.
  cbn [roadmaps_all pipelines_store].
  assert (W : Forall well_formed_roadmap [pipelines_roadmap]).
  { constructor; [|constructor]. repeat split; eexists; reflexivity. }
  unfold text_matching.
  rewrite (score_all_well_formed _ _ W).
  cbn [flat_map]. unfold matched_entry. rewrite pipelines_code_score.
  destruct (Rlt_dec (15 / 100) 0) as [Bad|_]; [exfalso; lra|].
  reflexivity.
Qed.

End TierThreeExamples.

(* ================================================================== *)
(** * The grounding validator: claims C1, C2 and C10 *)
(* ================================================================== *)

Section ValidatorClaims.
Import LLMValidator ValidatorSpec ValidatorFacts.


(** C2, as the code has it.  The allow-list URLs and the candidate URLs
    go through the same [normalize_url].  It strips the trailing run of
    the marks [.,;:!)], then every trailing slash and not one only, and
    lowers what is left: a string without newline, as every URL the
    pattern finds, is that core, a run of slashes and a run of marks,
    and its normal form is the core in lower case.  A text all
    of whose URLs have the normal form of a context URL is returned as it
    is, and the one URL of a text is replaced when its normal form is
    the normal form of no context URL.  For the context
    [{answer: See https://roadmap.sh/frontend}] and the text
    [Try https://roadmap.sh/frontend/ now] the two normal forms agree and
    the text, with its URL, comes back unchanged. *)
Theorem C2_same_normalization_keeps_frontend_url :
  forall (RT : PyRuntime),
    (forall u,
        ~ In 10%N u ->
        exists core slashes marks,
          u = core ++ slashes ++ marks
          /\ forallb trailing_punct marks = true
          /\ forallb (fun c => (c =? 47)%N) slashes = true
          /\ (forall r c, core ++ slashes = r ++ [c] ->
                          trailing_punct c = false)
          /\ (forall r c, core = r ++ [c] -> c <> 47%N)
          /\ normalize_url u = py_lower core)
    /\ (forall s u, In u (findall_urls s) -> ~ In 10%N u)
    /\ (forall text context,
          context <> [] ->
          (forall u, In u (findall_urls text) ->
             exists v, In v (context_urls context) /\
                       normalize_url v = normalize_url u) ->
          _validate_urls_against_context text context = text)
    /\ (forall text context u,
          context <> [] ->
          findall_urls text = [u] ->
          _validate_urls_against_context text context
          = if str_mem (normalize_url u)
                 (map normalize_url (context_urls context))
            then text
            else replace u link_not_available text)
    /\ findall_urls frontend_text = [utf8 "https://roadmap.sh/frontend/"]
    /\ context_urls frontend_context = [utf8 "https://roadmap.sh/frontend"]
    /\ normalize_url (utf8 "https://roadmap.sh/frontend/")
       = normalize_url (utf8 "https://roadmap.sh/frontend")
    /\ _validate_urls_against_context frontend_text frontend_context
       = frontend_text.
Proof.
  intros RT.
  assert (D : forall u,
             ~ In 10%N u ->
             exists core slashes marks,
               u = core ++ slashes ++ marks
               /\ forallb trailing_punct marks = true
               /\ forallb (fun c => (c =? 47)%N) slashes = true
               /\ (forall r c, core ++ slashes = r ++ [c] ->
                               trailing_punct c = false)
               /\ (forall r c, core = r ++ [c] -> c <> 47%N)
               /\ normalize_url u = py_lower core).
  { intros u Hn. unfold normalize_url, rstrip_char.
    rewrite (strip_trailing_punct_no_newline u Hn).
    destruct (rstrip_by_decompose trailing_punct u)
      as (marks & Eu & Hm & Hend).
    destruct (rstrip_by_decompose (fun c => (c =? 47)%N)
                (rstrip_by trailing_punct u))
      as (slashes & Ea & Hs & Hcore).
    exists (rstrip_by (fun c => (c =? 47)%N) (rstrip_by trailing_punct u)),
           slashes, marks.
    split;
      [exact (eq_trans Eu
                (eq_trans (f_equal (fun z => z ++ marks) Ea)
                   (eq_sym (app_assoc _ _ _))))|].
    split; [exact Hm|]. split; [exact Hs|].
    split; [intros r c E; apply (Hend r c); exact (eq_trans Ea E)|].
    split; [|reflexivity].
    intros r c E ->. specialize (Hcore r 47%N E). discriminate Hcore. }
  assert (G : forall text context,
             context <> [] ->
             (forall u, In u (findall_urls text) ->
                exists v, In v (context_urls context) /\
                          normalize_url v = normalize_url u) ->
             _validate_urls_against_context text context = text)
    by (intros; now apply validate_kept).
  assert (O : forall text context u,
             context <> [] ->
             findall_urls text = [u] ->
             _validate_urls_against_context text context
             = if str_mem (normalize_url u)
                    (map normalize_url (context_urls context))
               then text
               else replace u link_not_available text).
  { intros text context u Hc Hu. destruct context as [|item context];
      [congruence|].
    rewrite validate_nonempty_context, Hu. reflexivity. }
  assert (F : findall_urls frontend_text = [utf8 "https://roadmap.sh/frontend/"])
    by (vm_compute; reflexivity).
  assert (C : context_urls frontend_context = [utf8 "https://roadmap.sh/frontend"])
    by (vm_compute; reflexivity).
  assert (N : normalize_url (utf8 "https://roadmap.sh/frontend/")
              = normalize_url (utf8 "https://roadmap.sh/frontend")).
  { assert (E : rstrip_char 47
                  (strip_trailing_punct (utf8 "https://roadmap.sh/frontend/"))
                = rstrip_char 47
                    (strip_trailing_punct (utf8 "https://roadmap.sh/frontend")))
      by (vm_compute; reflexivity).
    unfold normalize_url. rewrite E. reflexivity. }
  split; [exact D|]. split; [exact found_url_no_newline|].
  split; [exact G|]. split; [exact O|].
  split; [exact F|]. split; [exact C|]. split; [exact N|].
  apply G; [discriminate|].
  intros u Hu. rewrite F in Hu. destruct Hu as [<- | []].
  exists (utf8 "https://roadmap.sh/frontend"). split; [|symmetry; exact N].
  rewrite C. now left.
Qed.

(** The theorem at the runtime of the model. *)
Lemma C2_witness :
  _validate_urls_against_context (H := ascii_runtime)
    frontend_text frontend_context = frontend_text.
Proof.
  apply (C2_same_normalization_keeps_frontend_url ascii_runtime).
Defined.

(** C2 as stated fails on the slash: the code strips every trailing
    slash.  A response URL with two trailing slashes has the normal form
    of the context URL without slash and is kept, where stripping one
    slash would leave two different normal forms. *)
Lemma C2_counterexample :
  normalize_url (H := ascii_runtime) (utf8 "https://a.com//")
  = normalize_url (H := ascii_runtime) (utf8 "https://a.com")
  /\ claimed_normalize_url (H := ascii_runtime) (utf8 "https://a.com//")
     <> claimed_normalize_url (H := ascii_runtime) (utf8 "https://a.com")
  /\ findall_urls double_slash_text = [utf8 "https://a.com//"]
  /\ context_urls double_slash_context = [utf8 "https://a.com"]
  /\ _validate_urls_against_context (H := ascii_runtime)
       double_slash_text double_slash_context = double_slash_text.
Proof.
  split; [vm_compute; reflexivity|].
  split; [intro H; vm_compute in H; discriminate H|].
  split; [vm_compute; reflexivity|].
  split; vm_compute; reflexivity.
Qed.

(** C10.  With a non-empty grounding context, a text without URL-shaped
    substring is returned unchanged; in general the output is reached
    from the text by passes that only replace URL-shaped substrings by
    the placeholder and keep every other character. *)
Theorem C10_validation_rewrites_only_urls :
  forall (RT : PyRuntime) (text : str) (context : list Dict),
    context <> [] ->
    (~ has_url text -> _validate_urls_against_context text context = text)
    /\ (findall_urls text = [] ->
        _validate_urls_against_context text context = text)
    /\ clos_refl_trans str (url_redaction link_not_available) text
         (_validate_urls_against_context text context).
Proof.
  intros RT text context Hc. repeat split.
  - now apply validate_unchanged_without_url.
  - intro E. apply validate_unchanged_without_url; [assumption|].
    now apply findall_urls_nil_iff.
  - now apply validate_redaction.
Qed.

Lemma C10_witness :
  frontend_context <> []
  /\ findall_urls plain_text = []
  /\ _validate_urls_against_context (H := ascii_runtime)
       plain_text frontend_context = plain_text.
Proof.
  split; [discriminate|]. split; [vm_compute; reflexivity|].
  apply (C10_validation_rewrites_only_urls ascii_runtime plain_text
           frontend_context); [discriminate | vm_compute; reflexivity].
Defined.

End ValidatorClaims.

(* ================================================================== *)
(** * The language detector: claim C9 *)
(* ================================================================== *)

Section DetectorClaims.
Import LanguageDetector.

(** C9, as the code has it.  The empty text is classified [unknown] with
    confidence 0.0; a text that is not empty and holds white space only
    is classified [unknown] as well, with the confidence 0.5 of the last
    branch of the classification. *)
Theorem C9_detect_empty_or_whitespace :
  forall (RT : PyRuntime) (L : PyRuntimeLaws RT) (text : str),
    forallb is_space text = true ->
    detect_with_confidence text =
    match text with
    | [] => (UNKNOWN, 0%Q)
    | _ :: _ => (UNKNOWN, (5 # 10)%Q)
    end.
Proof.
  intros RT L [|c s] Hs; [reflexivity|]. now apply detect_whitespace.
Qed.

Lemma C9_witness :
  forallb is_space (utf8 "   ") = true
  /\ detect_with_confidence (H := ascii_runtime) (utf8 "   ")
     = (UNKNOWN, (5 # 10)%Q).
Proof.
  split; [vm_compute; reflexivity|].
  apply (C9_detect_empty_or_whitespace ascii_runtime ascii_runtime_laws
           (utf8 "   ")).
  vm_compute. reflexivity.
Defined.

(** C9 as stated fails: one blank is classified with confidence 0.5, not
    0.0, whatever the runtime. *)
Lemma C9_counterexample :
  detect_with_confidence (H := ascii_runtime) (utf8 " ")
  = (UNKNOWN, (5 # 10)%Q)
  /\ ~ (forall (RT : PyRuntime), PyRuntimeLaws RT ->
        forall text : str,
          forallb is_space text = true ->
          detect_with_confidence text = (UNKNOWN, 0%Q)).
Proof.
  split; [vm_compute; reflexivity|].
  intro H.
  assert (S : forallb is_space (utf8 " ") = true) by (vm_compute; reflexivity).
  specialize (H ascii_runtime ascii_runtime_laws (utf8 " ") S).
  vm_compute in H. discriminate H.
Qed.

End DetectorClaims.

(* ================================================================== *)
(** * Vector search: claims C5, C6 and C7 *)
(* ================================================================== *)

Section VectorClaims.
Import EmbeddingService RoadmapService SearchSpec.
Context {RT : PyRuntime}.

(** C5.  The scoring loop of the client-side vector search never raises:
    it yields, in order, one scored row for each candidate whose
    embedding has the dimension of the query, and none for a candidate
    whose embedding has another dimension; every row the vector search
    returns carries an embedding of the dimension of the query
    embedding. *)
Theorem C5_dimension_mismatch_is_skipped :
  forall (m : EmbeddingModel) (query_text : str) (roadmaps : list Dict)
         (limit : nat),
    client_vector_search m query_text roadmaps limit <> Raised
    /\ (forall query_vec,
          score_roadmaps query_vec roadmaps
          = Some (flat_map (scored_entry query_vec) roadmaps)
          /\ (forall roadmap,
                dimension_mismatch query_vec roadmap ->
                scored_entry query_vec roadmap = [])
          /\ (forall d,
                In d (flat_map (scored_entry query_vec) roadmaps) ->
                exists v, dict_get "embedding" d = Some (VVec v)
                          /\ length v = length query_vec))
    /\ (forall results d,
          client_vector_search m query_text roadmaps limit = Found results ->
          In d results ->
          exists v, dict_get "embedding" d = Some (VVec v)
                    /\ length v = embedding_dim).
Proof.
  intros m query_text roadmaps limit.
  assert (S : forall query_vec d,
             In d (flat_map (scored_entry query_vec) roadmaps) ->
             exists v, dict_get "embedding" d = Some (VVec v)
                       /\ length v = length query_vec).
  { intros query_vec d Hd.
    destruct (In_scored_entries _ _ _ Hd) as (r & dv & s & _ & Hc & _ & ->).
    apply comparable_length in Hc as [Hc Hl]. exists dv.
    now rewrite with_cosine_embedding. }
  split; [apply client_vector_search_never_raises|]. split.
  - intro query_vec. split; [apply score_roadmaps_total|].
    split; [apply mismatch_not_scored | apply S].
  - intros results d HF Hd.
    destruct (client_vector_search_found _ _ _ _ _ HF) as (q & Hq & ->).
    apply In_firstn, sort_desc_float_In in Hd.
    destruct (S q d Hd) as (v & Hv & Hl). exists v. split; [exact Hv|].
    rewrite Hl. now apply (generate_embedding_dim m query_text).
Qed.

End VectorClaims.

Section SearchClaims.
Import EmbeddingService RoadmapService SearchSpec.
Local Open Scope R_scope.

Lemma C5_witness :
  dimension_mismatch unit_vec short_roadmap
  /\ scored_entry (H := ascii_runtime) unit_vec short_roadmap = [].
Proof.
  assert (M : dimension_mismatch unit_vec short_roadmap).
  { exists [1%float; 0%float]. split; [reflexivity|].
    unfold unit_vec. cbn [length]. rewrite repeat_length. discriminate. }
  split; [exact M|].
  apply (@C5_dimension_mismatch_is_skipped ascii_runtime unit_model []
           [short_roadmap] 5%nat).
  exact M.
Defined.







End SearchClaims.

(* ================================================================== *)
(** * The cascades without embeddings: claim C4 *)
(* ================================================================== *)

Section CascadeClaims.
Import EmbeddingService RoadmapService RAGService TierThreeSpec.
Import CascadeSpec.

(** C4, as the code has it.  When the embedding collaborator is
    unavailable, the roadmap search returns what the synonym-expanded
    text matching of the code returns on the rows of the table (nothing
    when the read or the matching raises).  This is Tier 3 of the
    specification on well-formed rows whose title and description hold
    no slash and whose category holds no ampersand, for a query without
    slash: the code normalizes slashes in the category only, and
    ampersands in the title and the description only.  The FAQ search
    runs another last tier, the keyword overlap on the active FAQs with
    the limit 5. *)
Theorem C4_cascade_without_embeddings :
  forall (RT : PyRuntime) (m : EmbeddingModel) (db : Store),
    _available m = false ->
    (forall query limit use_embeddings,
        search_roadmaps m db query limit use_embeddings =
        match roadmaps_all db with
        | Some all_roadmaps =>
          match text_matching query all_roadmaps limit with
          | Some results => results
          | None => []
          end
        | None => []
        end)
    /\ (PyRuntimeLaws RT ->
        forall query limit use_embeddings all_roadmaps,
          roadmaps_all db = Some all_roadmaps ->
          Forall well_formed_roadmap all_roadmaps ->
          Forall plain_punctuation all_roadmaps ->
          ~ In 47%N (py_lower query) ->
          search_roadmaps m db query limit use_embeddings
          = tier3 roadmap_fields query all_roadmaps limit)
    /\ (forall query language,
          search_faqs m db query language =
          match faqs_active db with
          | Some all_faqs => _keyword_search_fallback query all_faqs 5
          | None => []
          end).
Proof.
  intros RT m db H. split; [|split].
  - intros. now apply search_roadmaps_unavailable.
  - intros L query limit use all_roadmaps Hall Hwf Hp Hq.
    rewrite (search_roadmaps_unavailable _ _ _ _ _ H), Hall.
    now rewrite (text_matching_is_tier3 _ _ _ Hwf Hp Hq).
  - intros. now apply search_faqs_unavailable.
Qed.

Lemma C4_witness :
  _available no_model = false
  /\ search_roadmaps (H := ascii_runtime) no_model game_store game_query 5
       true
     = tier3 (H := ascii_runtime) roadmap_fields game_query [game_roadmap] 5.
Proof.
  split; [reflexivity|].
  assert (N : forall s : str,
             forallb (fun c => negb (47 =? c)%N) s = true -> ~ In 47%N s).
  { intros s F Hin. rewrite forallb_forall in F. specialize (F _ Hin).
    rewrite N.eqb_refl in F. discriminate. }
  apply (proj1 (proj2 (C4_cascade_without_embeddings ascii_runtime no_model
                         game_store eq_refl))
           ascii_runtime_laws game_query 5%nat true [game_roadmap] eq_refl).
  - constructor; [|constructor]. repeat split; eexists; reflexivity.
  - constructor; [|constructor]. repeat split.
    + apply N. vm_compute. reflexivity.
    + apply N. vm_compute. reflexivity.
    + intro Hin. vm_compute in Hin. exact Hin.
  - apply N. vm_compute. reflexivity.
Defined.

(** C4 as stated fails on both corpora.  For the query [react] and one
    active FAQ on frontend development, the FAQ search (keyword overlap)
    returns nothing, and Tier 3 returns the FAQ, through the synonym
    [frontend].  For the query [ci cd] and a roadmap whose description
    names CI/CD, the roadmap search returns nothing (the code keeps the
    slash of a description), and Tier 3 returns the roadmap. *)
Lemma C4_counterexample :
  ~ (forall (RT : PyRuntime), PyRuntimeLaws RT ->
     forall (m : EmbeddingModel) (db : Store) (query language : str)
            (all_faqs : list Dict),
       _available m = false ->
       faqs_active db = Some all_faqs ->
       search_faqs m db query language
       = tier3 (faq_fields language) query all_faqs 5)
  /\ ~ (forall (RT : PyRuntime), PyRuntimeLaws RT ->
        forall (m : EmbeddingModel) (db : Store) (query : str)
               (limit : nat) (all_roadmaps : list Dict),
          _available m = false ->
          roadmaps_all db = Some all_roadmaps ->
          search_roadmaps m db query limit true
          = tier3 roadmap_fields query all_roadmaps limit).
Proof.
  split; intro H.
  - specialize (H ascii_runtime ascii_runtime_laws no_model faq_store
                  react_query (utf8 "en") [frontend_faq] eq_refl eq_refl).
    rewrite (react_search_faqs (L := ascii_runtime_laws)) in H.
    apply react_tier3_nonempty. now symmetry.
  - specialize (H ascii_runtime ascii_runtime_laws no_model pipelines_store
                  pipelines_query 5%nat [pipelines_roadmap] eq_refl eq_refl).
    rewrite pipelines_search_roadmaps in H.
    apply pipelines_tier3_nonempty. now symmetry.
Qed.

End CascadeClaims.

(* ================================================================== *)
(** * The orchestrator: claims C3 and C8 *)
(* ================================================================== *)

Section ChatClaims.
Import LanguageDetector EmbeddingService LLMService ChatService.

(** C3, what the code does when generation fails.  [generate_response]
    catches every exception of the completion collaborator itself, so
    the retry decorator never sees one: whatever the kind of the error,
    one call is made, the reply is the error text of the language with
    confidence 0.3, and the orchestrator goes on to the persistence
    step, which stores the user turn and the error text. *)
Theorem C3_failed_generation_is_answered_once_and_persisted :
  forall (RT : PyRuntime) (env : Collaborators) (w : World)
         (message : str) (sid : option str) (pref : str) (e : api_error),
    let session := resolve_session env sid in
    let refined := fst (refine_message env w message session) in
    let w1 := snd (refine_message env w message session) in
    let user_language :=
      _determine_response_language (fst (detect_with_confidence message))
        pref in
    let out := process_message env w message sid pref in
    _detect_roadmap_request refined = None ->
    complete env (llm_calls w1) = inl e ->
    (forall context calls,
        snd (generate_response (complete env) context user_language calls)
        = S calls)
    /\ response (fst out) = error_messages user_language
    /\ chat_confidence (fst out) = (3 # 10)%Q
    /\ llm_calls (snd out) = S (llm_calls w1)
    /\ snd out
       = _save_conversation env
           {| conversations := conversations w1;
              llm_calls := S (llm_calls w1) |}
           session message (error_messages user_language)
           (language_value user_language)
    /\ ((forall t, insert_ok env t = true) ->
        conversations (snd out)
        = conversations w
          ++ [ {| turn_session := session; turn_role := utf8 "user";
                  turn_content := message;
                  turn_language := language_value user_language |};
               {| turn_session := session; turn_role := utf8 "assistant";
                  turn_content := error_messages user_language;
                  turn_language := language_value user_language |} ]).
Proof.
  intros RT env w message sid pref e session refined w1 user_language out
         Hreq Hfail.
  assert (Once : forall context calls,
             snd (generate_response (complete env) context user_language
                    calls) = S calls).
  { intros context calls. rewrite generate_response_once.
    unfold generate_response_body. destruct (complete env calls); reflexivity. }
  assert (Out : out
                = ({| response := error_messages user_language;
                      session_id := session;
                      user_language := language_value user_language;
                      detected_language :=
                        Some (language_value
                                (fst (detect_with_confidence message)));
                      language_confidence :=
                        Some (snd (detect_with_confidence message));
                      response_language := language_value user_language;
                      is_egyptian :=
                        language_eqb user_language ARABIC_EGYPTIAN;
                      chat_confidence := (3 # 10)%Q |},
                   _save_conversation env
                     {| conversations := conversations w1;
                        llm_calls := S (llm_calls w1) |}
                     session message (error_messages user_language)
                     (language_value user_language))).
  { unfold out, process_message. fold session.
    unfold user_language, refined, w1 in *.
    destruct (detect_with_confidence message) as [dl conf].
    destruct (refine_message env w message session) as [rf wr].
    cbn [fst snd] in *. rewrite Hreq. unfold generate_and_save.
    rewrite (generate_response_failure _ _ _ _ _ Hfail). reflexivity. }
  split; [exact Once|]. rewrite Out. cbn [fst snd response chat_confidence].
  split; [reflexivity|]. split; [reflexivity|].
  assert (Calls : forall w0 a b c d,
             llm_calls (_save_conversation env w0 a b c d) = llm_calls w0).
  { intros. unfold _save_conversation, add_turn.
    repeat destruct (insert_ok env _); reflexivity. }
  split; [now rewrite Calls|]. split; [reflexivity|].
  intro Hins. unfold _save_conversation. rewrite !Hins.
  unfold add_turn. cbn [conversations].
  unfold w1. rewrite refine_message_conversations.
  now rewrite <- app_assoc.
Qed.

Lemma C3_witness :
  response
    (fst (process_message (H := ascii_runtime) rate_limited_env fresh_world
            (utf8 "what is python") None (utf8 "en")))
  = error_messages ENGLISH
  /\ chat_confidence
       (fst (process_message (H := ascii_runtime) rate_limited_env
               fresh_world (utf8 "what is python") None (utf8 "en")))
     = (3 # 10)%Q
  /\ llm_calls
       (snd (process_message (H := ascii_runtime) rate_limited_env
               fresh_world (utf8 "what is python") None (utf8 "en")))
     = 1.
Proof.
  pose proof (C3_failed_generation_is_answered_once_and_persisted
                ascii_runtime rate_limited_env fresh_world
                (utf8 "what is python") None (utf8 "en") RateLimitError)
    as H.
  cbv zeta in H.
  assert (U : _determine_response_language
                (fst (detect_with_confidence (H := ascii_runtime)
                        (utf8 "what is python"))) (utf8 "en") = ENGLISH)
    by (vm_compute; reflexivity).
  rewrite U in H.
  assert (R : refine_message rate_limited_env fresh_world
                (utf8 "what is python")
                (resolve_session rate_limited_env None)
              = (utf8 "what is python", fresh_world))
    by (vm_compute; reflexivity).
  rewrite R in H. cbn [fst snd] in H.
  destruct H as (_ & H1 & H2 & H3 & _).
  - vm_compute. reflexivity.
  - reflexivity.
  - split; [exact H1|]. split; [exact H2|exact H3].
Defined.

(** C8, as the code has it.  When the contextualized query is a roadmap
    request and the roadmap search returns nothing, the orchestrator
    answers with the fixed text of the response language and confidence
    0.8, stores nothing and never calls the generation step; the only
    call the completion collaborator can have received is the one that
    contextualizes the query, made when the session has a history. *)
Theorem C8_no_roadmap_short_circuit :
  forall (RT : PyRuntime) (env : Collaborators) (w : World)
         (message : str) (sid : option str) (pref : str),
    let session := resolve_session env sid in
    let refined := fst (refine_message env w message session) in
    let w1 := snd (refine_message env w message session) in
    let detected := fst (detect_with_confidence message) in
    let user_language := _determine_response_language detected pref in
    let out := process_message env w message sid pref in
    _detect_roadmap_request refined <> None ->
    RoadmapService.search_roadmaps (model env) (db env) refined 3 true = [] ->
    out = (_generate_fallback_response user_language session
             (language_value detected), w1)
    /\ response (fst out) = fallback_messages user_language
    /\ chat_confidence (fst out) = (8 # 10)%Q
    /\ conversations (snd out) = conversations w
    /\ llm_calls (snd out)
       = (llm_calls w
          + match _get_conversation_history env w session 8 with
            | [] => 0
            | _ :: _ => 1
            end)%nat.
Proof.
  intros RT env w message sid pref session refined w1 detected
         user_language out Hreq Hnone.
  assert (Out : out = (_generate_fallback_response user_language session
                         (language_value detected), w1))
    by (now apply process_message_no_roadmap).
  split; [exact Out|]. rewrite Out. cbn [fst snd].
  split; [reflexivity|]. split; [reflexivity|].
  split; [apply refine_message_conversations|apply refine_message_calls].
Qed.

Lemma C8_witness :
  chat_confidence (fst followup_outcome) = (8 # 10)%Q
  /\ conversations (snd followup_outcome) = conversations one_turn_world.
Proof.
  pose proof (C8_no_roadmap_short_circuit ascii_runtime answering_env
                one_turn_world (utf8 "what about it")
                (Some (utf8 "session-1")) (utf8 "en")) as H.
  cbv zeta in H. rewrite followup_refined in H. cbn [fst] in H.
  destruct (H followup_is_roadmap_request followup_search_empty)
    as (_ & _ & H2 & H3 & _).
  split; [exact H2 | exact H3].
Defined.

(** C8 as stated fails: on a follow-up message in a session with a
    history the fixed answer is given with confidence 0.8 after one call
    to the completion collaborator, the one that contextualized the
    query. *)
Lemma C8_counterexample :
  response (fst followup_outcome) = fallback_messages ENGLISH
  /\ chat_confidence (fst followup_outcome) = (8 # 10)%Q
  /\ llm_calls one_turn_world = 0
  /\ llm_calls (snd followup_outcome) = 1.
Proof.
  rewrite followup_outcome_value. cbn [fst snd].
  repeat split; reflexivity.
Qed.

End ChatClaims.

(* ================================================================== *)
(** * Further verified properties: detector and orchestrator *)
(* ================================================================== *)

Section DetectorExtras.
Import LanguageDetector LanguageDetectorMore ChatService.



Lemma language_of_value_auto : language_of_value (utf8 "auto") = None.
Proof. vm_compute. reflexivity. Qed.

Lemma determine_response_language_eq detected preferred :
  _determine_response_language detected preferred
  = match language_of_value preferred with
    | Some l => l
    | None =>
      match detected with
      | ARABIC_EGYPTIAN | ARABIC_FUSHA | ENGLISH => detected
      | _ => ARABIC_EGYPTIAN
      end
    end.
Proof.
  unfold _determine_response_language.
  destruct (str_eqb preferred (utf8 "auto")) eqn:E; cbn [negb];
    [|reflexivity].
  apply str_eqb_eq in E. subst preferred.
  now rewrite language_of_value_auto.
Qed.

Lemma language_of_value_inv s l :
  language_of_value s = Some l -> s = language_value l.
Proof.
  unfold language_of_value.
  repeat match goal with
         | |- context [str_eqb s ?x] =>
           let E := fresh "E" in
           destruct (str_eqb s x) eqn:E;
           [apply str_eqb_eq in E; intro H; injection H as <-; exact E|]
         end.
  discriminate.
Qed.

(** Resolution of the response language.  A preference that names a
    language wins over detection; any other preference (auto, or a tag
    that is not supported) leaves the detected language if this is one
    of the three primary ones, else Egyptian Arabic.  So unless the
    preference itself is [mixed] or [unknown], the response language is
    a primary one. *)
Theorem response_language_resolution :
  forall (detected : LanguageType) (preferred : str),
    (forall l, language_of_value preferred = Some l ->
               _determine_response_language detected preferred = l)
    /\ (language_of_value preferred = None ->
        _determine_response_language detected preferred
        = match detected with
          | ARABIC_EGYPTIAN | ARABIC_FUSHA | ENGLISH => detected
          | _ => ARABIC_EGYPTIAN
          end)
    /\ (preferred <> utf8 "mixed" -> preferred <> utf8 "unknown" ->
        In (_determine_response_language detected preferred)
           [ARABIC_EGYPTIAN; ARABIC_FUSHA; ENGLISH]).
Proof.
  intros detected preferred. rewrite determine_response_language_eq.
  split; [|split].
  - now intros l ->.
  - now intros ->.
  - intros Hm Hu.
    destruct (language_of_value preferred) as [l|] eqn:E.
    + apply language_of_value_inv in E.
      destruct l; cbn; auto.
    + destruct detected; cbn; auto.
Qed.

Lemma response_language_resolution_witness :
  In (_determine_response_language MIXED (utf8 "klingon"))
     [ARABIC_EGYPTIAN; ARABIC_FUSHA; ENGLISH].
Proof.
  apply (response_language_resolution MIXED (utf8 "klingon"));
    vm_compute; discriminate.
Defined.

(** The helper of the detector and the orchestrator agree: whenever
    [should_respond_in_egyptian] holds, the response language resolved
    by the orchestrator is Egyptian Arabic. *)
Theorem should_respond_in_egyptian_sound :
  forall (detected : LanguageType) (preferred : str),
    should_respond_in_egyptian detected preferred = true ->
    _determine_response_language detected preferred = ARABIC_EGYPTIAN.
Proof.
  intros detected preferred. unfold should_respond_in_egyptian.
  rewrite determine_response_language_eq.
  destruct (str_eqb preferred (utf8 "ar_EG")) eqn:E.
  - intros _. apply str_eqb_eq in E. subst preferred.
    vm_compute. reflexivity.
  - destruct (language_eqb detected ARABIC_EGYPTIAN) eqn:D;
      [|discriminate].
    cbn [andb str_mem existsb]. rewrite E, orb_false_r.
    destruct (str_eqb preferred (utf8 "auto")) eqn:A; [|discriminate].
    intros _. apply str_eqb_eq in A. subst preferred.
    rewrite language_of_value_auto. destruct detected; try discriminate.
    reflexivity.
Qed.

Lemma should_respond_in_egyptian_witness :
  should_respond_in_egyptian ARABIC_EGYPTIAN (utf8 "auto") = true
  /\ _determine_response_language ARABIC_EGYPTIAN (utf8 "auto")
     = ARABIC_EGYPTIAN.
Proof.
  split; [vm_compute; reflexivity|].
  apply should_respond_in_egyptian_sound. vm_compute. reflexivity.
Defined.

End DetectorExtras.

Section OrchestratorExtras.
Import LanguageDetector EmbeddingService LLMService ChatService.

(** The history handed to the pipeline is a window on the session: at
    most [limit] rows, the most recent ones of the session, oldest
    first; it is empty when the read fails. *)
Theorem conversation_history_is_recent_window :
  forall (env : Collaborators) (w : World) (session : str) (limit : nat),
    (length (_get_conversation_history env w session limit) <= limit)%nat
    /\ (select_ok env = false ->
        _get_conversation_history env w session limit = [])
    /\ exists older,
         map (fun t => {| role := turn_role t; content := turn_content t |})
           (filter (fun t => str_eqb (turn_session t) session)
              (conversations w))
         = older ++ _get_conversation_history env w session limit.
Proof.
  intros env w session limit. unfold _get_conversation_history.
  set (rows := filter _ (conversations w)).
  destruct (select_ok env).
  - split; [|split; [discriminate|]].
    + rewrite length_map, length_skipn. lia.
    + exists (map (fun t => {| role := turn_role t;
                               content := turn_content t |})
                (firstn (length rows - limit) rows)).
      rewrite <- map_app. now rewrite firstn_skipn.
  - split; [cbn; lia|]. split; [reflexivity|].
    eexists. now rewrite app_nil_r.
Qed.

(** Persistence only appends: the stored turns stay, in their order, and
    at most two turns of the session are added, the user turn first; the
    count of completion calls is not touched; if the first insertion
    fails nothing is stored. *)
Theorem save_conversation_only_appends :
  forall (env : Collaborators) (w : World)
         (sid user_message bot_response language : str),
    llm_calls (_save_conversation env w sid user_message bot_response
                 language) = llm_calls w
    /\ (exists added,
          conversations
            (_save_conversation env w sid user_message bot_response language)
          = conversations w ++ added
          /\ (added = []
              \/ (exists bot_tail,
                    added
                    = {| turn_session := sid; turn_role := utf8 "user";
                         turn_content := user_message;
                         turn_language := language |} :: bot_tail
                    /\ (bot_tail = []
                        \/ bot_tail
                           = [ {| turn_session := sid;
                                  turn_role := utf8 "assistant";
                                  turn_content := bot_response;
                                  turn_language := language |} ]))))
    /\ (insert_ok env
          {| turn_session := sid; turn_role := utf8 "user";
             turn_content := user_message; turn_language := language |}
        = false ->
        _save_conversation env w sid user_message bot_response language = w).
Proof.
  intros env w sid um br lang. split; [apply save_conversation_calls|].
  unfold _save_conversation, add_turn. cbv zeta.
  set (ut := {| turn_session := sid; turn_role := utf8 "user";
                turn_content := um; turn_language := lang |}).
  set (bt := {| turn_session := sid; turn_role := utf8 "assistant";
                turn_content := br; turn_language := lang |}).
  destruct (insert_ok env ut) eqn:I1.
  - split; [|discriminate].
    destruct (insert_ok env bt) eqn:I2; cbn [conversations].
    + exists [ut; bt]. rewrite <- app_assoc. split; [reflexivity|]. right.
      exists [bt]. split; [reflexivity|]. now right.
    + exists [ut]. split; [reflexivity|]. right.
      exists []. split; [reflexivity|]. now left.
  - split; [|reflexivity]. exists []. rewrite app_nil_r. auto.
Qed.

(** One request never removes or changes a stored turn: it appends at
    most two turns, both of the session of the request, and makes at most
    two calls to the completion collaborator (one to contextualize, one
    to generate; none is repeated). *)
Theorem process_message_effects_are_bounded :
  forall (RT : PyRuntime) (env : Collaborators) (w : World)
         (message : str) (sid : option str) (pref : str),
    (exists added,
        conversations (snd (process_message env w message sid pref))
        = conversations w ++ added
        /\ (length added <= 2)%nat
        /\ Forall (fun t => turn_session t = resolve_session env sid) added)
    /\ (llm_calls w
        <= llm_calls (snd (process_message env w message sid pref))
        <= llm_calls w + 2)%nat.
Proof.
  intros RT env w message sid pref.
  pose proof (refine_message_conversations env w message
                (resolve_session env sid)) as RC.
  pose proof (refine_message_calls env w message
                (resolve_session env sid)) as RL.
  assert (RL' : (llm_calls w
                 <= llm_calls (snd (refine_message env w message
                                      (resolve_session env sid)))
                 <= llm_calls w + 1)%nat).
  { rewrite RL.
    destruct (_get_conversation_history env w (resolve_session env sid) 8);
      lia. }
  destruct (process_message_cases env w message sid pref)
    as [-> | [-> | (context & ->)]]; cbn [snd].
  - split; [|lia]. exists []. rewrite app_nil_r.
    split; [exact RC|]. split; [cbn; lia|constructor].
  - split; [|lia]. exists []. rewrite app_nil_r.
    split; [exact RC|]. split; [cbn; lia|constructor].
  - destruct (generate_and_save_outcome env
                (snd (refine_message env w message (resolve_session env sid)))
                message (resolve_session env sid) pref
                (fst (detect_with_confidence message))
                (snd (detect_with_confidence message))
                (_determine_response_language
                   (fst (detect_with_confidence message)) pref) context)
      as (reply & _ & ->).
    cbn [snd]. rewrite save_conversation_calls. cbn [llm_calls].
    split; [|lia].
    destruct (save_conversation_added env
                {| conversations :=
                     conversations
                       (snd (refine_message env w message
                               (resolve_session env sid)));
                   llm_calls :=
                     S (llm_calls
                          (snd (refine_message env w message
                                  (resolve_session env sid)))) |}
                (resolve_session env sid) message (text reply)
                (language_value
                   (_determine_response_language
                      (fst (detect_with_confidence message)) pref)))
      as (added & Ha & Hl & Hs).
    exists added.
    split; [rewrite Ha; cbn [conversations]; now rewrite RC|].
    split; assumption.
Qed.

(** The confidence of a response is one of four constants; the fixed
    answers (0.0 for the generic error, 0.8 for the missing roadmap) are
    never persisted. *)
Theorem process_message_confidence_levels :
  forall (RT : PyRuntime) (env : Collaborators) (w : World)
         (message : str) (sid : option str) (pref : str),
    let out := process_message env w message sid pref in
    In (chat_confidence (fst out))
       [0%Q; (3 # 10)%Q; (8 # 10)%Q; (9 # 10)%Q]
    /\ (chat_confidence (fst out) = 0%Q
        \/ chat_confidence (fst out) = (8 # 10)%Q ->
        conversations (snd out) = conversations w).
Proof.
  intros RT env w message sid pref out. unfold out.
  pose proof (refine_message_conversations env w message
                (resolve_session env sid)) as RC.
  destruct (process_message_cases env w message sid pref)
    as [-> | [-> | (context & ->)]].
  - cbn [fst snd chat_confidence _generate_fallback_response].
    split; [cbn; auto|]. intros _. exact RC.
  - cbn [fst snd chat_confidence _generate_error_response].
    split; [cbn; auto|]. intros _. exact RC.
  - destruct (generate_and_save_outcome env
                (snd (refine_message env w message (resolve_session env sid)))
                message (resolve_session env sid) pref
                (fst (detect_with_confidence message))
                (snd (detect_with_confidence message))
                (_determine_response_language
                   (fst (detect_with_confidence message)) pref) context)
      as (reply & Hc & ->).
    cbn [fst snd chat_confidence].
    destruct Hc as [-> | ->]; (split; [cbn; auto|]);
      intros [H | H]; discriminate H.
Qed.

End OrchestratorExtras.

(* ================================================================== *)
(** * Further verified properties: validator and LLM service *)
(* ================================================================== *)

Section ValidatorMore.
Import LLMValidator ValidatorSpec ValidatorFacts.

(** Validating twice with an empty context is validating once: the
    first pass leaves no URL for the second to replace. *)
Theorem validate_empty_context_idempotent :
  forall (RT : PyRuntime) (text : str),
    _validate_urls_against_context
      (_validate_urls_against_context text []) []
    = _validate_urls_against_context text [].
Proof.
  intros RT text. cbn [_validate_urls_against_context].
  apply sub_urls_without_url. apply findall_urls_nil_iff.
  apply sub_urls_no_url.
Qed.

Lemma url_chars_no_newline (u : str) :
  forallb url_char u = true -> ~ In 10%N u.
Proof.
  intros H Hin. rewrite forallb_forall in H. specialize (H _ Hin).
  vm_compute in H. discriminate.
Qed.

(** The normal form of a URL ignores what generated text appends to it:
    any run of the punctuation marks [.,;:!)] after a string without
    white space, and one slash after a string that does not end with
    such a mark. *)
Theorem normalize_url_ignores_trailing_marks :
  forall (RT : PyRuntime) (u : str),
    forallb url_char u = true ->
    (forall ps, forallb trailing_punct ps = true ->
                normalize_url (u ++ ps) = normalize_url u)
    /\ (rstrip_by trailing_punct u = u ->
        normalize_url (u ++ [47%N]) = normalize_url u).
Proof.
  intros RT u Hu. pose proof (url_chars_no_newline u Hu) as Hn. split.
  - intros ps Hps. unfold normalize_url.
    rewrite (strip_trailing_punct_no_newline u Hn).
    rewrite strip_trailing_punct_no_newline.
    + now rewrite rstrip_by_app_all.
    + intro Hin. apply in_app_or in Hin as [Hin | Hin];
        [now apply Hn | now apply (punct_not_newline ps)].
  - intro Hp. unfold normalize_url.
    rewrite (strip_trailing_punct_no_newline u Hn), Hp.
    rewrite strip_trailing_punct_no_newline.
    + rewrite rstrip_by_keeps by reflexivity.
      unfold rstrip_char. now rewrite rstrip_by_app_all.
    + intro Hin. apply in_app_or in Hin as [Hin | [Hin | []]];
        [now apply Hn | discriminate Hin].
Qed.

Lemma normalize_url_ignores_trailing_marks_witness :
  normalize_url (H := ascii_runtime)
    (utf8 "https://roadmap.sh/game-developer" ++ utf8 ").")
  = normalize_url (H := ascii_runtime)
      (utf8 "https://roadmap.sh/game-developer").
Proof.
  apply (normalize_url_ignores_trailing_marks ascii_runtime
           (utf8 "https://roadmap.sh/game-developer"));
    vm_compute; reflexivity.
Defined.

Lemma test_allow_list_eq `{PyRuntime} (context : list Dict) :
  map UrlValidationTest.normalize_url
    (UrlValidationTest.context_valid_urls context)
  = map normalize_url (context_urls context).
Proof.
  unfold UrlValidationTest.context_valid_urls, context_urls.
  induction context as [|item context IH]; [reflexivity|].
  cbn [flat_map]. rewrite !map_app, IH. f_equal.
  clear IH. induction item as [|[k v] item IH]; [reflexivity|].
  cbn [flat_map snd]. rewrite !map_app, IH. f_equal.
  destruct v; try reflexivity. now rewrite map_map.
Qed.

(** The reference validator of [test_url_validation.py] and the
    validator of the service return the same text on every non-empty
    context. *)
Theorem test_validator_agrees_with_service :
  forall (RT : PyRuntime) (text : str) (context : list Dict),
    context <> [] ->
    UrlValidationTest.validate_urls text context
    = _validate_urls_against_context text context.
Proof.
  intros RT text context Hc. destruct context as [|item context];
    [congruence|].
  rewrite validate_nonempty_context.
  unfold UrlValidationTest.validate_urls. rewrite test_allow_list_eq.
  destruct (findall_urls text) as [|u urls]; reflexivity.
Qed.

Lemma test_validator_agrees_with_service_witness :
  UrlValidationTest.validate_urls (H := ascii_runtime) frontend_text
    frontend_context
  = _validate_urls_against_context (H := ascii_runtime) frontend_text
      frontend_context.
Proof.
  apply (test_validator_agrees_with_service ascii_runtime). discriminate.
Defined.

End ValidatorMore.

Section LLMExtras.
Import LanguageDetector LLMValidator ValidatorSpec ValidatorFacts LLMService.

Lemma error_messages_without_url user_language :
  findall_urls (error_messages user_language) = [].
Proof. destruct user_language; vm_compute; reflexivity. Qed.

(** With an empty context no link reaches the user: whatever the
    completion collaborator answers, or if it fails, the reply of
    [generate_response] holds no URL-shaped substring, and one call was
    made. *)
Theorem generation_without_context_has_no_url :
  forall (RT : PyRuntime) (complete : Completion)
         (user_language : LanguageType) (calls : nat),
    exists reply,
      generate_response complete [] user_language calls
      = (inr reply, S calls)
      /\ ~ has_url (text reply).
Proof.
  intros RT complete user_language calls.
  rewrite generate_response_once. unfold generate_response_body.
  destruct (complete calls) as [e|raw]; eexists;
    (split; [reflexivity|]); cbn [text].
  - apply findall_urls_nil_iff. apply error_messages_without_url.
  - cbn [_validate_urls_against_context]. apply sub_urls_no_url.
Qed.

(** Contextualization never blocks the pipeline.  Without history the
    message is returned and no call is made; with history exactly one
    call is made: if it fails the message is returned as it is, and if
    it answers, the query is the stripped answer without its quote
    characters. *)
Theorem contextualize_query_behaviour :
  forall (complete : Completion) (message : str)
         (history : list HistoryRow) (calls : nat),
    (history = [] ->
     contextualize_query complete message history calls = (message, calls))
    /\ (history <> [] ->
        snd (contextualize_query complete message history calls) = S calls
        /\ (forall e, complete calls = inl e ->
              fst (contextualize_query complete message history calls)
              = message)
        /\ (forall answer, complete calls = inr answer ->
              fst (contextualize_query complete message history calls)
              = filter (fun c => negb (39 =? c)%N && negb (34 =? c)%N)
                  (strip answer)
              /\ ~ In 34%N
                   (fst (contextualize_query complete message history calls))
              /\ ~ In 39%N
                   (fst (contextualize_query complete message history
                           calls)))).
Proof.
  intros complete message history calls. split.
  - now intros ->.
  - intro Hne. destruct history as [|h hs]; [congruence|].
    unfold contextualize_query, single_quote, double_quote.
    destruct (complete calls) as [e|answer] eqn:E; cbn [fst snd].
    + split; [reflexivity|]. split; [reflexivity|]. discriminate.
    + split; [reflexivity|]. split; [discriminate|].
      intros a Ha. injection Ha as <-.
      rewrite !replace_single_delete.
      assert (F : filter (fun x => negb (39 =? x)%N)
                    (filter (fun x => negb (34 =? x)%N) (strip answer))
                  = filter (fun c => negb (39 =? c)%N && negb (34 =? c)%N)
                      (strip answer)).
      { induction (strip answer) as [|x s IH]; [reflexivity|].
        cbn [filter]. destruct (34 =? x)%N; cbn [negb].
        - rewrite andb_false_r. exact IH.
        - cbn [filter]. rewrite andb_true_r.
          destruct (39 =? x)%N; cbn [negb]; now rewrite IH. }
      rewrite F. split; [reflexivity|].
      split; intro Hin; apply filter_In in Hin as [_ Hin];
        vm_compute in Hin; discriminate.
Qed.

Lemma contextualize_query_behaviour_witness :
  snd (contextualize_query (fun _ => inr (utf8 " 'rust' roadmap "))
         (utf8 "what about it")
         [{| role := utf8 "user"; content := utf8 "I like rust" |}] 0)
  = 1.
Proof.
  apply (contextualize_query_behaviour
           (fun _ => inr (utf8 " 'rust' roadmap ")) (utf8 "what about it")
           [{| role := utf8 "user"; content := utf8 "I like rust" |}] 0).
  discriminate.
Defined.

Lemma collapse_ws_blanks s : forall in_run,
  Forall (fun c => is_space c = true -> c = 32%N) (collapse_ws in_run s).
Proof.
  induction s as [|c s IH]; intro in_run; [constructor|].
  cbn [collapse_ws]. destruct (is_space c) eqn:E.
  - destruct in_run; [apply IH|]. constructor; [reflexivity|apply IH].
  - constructor; [congruence|apply IH].
Qed.

Lemma collapse_ws_Forall (P : char -> Prop) s : forall in_run,
  P 32%N -> Forall P s -> Forall P (collapse_ws in_run s).
Proof.
  induction s as [|c s IH]; intros in_run H32 Hs; [constructor|].
  inversion Hs; subst. cbn [collapse_ws].
  destruct (is_space c); [destruct in_run|]; try constructor; auto.
Qed.

Lemma fold_replace_Forall (P : char -> Prop) (rs : list (str * str)) :
  forall s,
    Forall (fun p => Forall P (snd p)) rs -> Forall P s ->
    Forall P (fold_left (fun acc p => replace (fst p) (snd p) acc) rs s).
Proof.
  induction rs as [|r rs IH]; intros s Hr Hs; [exact Hs|].
  inversion Hr; subst. cbn [fold_left]. apply IH; [assumption|].
  now apply replace_Forall.
Qed.

Lemma fold_delete_Forall (P : char -> Prop) (ws : list str) :
  forall s,
    Forall P s ->
    Forall P (fold_left (fun acc word => replace word [] acc) ws s).
Proof.
  induction ws as [|w ws IH]; intros s Hs; [exact Hs|].
  cbn [fold_left]. apply IH. apply replace_Forall; [constructor|exact Hs].
Qed.

(** The cleaned text holds no character of the five forbidden blocks;
    it neither starts nor ends with white space, and the only white
    space left in it is the blank. *)
Theorem clean_foreign_characters_output :
  forall text : str,
    Forall (fun c => forbidden_char c = false)
      (_clean_foreign_characters text)
    /\ Forall (fun c => is_space c = true -> c = 32%N)
         (_clean_foreign_characters text)
    /\ (forall c r, _clean_foreign_characters text = c :: r ->
                    is_space c = false)
    /\ (forall r c, _clean_foreign_characters text = r ++ [c] ->
                    is_space c = false).
Proof.
  intro text. unfold _clean_foreign_characters.
  split; [|split; [|apply strip_ends]].
  - apply strip_Forall. apply collapse_ws_Forall; [reflexivity|].
    apply fold_replace_Forall.
    + unfold replacements. repeat constructor.
    + apply fold_delete_Forall. apply Forall_forall. intros c Hc.
      apply filter_In in Hc as [_ Hc]. now apply negb_true_iff.
  - apply strip_Forall. apply collapse_ws_blanks.
Qed.

End LLMExtras.

(* ================================================================== *)
(** * Further verified properties: the search services *)
(* ================================================================== *)

Section EmbeddingExtras.
Import EmbeddingService SearchSpec.
Local Open Scope R_scope.

(** An embedding is produced only by an available model, for a text that
    is not blank, and always has 384 components. *)
Theorem generate_embedding_contract :
  forall (m : EmbeddingModel) (text : str),
    (forall e, generate_embedding m text = Some e ->
               length e = embedding_dim /\ _available m = true
               /\ strip text <> [] /\ encode m (strip text) = Some e)
    /\ (forallb is_space text = true -> generate_embedding m text = None)
    /\ (_available m = false -> generate_embedding m text = None).
Proof.
  intros m text. split; [|split].
  - intros e H. split; [now apply (generate_embedding_dim m text)|].
    unfold generate_embedding in H.
    destruct text as [|c t]; [discriminate|].
    destruct (strip (c :: t)) as [|c' t'] eqn:S; [discriminate|].
    destruct (_available m); [|discriminate]. cbn [negb] in H.
    destruct (encode m (c' :: t')) as [emb|] eqn:E; [|discriminate].
    destruct (negb (length emb =? embedding_dim)%nat); [discriminate|].
    injection H as <-.
    split; [reflexivity|]. split; [discriminate|reflexivity].
  - intro H. unfold generate_embedding.
    destruct text as [|c t]; [reflexivity|].
    now rewrite (strip_all_space _ H).
  - apply generate_embedding_unavailable.
Qed.

Lemma firstn_sorted {A : Type} (R : A -> A -> Prop) n : forall l,
  StronglySorted R l -> StronglySorted R (firstn n l).
Proof.
  induction n as [|n IH]; intros [|x l] S; simpl; try constructor.
  - inversion S; subst. now apply IH.
  - inversion S as [|? ? _ F]; subst. apply Forall_forall.
    intros y Hy. apply In_firstn in Hy. rewrite Forall_forall in F.
    now apply F.
Qed.

Lemma INR_ratio_le_1 n m : (n <= m)%nat -> (0 < m)%nat -> INR n / INR m <= 1.
Proof.
  intros Hle Hpos. apply le_INR in Hle. apply lt_INR in Hpos.
  simpl in Hpos. apply Rmult_le_reg_r with (r := INR m); [exact Hpos|].
  unfold Rdiv. rewrite Rmult_assoc, Rinv_l by lra. lra.
Qed.

Lemma keyword_score_le_1 `{PyRuntime} query_parts item :
  keyword_score query_parts item <= 1.
Proof.
  unfold keyword_score.
  destruct (split_ws _) as [|w ws]; [lra|].
  destruct query_parts as [|q qs]; [lra|].
  apply INR_ratio_le_1; [apply filter_length_le|cbn; lia].
Qed.

(** The keyword fallback returns at most [limit] rows, in descending
    order of their score; each row is an input item to which a score
    above 0 and at most 1 was added, all its other fields unchanged. *)
Theorem keyword_search_fallback_results :
  forall (RT : PyRuntime) (query_text : str) (items : list Dict)
         (limit : nat),
    (length (_keyword_search_fallback query_text items limit) <= limit)%nat
    /\ StronglySorted (desc (number_of "similarity"))
         (_keyword_search_fallback query_text items limit)
    /\ forall d,
         In d (_keyword_search_fallback query_text items limit) ->
         exists item s,
           In item items /\ d = with_similarity item s /\ 0 < s <= 1
           /\ number_of "similarity" d = s
           /\ forall k, k <> "similarity"%string ->
                        k <> "similarity_score"%string ->
                        dict_get k d = dict_get k item.
Proof.
  intros RT query_text items limit. unfold _keyword_search_fallback.
  split; [apply firstn_le_length|].
  split; [apply firstn_sorted, sort_desc_sorted|].
  intros d Hd. apply In_firstn, sort_desc_In in Hd.
  apply in_flat_map in Hd as (item & Hitem & Hd).
  destruct (Rlt_dec 0 _) as [Pos|]; [|destruct Hd].
  destruct Hd as [<- | []]. eexists item, _.
  split; [exact Hitem|]. split; [reflexivity|].
  split; [split; [exact Pos | apply keyword_score_le_1]|].
  split; [apply with_similarity_score|].
  intros k H1 H2. unfold with_similarity.
  rewrite !dict_get_set_other by congruence. reflexivity.
Qed.

(** The client-side search is total: nothing for an empty corpus, never
    more than [limit] rows, and nothing at all when the model is
    unavailable and the fallback is not allowed. *)
Theorem search_similar_roadmaps_bounds :
  forall (RT : PyRuntime) (m : EmbeddingModel) (query_text : str)
         (roadmaps : list Dict) (limit : nat) (allow_fallback : bool),
    search_similar_roadmaps m query_text [] limit allow_fallback = []
    /\ (length (search_similar_roadmaps m query_text roadmaps limit
                  allow_fallback) <= limit)%nat
    /\ (_available m = false ->
        search_similar_roadmaps m query_text roadmaps limit false = []).
Proof.
  intros RT m query_text roadmaps limit allow_fallback.
  split; [reflexivity|]. split.
  - unfold search_similar_roadmaps.
    destruct roadmaps as [|r rs]; [cbn; lia|].
    destruct (client_vector_search m query_text (r :: rs) limit)
      as [| |results] eqn:E.
    + now destruct (client_vector_search_never_raises _ _ _ _ E).
    + destruct allow_fallback; [|cbn; lia].
      unfold _keyword_search_fallback. apply firstn_le_length.
    + destruct (client_vector_search_found _ _ _ _ _ E) as (q & _ & ->).
      apply firstn_le_length.
  - intro H. unfold search_similar_roadmaps.
    destruct roadmaps as [|r rs]; [reflexivity|].
    now rewrite (client_vector_search_unavailable _ _ _ _ H).
Qed.

End EmbeddingExtras.

Section RoadmapExtras.
Import EmbeddingService RoadmapService SearchSpec.
Local Open Scope R_scope.

Lemma expand_entry_members query_lower key synonyms x :
  In x (expand_entry query_lower (key, synonyms)) ->
  x = key \/ In x synonyms.
Proof.
  unfold expand_entry. intro H. apply in_app_or in H as [H | H].
  - destruct (contains key query_lower); [now right|destruct H].
  - apply in_flat_map in H as (syn & _ & H).
    destruct (contains syn query_lower); [|destruct H].
    destruct H as [<- | H]; auto.
Qed.

(** Query expansion.  The variants are distinct and hold the lowered
    query; the synonyms of every key found in the query are variants;
    for every synonym found in the query, its key and every synonym of
    that key are variants; and every variant is the lowered query, a key
    or a synonym of the table. *)
Theorem expand_query_is_bidirectional :
  forall (RT : PyRuntime) (L : PyRuntimeLaws RT) (query : str),
    NoDup (_expand_query query)
    /\ In (py_lower query) (_expand_query query)
    /\ (forall key synonyms s,
          In (key, synonyms) SYNONYMS ->
          contains key (py_lower query) = true ->
          In s synonyms -> In s (_expand_query query))
    /\ (forall key synonyms synonym,
          In (key, synonyms) SYNONYMS -> In synonym synonyms ->
          contains synonym (py_lower query) = true ->
          In key (_expand_query query)
          /\ forall s, In s synonyms -> In s (_expand_query query))
    /\ (forall x,
          In x (_expand_query query) ->
          x = py_lower query
          \/ exists key synonyms,
               In (key, synonyms) SYNONYMS /\ (x = key \/ In x synonyms)).
Proof.
  intros RT L query. unfold _expand_query.
  split; [|split; [|split; [|split]]].
  - apply (Permutation_NoDup
             (Permutation_sym (set_order_perm (expanded_list query)))).
    apply NoDup_nodup.
  - apply set_order_In. now left.
  - intros key synonyms s Hk Hc Hs. apply set_order_In. right.
    apply in_flat_map. exists (key, synonyms). split; [exact Hk|].
    unfold expand_entry. apply in_or_app. left. now rewrite Hc.
  - intros key synonyms synonym Hk Hsyn Hc.
    assert (G : forall x, x = key \/ In x synonyms ->
                          In x (set_order (expanded_list query))).
    { intros x Hx. apply set_order_In. right.
      apply in_flat_map. exists (key, synonyms). split; [exact Hk|].
      unfold expand_entry. apply in_or_app. right.
      apply in_flat_map. exists synonym. split; [exact Hsyn|].
      rewrite Hc. destruct Hx as [-> | Hx]; [now left|now right]. }
    split; [apply G; now left|]. intros s Hs. apply G. now right.
  - intros x Hx. apply (proj1 (set_order_In _ _)) in Hx.
    unfold expanded_list in Hx. cbv zeta in Hx. apply in_inv in Hx.
    destruct Hx as [<- | Hx]; [now left|].
    right. apply in_flat_map in Hx as ([key synonyms] & Hk & Hx).
    exists key, synonyms. split; [exact Hk|].
    now apply (expand_entry_members (py_lower query)).
Qed.

Lemma expand_query_is_bidirectional_witness :
  PyRuntimeLaws ascii_runtime
  /\ In (py_lower (PyRuntime := ascii_runtime) react_query)
        (_expand_query (H := ascii_runtime) react_query).
Proof.
  split; [exact ascii_runtime_laws|].
  exact (proj1 (proj2 (expand_query_is_bidirectional
                         ascii_runtime ascii_runtime_laws react_query))).
Defined.

Lemma score_all_missing_title `{PyRuntime} qs roadmaps roadmap :
  In roadmap roadmaps -> cleaned_fields roadmap = None ->
  score_all qs roadmaps = None.
Proof.
  intros Hin Hc. induction roadmaps as [|r rs IH]; [destruct Hin|].
  cbn [score_all]. destruct Hin as [-> | Hin].
  - now rewrite Hc.
  - destruct (cleaned_fields r); [|reflexivity].
    now rewrite (IH Hin).
Qed.

(** One row without a title makes the whole text matching raise, so the
    fuzzy search of a deployment without embeddings returns nothing,
    whatever the other rows hold. *)
Theorem missing_title_empties_fuzzy_search :
  forall (RT : PyRuntime) (m : EmbeddingModel) (db : Store)
         (query : str) (limit : nat) (all_roadmaps : list Dict)
         (roadmap : Dict),
    _available m = false ->
    roadmaps_all db = Some all_roadmaps ->
    In roadmap all_roadmaps ->
    dict_get "title" roadmap = None ->
    text_matching query all_roadmaps limit = None
    /\ _fuzzy_search m db query limit = []
    /\ search_roadmaps m db query limit true = [].
Proof.
  intros RT m db query limit all_roadmaps roadmap Ha Hdb Hin Ht.
  assert (C : cleaned_fields roadmap = None)
    by (unfold cleaned_fields; now rewrite Ht).
  assert (T : text_matching query all_roadmaps limit = None).
  { unfold text_matching.
    now rewrite (score_all_missing_title _ _ _ Hin C). }
  split; [exact T|]. split.
  - rewrite (fuzzy_search_unavailable _ _ _ _ Ha), Hdb. now rewrite T.
  - rewrite (search_roadmaps_unavailable _ _ _ _ _ Ha), Hdb. now rewrite T.
Qed.

Lemma missing_title_empties_fuzzy_search_witness :
  search_roadmaps (H := ascii_runtime) no_model
    {| roadmaps_all := Some [frontend_faq];
       faqs_active := Some [];
       match_roadmaps := fun _ _ _ => Some [];
       match_faqs := fun _ _ _ => Some [] |}
    react_query 5 true = [].
Proof.
  apply (missing_title_empties_fuzzy_search ascii_runtime no_model
           {| roadmaps_all := Some [frontend_faq];
              faqs_active := Some [];
              match_roadmaps := fun _ _ _ => Some [];
              match_faqs := fun _ _ _ => Some [] |}
           react_query 5%nat [frontend_faq] frontend_faq);
    try reflexivity.
  now left.
Defined.

(** A roadmap whose cleaned text holds one of the query variants as it
    is gets the score 1 exactly, and is therefore kept by the
    threshold. *)
Theorem direct_match_scores_one :
  forall (RT : PyRuntime) (L : PyRuntimeLaws RT)
         (expanded_queries : list str) (title desc cat : str),
    (exists q, In q expanded_queries
               /\ contains (clean_and_hyphen q)
                    (title ++ space ++ desc ++ space ++ cat) = true) ->
    roadmap_score expanded_queries (title, desc, cat) = 1
    /\ 15 / 100 < roadmap_score expanded_queries (title, desc, cat).
Proof.
  intros RT L qs title desc cat H.
  assert (E : roadmap_score qs (title, desc, cat) = 1).
  { apply Rle_antisym; [apply roadmap_score_range|].
    unfold roadmap_score. now apply max_score_loop_direct. }
  split; [exact E|]. rewrite E. lra.
Qed.

Lemma direct_match_scores_one_witness :
  PyRuntimeLaws ascii_runtime
  /\ roadmap_score (H := ascii_runtime) [utf8 "frontend"]
       (utf8 "frontend developer", utf8 "", utf8 "web") = 1.
Proof.
  split; [exact ascii_runtime_laws|].
  apply (direct_match_scores_one ascii_runtime ascii_runtime_laws).
  exists (utf8 "frontend"). split; [now left|]. vm_compute. reflexivity.
Defined.

End RoadmapExtras.

(* ================================================================== *)
(** * Further verified properties: roadmap requests and their context *)
(* ================================================================== *)

Section RoadmapContext.
Import LLMValidator ValidatorSpec ValidatorFacts EmbeddingService ChatService.

Lemma search_phrases_literal (alts : list (list piece)) (kw : str) :
  In [Lit kw] alts ->
  forall s, contains kw s = true -> search_phrases alts s = true.
Proof.
  intros Hin.
  assert (Hd : forall s, startswith kw s = true ->
                         existsb (fun ps => match_pieces ps s) alts = true).
  { intros s Hs. apply existsb_exists. exists [Lit kw].
    split; [exact Hin|]. cbn [match_pieces]. now rewrite Hs. }
  induction s as [|c s IH]; cbn [contains search_phrases]; intro H.
  - rewrite orb_false_r in H. now rewrite (Hd _ H).
  - apply orb_true_iff in H as [H | H].
    + now rewrite (Hd _ H).
    + rewrite (IH H). apply orb_true_r.
Qed.

(** A roadmap request is answered with the lowered message, never with
    another text; and a message that holds one of the one-word keywords
    anywhere, also inside a longer word, is a roadmap request. *)
Theorem detect_roadmap_request_keywords :
  forall (RT : PyRuntime) (message : str),
    (forall q, _detect_roadmap_request message = Some q ->
               q = py_lower message)
    /\ (forall kw,
          In kw [utf8 "roadmap"; utf8 "path"; utf8 "guide";
                 utf8 "مسار"; utf8 "خريطة"; utf8 "طريق"] ->
          contains kw (py_lower message) = true ->
          _detect_roadmap_request message = Some (py_lower message)).
Proof.
  intros RT message. unfold _detect_roadmap_request. cbv zeta. split.
  - intros q. destruct (existsb _ roadmap_keywords); congruence.
  - intros kw Hkw Hc.
    assert (E : existsb (fun alts => search_phrases alts (py_lower message))
                  roadmap_keywords = true).
    { apply existsb_exists.
      assert (G : exists alts, In alts roadmap_keywords /\ In [Lit kw] alts).
      { unfold roadmap_keywords.
        destruct Hkw as [<- | [<- | [<- | [<- | [<- | [<- | []]]]]]];
          eexists; (split; [|]).
        - right; right; left; reflexivity.
        - left; reflexivity.
        - right; right; left; reflexivity.
        - right; right; left; reflexivity.
        - right; right; left; reflexivity.
        - right; right; right; left; reflexivity.
        - left; reflexivity.
        - left; reflexivity.
        - left; reflexivity.
        - right; right; left; reflexivity.
        - left; reflexivity.
        - right; right; right; left; reflexivity. }
      destruct G as (alts & Ha & Hl). exists alts. split; [exact Ha|].
      now apply (search_phrases_literal alts kw Hl). }
    now rewrite E.
Qed.

Lemma detect_roadmap_request_keywords_witness :
  _detect_roadmap_request (H := ascii_runtime) (utf8 "File PATH error")
  = Some (utf8 "file path error").
Proof.
  apply (proj2 (detect_roadmap_request_keywords ascii_runtime
                  (utf8 "File PATH error")) (utf8 "path")).
  - right; left; reflexivity.
  - vm_compute. reflexivity.
Defined.

(** Formatting raises exactly when a row lacks one of the three keys it
    reads; otherwise it gives one context item per row. *)
Theorem format_roadmap_context_contract :
  forall (RT : PyRuntime) (roadmaps : list Dict),
    (_format_roadmap_context roadmaps = None <->
     exists roadmap,
       In roadmap roadmaps
       /\ (dict_get "title" roadmap = None
           \/ dict_get "description" roadmap = None
           \/ dict_get "url" roadmap = None))
    /\ (forall context,
          _format_roadmap_context roadmaps = Some context ->
          length context = length roadmaps).
Proof.
  intros RT roadmaps. induction roadmaps as [|r rest [IH1 IH2]].
  - split; [|intros context H; injection H as <-; reflexivity].
    split; [discriminate|]. intros (x & [] & _).
  - cbn [_format_roadmap_context].
    destruct (dict_get "title" r) as [t|] eqn:Et;
      [|split; [|discriminate]; split; [|reflexivity];
        intros _; exists r; split; [now left|auto]].
    destruct (dict_get "description" r) as [d|] eqn:Ed;
      [|split; [|discriminate]; split; [|reflexivity];
        intros _; exists r; split; [now left|auto]].
    destruct (dict_get "url" r) as [u|] eqn:Eu;
      [|split; [|discriminate]; split; [|reflexivity];
        intros _; exists r; split; [now left|auto]].
    destruct (_format_roadmap_context rest) as [formatted|].
    + split.
      * split; [discriminate|]. intros (x & [<- | Hin] & Hx).
        -- destruct Hx as [Hx | [Hx | Hx]]; congruence.
        -- assert (N : Some formatted = None)
             by (apply (proj2 IH1); now exists x).
           discriminate N.
      * intros context H. injection H as <-. cbn [length].
        now rewrite (IH2 formatted eq_refl).
    + split; [|discriminate]. split; [|reflexivity]. intros _.
      destruct (proj1 IH1 eq_refl) as (x & Hin & Hx).
      exists x. split; [now right|exact Hx].
Qed.

Lemma url_shaped_no_blank u : url_shaped u -> Forall (fun c => c <> 32%N) u.
Proof.
  intros (sch & body & Hs & -> & _ & Hb). apply Forall_app. split.
  - destruct Hs as [-> | ->]; repeat constructor; discriminate.
  - apply Forall_forall. intros c Hc ->.
    rewrite forallb_forall in Hb. specialize (Hb _ Hc).
    vm_compute in Hb. discriminate.
Qed.

Lemma app_split_blank (v : str) : forall r a t,
  Forall (fun c => c <> 32%N) v -> v ++ r = a ++ 32%N :: t ->
  exists a', a = v ++ a' /\ r = a' ++ 32%N :: t.
Proof.
  induction v as [|c v IH]; intros r a t Hv E.
  - now exists a.
  - inversion Hv as [|? ? Hc Hv']; subst. destruct a as [|c' a].
    + simpl in E. injection E as -> _. now contradiction Hc.
    + simpl in E. injection E as <- E.
      destruct (IH _ _ _ Hv' E) as (a' & -> & ->). now exists a'.
Qed.

Lemma findall_urls_whole u : url_shaped u -> findall_urls u = [u].
Proof.
  intros (sch & body & Hs & -> & Hne & Hb).
  assert (M : match_url ((sch ++ body) ++ []) = Some (sch ++ body, [])).
  { rewrite app_nil_r. unfold match_url.
    rewrite (url_scheme_complete _ _ Hs).
    rewrite <- (app_nil_r body) at 1 2.
    rewrite (take_while_app_all _ _ _ Hb).
    rewrite app_nil_r. rewrite (drop_while_all _ _ Hb).
    cbn [take_while]. rewrite app_nil_r.
    destruct body; [congruence|reflexivity]. }
  rewrite <- (app_nil_r (sch ++ body)) at 1.
  now rewrite (findall_urls_hit _ _ M).
Qed.

(** A URL that follows a blank at the end of a text is found whatever
    comes before the blank. *)
Lemma findall_urls_after_blank u : url_shaped u ->
  forall s a, s = a ++ 32%N :: u -> In u (findall_urls s).
Proof.
  intros Hu s. pattern s. apply scan_ind; clear s.
  - intros [|] E; discriminate E.
  - intros c s M IH [|c' a] E; simpl in E; injection E as -> ->.
    + rewrite (findall_urls_miss _ _ M), (findall_urls_whole _ Hu).
      now left.
    + rewrite (findall_urls_miss _ _ M). now apply (IH a).
  - intros v r M Hv IH a E. rewrite (findall_urls_hit _ _ M). right.
    destruct (app_split_blank v r a u (url_shaped_no_blank _ Hv) E)
      as (a' & _ & Hr).
    now apply (IH a').
Qed.

Lemma roadmap_url_in_context `{PyRuntime} (roadmaps : list Dict) :
  forall context roadmap u,
    _format_roadmap_context roadmaps = Some context ->
    In roadmap roadmaps ->
    dict_get "url" roadmap = Some (VStr u) ->
    url_shaped u ->
    In u (context_urls context).
Proof.
  induction roadmaps as [|r rest IH]; intros context roadmap u F Hin Hu Su;
    [destruct Hin|].
  cbn [_format_roadmap_context] in F.
  destruct (dict_get "title" r) as [t|]; [|discriminate].
  destruct (dict_get "description" r) as [d|]; [|discriminate].
  destruct (dict_get "url" r) as [l|] eqn:El; [|discriminate].
  destruct (_format_roadmap_context rest) as [formatted|]; [|discriminate].
  injection F as <-. unfold context_urls. cbn [flat_map].
  apply in_or_app. destruct Hin as [-> | Hin].
  - left. rewrite Hu in El. injection El as <-.
    apply in_or_app. right. apply in_or_app. right.
    apply in_or_app. right. apply in_or_app. left. cbn [snd str_of_value].
    apply (findall_urls_after_blank u Su _
             (str_of_value d ++ [10; 10; 76; 105; 110; 107; 58]%N)).
    rewrite <- app_assoc. reflexivity.
  - right. now apply (IH formatted roadmap u).
Qed.

(** The links of the roadmaps that were found survive validation: every
    URL-shaped link of a roadmap is in the allow-list of the formatted
    context, and a reply whose URLs all have the normal form of such a
    link is returned unchanged. *)
Theorem roadmap_links_survive_validation :
  forall (RT : PyRuntime) (roadmaps context : list Dict),
    _format_roadmap_context roadmaps = Some context ->
    (forall roadmap u,
       In roadmap roadmaps -> dict_get "url" roadmap = Some (VStr u) ->
       url_shaped u -> In u (context_urls context))
    /\ (forall text,
          (forall v, In v (findall_urls text) ->
             exists roadmap u,
               In roadmap roadmaps
               /\ dict_get "url" roadmap = Some (VStr u)
               /\ url_shaped u
               /\ normalize_url u = normalize_url v) ->
          _validate_urls_against_context text context = text).
Proof.
  intros RT roadmaps context F. split.
  - intros roadmap u. now apply roadmap_url_in_context.
  - intros text H. destruct context as [|item context].
    + cbn [_validate_urls_against_context]. apply sub_urls_without_url.
      destruct (findall_urls text) as [|v vs]; [reflexivity|].
      destruct (H v (or_introl eq_refl)) as (roadmap & u & Hin & _).
      destruct roadmaps as [|r rest]; [destruct Hin|].
      cbn [_format_roadmap_context] in F.
      destruct (dict_get "title" r); [|discriminate].
      destruct (dict_get "description" r); [|discriminate].
      destruct (dict_get "url" r); [|discriminate].
      destruct (_format_roadmap_context rest); discriminate.
    + apply validate_kept; [discriminate|]. intros v Hv.
      destruct (H v Hv) as (roadmap & u & Hin & Hu & Su & Hn).
      exists u. split; [|exact Hn].
      now apply (roadmap_url_in_context roadmaps _ roadmap u).
Qed.

Lemma roadmap_links_survive_validation_witness :
  exists context,
    _format_roadmap_context (H := ascii_runtime) [game_roadmap]
    = Some context
    /\ _validate_urls_against_context (H := ascii_runtime) game_text context
       = game_text.
Proof.
  eexists. split; [vm_compute; reflexivity|].
  refine (proj2 (roadmap_links_survive_validation ascii_runtime
                   [game_roadmap] _ _) game_text _).
  - vm_compute. reflexivity.
  - intros v Hv.
    assert (E : findall_urls game_text
                = [utf8 "https://roadmap.sh/game-developer/."])
      by (vm_compute; reflexivity).
    rewrite E in Hv. destruct Hv as [<- | []].
    exists game_roadmap, (utf8 "https://roadmap.sh/game-developer").
    split; [now left|]. split; [vm_compute; reflexivity|].
    split; [|vm_compute; reflexivity].
    exists https_scheme, (utf8 "roadmap.sh/game-developer").
    split; [now left|]. split; [vm_compute; reflexivity|].
    split; [vm_compute; discriminate|vm_compute; reflexivity].
Defined.

End RoadmapContext.
